(** * The workshop website generator (website-generator/main.go)

    A shallow embedding of the static-site generator: the link rewriter
    [fixRelativeLinks] with the fragment of Go's [regexp] package that it
    uses, the page and index composers, and the orchestration in [main]
    over an explicit model of the file system and the two output streams. *)

From Stdlib Require Import Ascii String ZArith Lia DecimalString.
From stdpp Require Import base option list gmap strings.

(** ** Go strings

    A Go [string] is a sequence of bytes; so is a [[]byte].  Both are
    lists of [ascii] here.  Literals are written with [str]; the double
    quote character is [dq]. *)

Abbreviation bytes := (list ascii).

Definition str (s : string) : bytes := list_ascii_of_string s.

Definition dq : ascii := Eval cbv in ascii_of_nat 34.

Module Strings.

(** [strings.HasPrefix]; on success the remainder is returned as well,
    which is what [strings.CutPrefix] gives. *)
Fixpoint CutPrefix (s pre : bytes) {struct pre} : option bytes :=
  match pre with
  | [] => Some s
  | p :: pre' =>
      match s with
      | [] => None
      | a :: s' => if Ascii.eqb a p then CutPrefix s' pre' else None
      end
  end.

Definition HasPrefix (s pre : bytes) : bool :=
  match CutPrefix s pre with Some _ => true | None => false end.

(** [strings.HasSuffix]. *)
Definition HasSuffix (s suf : bytes) : bool :=
  HasPrefix (rev s) (rev suf).

(** [strings.TrimSuffix]: [s] without the trailing [suf], or [s] itself. *)
Definition TrimSuffix (s suf : bytes) : bytes :=
  if HasSuffix s suf then take (length s - length suf) s else s.

(** [strings.Contains]: [sub] occurs somewhere in [s]. *)
Fixpoint Contains (s sub : bytes) : bool :=
  HasPrefix s sub ||
  match s with
  | [] => false
  | _ :: s' => Contains s' sub
  end.

End Strings.

(** [strconv.Itoa] (and the verb [%d]) on an [int]. *)
Definition Itoa (n : Z) : bytes := str (NilZero.string_of_int (Z.to_int n)).

(** ** The fragment of package [regexp] used by the generator

    Go's [regexp] matches leftmost-first: among the matches that start
    earliest it returns the one a backtracking search finds first.  The
    matcher below is that backtracking search, written in
    continuation-passing style.  The patterns of the generator are built
    from literals, one-character classes, [x+] on a class, concatenation,
    alternation and capture groups.

    The engine works on runes of UTF-8 text; every character these
    patterns name is ASCII and the only class that is not a set of ASCII
    characters is the complement of the double quote, so a match on runes
    and a match on bytes consume the same bytes. *)

Module Regexp.

Inductive regex : Type :=
| Lit (l : bytes)
| Class (p : ascii -> bool)
| Plus (p : ascii -> bool)
| Cat (r1 r2 : regex)
| Alt (r1 r2 : regex)
| Group (i : nat) (r : regex).

(** The text of the capture groups matched so far. *)
Abbreviation captures := (gmap nat bytes).

Section Exec.
Context {R : Type}.

(** [x*], greedy: the longest run first, then shorter ones. *)
Fixpoint star (p : ascii -> bool) (s : bytes) (k : bytes -> option R) : option R :=
  match s with
  | a :: s' =>
      if p a then
        match star p s' k with
        | Some r => Some r
        | None => k s
        end
      else k s
  | [] => k []
  end.

Definition plus (p : ascii -> bool) (s : bytes) (k : bytes -> option R) : option R :=
  match s with
  | a :: s' => if p a then star p s' k else None
  | [] => None
  end.

Fixpoint exec (r : regex) (s : bytes) (c : captures)
    (k : bytes -> captures -> option R) : option R :=
  match r with
  | Lit l =>
      match Strings.CutPrefix s l with
      | Some s' => k s' c
      | None => None
      end
  | Class p =>
      match s with
      | a :: s' => if p a then k s' c else None
      | [] => None
      end
  | Plus p => plus p s (fun s' => k s' c)
  | Cat r1 r2 => exec r1 s c (fun s' c' => exec r2 s' c' k)
  | Alt r1 r2 =>
      match exec r1 s c k with
      | Some x => Some x
      | None => exec r2 s c k
      end
  | Group i r1 =>
      exec r1 s c (fun s' c' => k s' (<[i := take (length s - length s') s]> c'))
  end.

End Exec.

(** A match anchored at the start of [s]: the capture groups (group 0 is
    the whole match) and the text after the match. *)
Definition matchHere (r : regex) (s : bytes) : option (captures * bytes) :=
  exec r s ∅
    (fun s' c => Some (<[0 := take (length s - length s') s]> c, s')).

(** The leftmost match in [s]. *)
Fixpoint find (r : regex) (s : bytes) : option captures :=
  match matchHere r s with
  | Some (c, _) => Some c
  | None =>
      match s with
      | [] => None
      | _ :: s' => find r s'
      end
  end.

Fixpoint NumSubexp (r : regex) : nat :=
  match r with
  | Lit _ | Class _ | Plus _ => 0
  | Cat r1 r2 | Alt r1 r2 => NumSubexp r1 + NumSubexp r2
  | Group _ r1 => S (NumSubexp r1)
  end.

Definition submatch (c : captures) (i : nat) : bytes := default [] (c !! i).

(** [Regexp.FindStringSubmatch]: the whole match and the groups of
    the leftmost match, or the empty slice. *)
Definition FindStringSubmatch (r : regex) (s : bytes) : list bytes :=
  match find r s with
  | Some c => submatch c <$> seq 0 (S (NumSubexp r))
  | None => []
  end.

(** One step of a replace-all loop: the replacement for a match at the
    start of the text and the text after that match. *)
Abbreviation rule := (bytes -> option (bytes * bytes)).

(** The loop of [Regexp.replaceAll]: scan from the left; where the
    rule applies, emit the replacement and resume after the match,
    elsewhere copy one byte.  [skip] counts the bytes of the current match
    still to be passed over.  A rule that consumes nothing is treated as
    not applying (no pattern of the generator matches the empty
    string). *)
Fixpoint replaceLoop (step : rule) (skip : nat) (s : bytes) : bytes :=
  match s with
  | [] => []
  | a :: s' =>
      match skip with
      | S n => replaceLoop step n s'
      | O =>
          match step s with
          | Some (out, rest) =>
              match length s - length rest with
              | S n => out ++ replaceLoop step n s'
              | O => a :: replaceLoop step 0 s'
              end
          | None => a :: replaceLoop step 0 s'
          end
      end
  end.

Definition ruleOf (r : regex) (repl : captures -> bytes) : rule :=
  fun s =>
    match matchHere r s with
    | Some (c, rest) => Some (repl c, rest)
    | None => None
    end.

(** [Regexp.ReplaceAllStringFunc]. *)
Definition ReplaceAllStringFunc (r : regex) (src : bytes) (repl : bytes -> bytes) : bytes :=
  replaceLoop (ruleOf r (fun c => repl (submatch c 0))) 0 src.

(** Template expansion of [Regexp.Expand]: [$$] is a dollar sign and
    [$name] is the text of a group, the name being the longest run of
    letters, digits and underscores.  A name that is a number denotes that
    group; the patterns here have no named groups, so another name
    expands to nothing.  (The braced form is not used by the generator
    and is left out.) *)
Definition isWordChar (a : ascii) : bool :=
  let n := nat_of_ascii a in
  ((48 <=? n) && (n <=? 57)) || ((65 <=? n) && (n <=? 90))
  || ((97 <=? n) && (n <=? 122)) || (n =? 95).

Definition isDigit (a : ascii) : bool :=
  let n := nat_of_ascii a in (48 <=? n) && (n <=? 57).

Definition groupNumber (name : bytes) : option nat :=
  if forallb isDigit name
  then Some (fold_left (fun acc a => 10 * acc + (nat_of_ascii a - 48)) name 0)
  else None.

Definition expandName (c : captures) (name : bytes) : bytes :=
  match groupNumber name with
  | Some i => submatch c i
  | None => []
  end.

Inductive expandState : Type :=
| Text
| Dollar
| Name (acc : bytes).

Fixpoint expandFrom (st : expandState) (template : bytes) (c : captures) : bytes :=
  match template with
  | [] =>
      match st with
      | Text => []
      | Dollar => str "$"
      | Name acc => expandName c acc
      end
  | a :: t =>
      match st with
      | Text =>
          if Ascii.eqb a "$" then expandFrom Dollar t c
          else a :: expandFrom Text t c
      | Dollar =>
          if Ascii.eqb a "$" then a :: expandFrom Text t c
          else if isWordChar a then expandFrom (Name [a]) t c
          else "$"%char :: a :: expandFrom Text t c
      | Name acc =>
          if isWordChar a then expandFrom (Name (acc ++ [a])) t c
          else expandName c acc ++
               (if Ascii.eqb a "$" then expandFrom Dollar t c
                else a :: expandFrom Text t c)
      end
  end.

Definition Expand (template : bytes) (c : captures) : bytes :=
  expandFrom Text template c.

(** [Regexp.ReplaceAllString]. *)
Definition ReplaceAllString (r : regex) (src template : bytes) : bytes :=
  replaceLoop (ruleOf r (Expand template)) 0 src.

End Regexp.

(** ** The link rewriter *)

Definition notQuote (a : ascii) : bool := negb (Ascii.eqb a dq).

(** The patterns, with Q standing for the double quote character.

    [href=Q\.\./(README\.md|exercises/([^Q]+)\.md)Q] *)
Definition reRepoLink : Regexp.regex :=
  Regexp.Cat (Regexp.Lit (str "href=" ++ [dq] ++ str "../"))
   (Regexp.Cat
     (Regexp.Group 1
       (Regexp.Alt (Regexp.Lit (str "README.md"))
         (Regexp.Cat (Regexp.Lit (str "exercises/"))
           (Regexp.Cat (Regexp.Group 2 (Regexp.Plus notQuote))
                       (Regexp.Lit (str ".md"))))))
     (Regexp.Lit [dq])).

(** [exercises/([^Q]+)\.md] *)
Definition reExercisePath : Regexp.regex :=
  Regexp.Cat (Regexp.Lit (str "exercises/"))
   (Regexp.Cat (Regexp.Group 1 (Regexp.Plus notQuote))
               (Regexp.Lit (str ".md"))).

(** [href=Q([0-9]{2}-[^Q]+)\.mdQ] *)
Definition reSiblingLink : Regexp.regex :=
  Regexp.Cat (Regexp.Lit (str "href=" ++ [dq]))
   (Regexp.Cat
     (Regexp.Group 1
       (Regexp.Cat (Regexp.Class Regexp.isDigit)
         (Regexp.Cat (Regexp.Class Regexp.isDigit)
           (Regexp.Cat (Regexp.Lit (str "-")) (Regexp.Plus notQuote)))))
     (Regexp.Lit (str ".md" ++ [dq]))).

(** A hyperlink attribute [href=QvQ] with value [v]. *)
Definition href (v : bytes) : bytes := str "href=" ++ [dq] ++ v ++ [dq].

(** The function passed to [ReplaceAllStringFunc]. *)
Definition rewriteRepoLink (match_ : bytes) : bytes :=
  if Strings.Contains match_ (str "README.md") then
    href (str "index.html")
  else
    let matches := Regexp.FindStringSubmatch reExercisePath match_ in
    if 1 <? length matches then
      (* fmt.Sprintf of href=Q%s.htmlQ with matches[1] *)
      str "href=" ++ [dq] ++ default [] (matches !! 1) ++ str ".html" ++ [dq]
    else match_.

Definition fixRelativeLinks (html : bytes) : bytes :=
  let html := Regexp.ReplaceAllStringFunc reRepoLink html rewriteRepoLink in
  Regexp.ReplaceAllString reSiblingLink html
    (str "href=" ++ [dq] ++ str "$1.html" ++ [dq]).

(** ** The data of the generator *)

(** The element type of [exerciseMetadata]. *)
Module Meta.
Record t : Type := Build {
  Filename : bytes;
  Title : bytes;
  Emoji : bytes;
  Description : bytes
}.
End Meta.

Module Exercise.
Record t : Type := Build {
  Number : Z;
  Title : bytes;
  Emoji : bytes;
  Description : bytes;
  Filename : bytes;
  Content : bytes;
  PrevLink : bytes;
  NextLink : bytes
}.
End Exercise.

Record IndexData : Type := { Exercises : list Exercise.t }.

(** The value of [exerciseMetadata] in main.go. *)
Definition workshopMetadata : list Meta.t := [
  Meta.Build
    (str "00-introduction-setup.md")
    (str "Introduction and Setup")
    (str "🌱")
    (str "Get started by cloning and setting up the Go source code environment.");
  Meta.Build
    (str "01-compile-go-unchanged.md")
    (str "Compiling Go Without Changes")
    (str "🔨")
    (str "Learn to build the Go toolchain from source without any modifications.");
  Meta.Build
    (str "02-scanner-arrow-operator.md")
    (str "Adding the " ++ [dq] ++ str "=>" ++ [dq] ++ str " Arrow Operator for Goroutines")
    (str "⚡")
    (str "Learn scanner/lexer modification by adding " ++ [dq] ++ str "=>" ++ [dq] ++ str " as an alternative syntax for starting goroutines.");
  Meta.Build
    (str "03-parser-multiple-go.md")
    (str "Multiple " ++ [dq] ++ str "go" ++ [dq] ++ str " Keywords - Parser Enhancement")
    (str "🔄")
    (str "Learn parser modification by enabling multiple consecutive " ++ [dq] ++ str "go" ++ [dq] ++ str " keywords (go go go myFunction).");
  Meta.Build
    (str "04-compiler-inlining-parameters.md")
    (str "Inline Parameters - Function Inlining Experiments")
    (str "⚙️")
    (str "Explore the inliner behavior by modifying function inlining parameters.");
  Meta.Build
    (str "05-gofmt-ast-transformation.md")
    (str "gofmt Transformation - " ++ [dq] ++ str "hello" ++ [dq] ++ str " to " ++ [dq] ++ str "helo" ++ [dq])
    (str "🎨")
    (str "Learn about Go's tools by modifying gofmt to modify " ++ [dq] ++ str "hello" ++ [dq] ++ str " to " ++ [dq] ++ str "helo" ++ [dq] ++ str " in code.");
  Meta.Build
    (str "06-ssa-power-of-two-detector.md")
    (str "SSA Pass - Detecting Division by Powers of Two")
    (str "🔍")
    (str "Create a custom SSA compiler pass that detects division operations by powers of two that could be optimized to bit shifts.");
  Meta.Build
    (str "07-runtime-patient-go.md")
    (str "Patient Go - Making Go Wait for Goroutines")
    (str "🕰️")
    (str "Modify the Go runtime to wait for all goroutines to complete before program termination.");
  Meta.Build
    (str "08-goroutine-sleep-detective.md")
    (str "Goroutine Sleep Detective - Runtime State Monitoring")
    (str "🕵️‍♂️")
    (str "Add logging to the Go scheduler to monitor goroutines going to sleep.");
  Meta.Build
    (str "09-predictable-select.md")
    (str "Predictable Select - Removing Randomness from Go's Select Statement")
    (str "🎯")
    (str "Modify Go's select statement implementation to be deterministic instead of random.");
  Meta.Build
    (str "10-java-style-stack-traces.md")
    (str "Java-Style Stack Traces - Making Go Panics Look Familiar")
    (str "☕")
    (str "Transform Go's verbose stack traces into Java-style formatting.")
].

(** ** The static text of the two page templates

    The text between the actions of [exerciseTemplate] and
    [indexTemplate], in the order of the templates.  The two stretches
    that contain the page's script are not listed: package
    [html/template] rewrites script text when it executes a template, so
    what is written for them is a parameter of the model (see
    [exercisePageScript] and [indexPageOpen] below). *)

(** From the start of the page to the number in its title. *)
Definition exerciseTitleOpen : bytes :=
  str "<!DOCTYPE html>
<html lang=" ++ [dq] ++ str "en" ++ [dq] ++ str ">
<head>
    <meta charset=" ++ [dq] ++ str "UTF-8" ++ [dq] ++ str ">
    <meta name=" ++ [dq] ++ str "viewport" ++ [dq] ++ str " content=" ++ [dq] ++ str "width=device-width, initial-scale=1.0" ++ [dq] ++ str ">
    <title>Exercise ".

(** Between number and title. *)
Definition exerciseTitleSep : bytes :=
  str ": ".

(** From the end of the body to the navigation strip. *)
Definition exerciseBodyClose : bytes :=
  str "
        </article>

        <nav class=" ++ [dq] ++ str "exercise-nav" ++ [dq] ++ str ">
            ".

(** The previous control, up to its target. *)
Definition navPrevOpen : bytes :=
  str "
            <a href=" ++ [dq].

(** Between the target and the label of the previous control. *)
Definition navPrevMid : bytes :=
  [dq] ++ str " class=" ++ [dq] ++ str "nav-button" ++ [dq] ++ str ">".

(** The label of the previous control on the first page. *)
Definition navHomeLabel : bytes :=
  str "← Home".

(** The label of the previous control on the other pages. *)
Definition navPrevLabel : bytes :=
  str "← Previous".

(** The end of the previous control. *)
Definition navPrevClose : bytes :=
  str "</a>
            ".

(** Between the two controls. *)
Definition navBetween : bytes :=
  str "
            ".

(** The next control, up to its target. *)
Definition navNextOpen : bytes :=
  str "
            <a href=" ++ [dq].

(** Between the target of the next control and the number in its label. *)
Definition navNextMid : bytes :=
  [dq] ++ str " class=" ++ [dq] ++ str "nav-button" ++ [dq] ++ str ">Next: Exercise ".

(** The end of the next control. *)
Definition navNextClose : bytes :=
  str " →</a>
            ".

(** From the navigation strip to the end of the page. *)
Definition exercisePageClose : bytes :=
  str "
        </nav>
    </div>

    <footer>
        <div class=" ++ [dq] ++ str "container" ++ [dq] ++ str ">
            <p>🚀 Having Fun with the Go Source Code Workshop</p>
        </div>
    </footer>
</body>
</html>
".

(** From the number of exercises to the grid of cards. *)
Definition indexCountClose : bytes :=
  str " exercises that will take you through the process from building Go from source, and making modifications at different places in the compiler, tooling and runtime. You'll gain some insights about the Go internals, from things like the lexer or parser, to runtime behaviors:</p>

            <div class=" ++ [dq] ++ str "exercises-grid" ++ [dq] ++ str ">
                ".

(** A card, up to the number of the exercise. *)
Definition cardOpen : bytes :=
  str "
                <div class=" ++ [dq] ++ str "exercise-card" ++ [dq] ++ str ">
                    <div class=" ++ [dq] ++ str "exercise-number" ++ [dq] ++ str ">Exercise ".

(** Between number and emoji. *)
Definition cardNumberClose : bytes :=
  str "</div>
                    <h3>".

(** Between emoji and the target of the link. *)
Definition cardLinkOpen : bytes :=
  str " <a href=" ++ [dq].

(** Between the target of the link and the title. *)
Definition cardLinkMid : bytes :=
  [dq] ++ str ">".

(** Between title and description. *)
Definition cardTitleClose : bytes :=
  str "</a></h3>
                    <p>".

(** The end of a card. *)
Definition cardClose : bytes :=
  str "</p>
                </div>
                ".

(** From the grid of cards to the end of the landing page. *)
Definition indexPageClose : bytes :=
  str "
            </div>
        </section>

        <section class=" ++ [dq] ++ str "getting-started" ++ [dq] ++ str ">
            <h2>🚀 Getting Started</h2>
            <ol>
                <li>🌱 Start with <a href=" ++ [dq] ++ str "00-introduction-setup.html" ++ [dq] ++ str ">Exercise 0</a> to set up your environment</li>
                <li>📚 Work through the exercises in order</li>
                <li>🔗 After exercise 1, you can pick and choose the exercise that you want.</li>
            </ol>
        </section>

        <section class=" ++ [dq] ++ str "tips" ++ [dq] ++ str ">
            <h2>💡 Tips for Success</h2>
            <ul>
                <li>⏰ Take your time with each exercise - compiler internals are complex!</li>
                <li>🔍 Don't hesitate to explore the Go source code beyond what's required</li>
                <li>🌿 Use <code>git</code> to track your changes and revert when needed</li>
                <li>🧪 Test your modifications thoroughly with various Go programs</li>
            </ul>
        </section>

        <section class=" ++ [dq] ++ str "resources" ++ [dq] ++ str ">
            <h2>📖 Resources</h2>
            <ul>
                <li>🏗️ <a href=" ++ [dq] ++ str "https://github.com/golang/go/tree/master/src/cmd/compile" ++ [dq] ++ str ">Go Compiler Overview</a></li>
                <li>📋 <a href=" ++ [dq] ++ str "https://go.dev/ref/spec" ++ [dq] ++ str ">Go Language Specification</a></li>
                <li>🔧 <a href=" ++ [dq] ++ str "https://pkg.go.dev/runtime" ++ [dq] ++ str ">Go Runtime Documentation</a></li>
                <li>📚 <a href=" ++ [dq] ++ str "https://go.dev/src/" ++ [dq] ++ str ">Go Internal Documentation</a></li>
            </ul>

            <h3>🎥 Video References</h3>
            <p>These workshop exercises are based on insights from my talks:</p>
            <ul>
                <li>🎬 <a href=" ++ [dq] ++ str "https://www.youtube.com/watch?v=qnmoAA0WRgE" ++ [dq] ++ str ">Understanding the Go Compiler</a> - Deep dive into Go's compilation process</li>
                <li>🎬 <a href=" ++ [dq] ++ str "https://www.youtube.com/watch?v=YpRNFNFaLGY" ++ [dq] ++ str ">Understanding the Go Runtime</a> - Exploration of Go's runtime system</li>
            </ul>
        </section>

        <section class=" ++ [dq] ++ str "completion" ++ [dq] ++ str ">
            <h2>🏆 Workshop Completion</h2>
            <p>Upon completing all exercises, you'll have:</p>
            <ul>
                <li>✅ <strong>Built Go from source</strong> and understood the bootstrap process</li>
                <li>✅ <strong>Modified language syntax</strong> by changing scanner and parser behavior</li>
                <li>✅ <strong>Customized development tools</strong> like gofmt and compiler optimizations</li>
                <li>✅ <strong>Implemented SSA optimizations</strong> in the compiler backend</li>
                <li>✅ <strong>Modified runtime behavior</strong> including program entry points and scheduler monitoring</li>
                <li>✅ <strong>Altered concurrency algorithms</strong> like select statement randomization</li>
                <li>✅ <strong>Customized error reporting</strong> with Java-style stack trace formatting</li>
            </ul>

            <p><strong>Congratulations!</strong> You'll have gained the confidence to keep exploring the Go source code. This knowledge enables you to:</p>
            <ul>
                <li>Start small contributions to the Go project</li>
                <li>Build custom language variants and tools</li>
                <li>Understand some trade-offs in language and runtime design</li>
            </ul>
        </section>

        <section class=" ++ [dq] ++ str "contributing" ++ [dq] ++ str ">
            <h2>🤝 Contributing</h2>
            <p>Found an issue, have an improvement idea or want to add more exercises? Please <a href=" ++ [dq] ++ str "https://github.com/jespino/having-fun-with-the-go-source-code-workshop/issues" ++ [dq] ++ str ">open an issue</a> or submit a pull request!</p>
        </section>

        <div class=" ++ [dq] ++ str "cta" ++ [dq] ++ str ">
            <a href=" ++ [dq] ++ str "00-introduction-setup.html" ++ [dq] ++ str " class=" ++ [dq] ++ str "cta-button" ++ [dq] ++ str ">Start with Exercise 0 →</a>
        </div>
    </div>

    <footer>
        <div class=" ++ [dq] ++ str "container" ++ [dq] ++ str ">
            <p>🚀 Having Fun with the Go Source Code Workshop</p>
            <p><strong>Happy coding and welcome to the world of Go internals!</strong> ✨</p>
        </div>
    </footer>
</body>
</html>
".

(** ** The operating system

    The generator reads and writes files and prints to its two output
    streams.  A [World] holds the files, a log of the operations performed
    with their outcomes, the two streams, and how the system is going to
    behave: [faults w t op] is the error with which operation [op] fails
    when it is the [t]-th operation of the run, and [torn w t] is the
    number of bytes a failed write leaves in its file. *)

Inductive Op : Type :=
| MkdirAll (path : bytes)
| ReadFile (path : bytes)
| ParseTemplate (name : bytes)
| Create (path : bytes)
| Write (path : bytes) (data : bytes).

Abbreviation Event := (Op * option bytes)%type.

Record World : Type := {
  fs : gmap bytes bytes;
  log : list Event;
  stdout : list bytes;
  stderr : list bytes;
  faults : nat -> Op -> option bytes;
  torn : nat -> nat
}.

(** What a call yields: a value, a Go [error], the end of the process
    by [os.Exit], or a run-time panic. *)
Inductive result (A : Type) : Type :=
| Ok (a : A)
| Err (e : bytes)
| Exit (code : Z)
| Panic.
Arguments Ok {A} a.
Arguments Err {A} e.
Arguments Exit {A} code.
Arguments Panic {A}.

Definition M (A : Type) : Type := World -> result A * World.

Definition ret {A} (a : A) : M A := fun w => (Ok a, w).

Definition bind {A B} (m : M A) (k : A -> M B) : M B :=
  fun w =>
    match m w with
    | (Ok a, w') => k a w'
    | (Err e, w') => (Err e, w')
    | (Exit c, w') => (Exit c, w')
    | (Panic, w') => (Panic, w')
    end.

Declare Scope go_scope.
Delimit Scope go_scope with go.
Notation "x <- m ;; k" := (bind m (fun x => k))
  (at level 20, m at level 99, k at level 200, only parsing) : go_scope.
Notation "m ;; k" := (bind m (fun _ => k))
  (at level 100, k at level 200, only parsing, right associativity) : go_scope.
Open Scope go_scope.

(** [fmt.Errorf] with the verb [%w]: the error with a prefix. *)
Definition wrap {A} (prefix : bytes) (m : M A) : M A :=
  fun w =>
    match m w with
    | (Err e, w') => (Err (prefix ++ e), w')
    | r => r
    end.

(** A line on standard output and a line on standard error. *)
Definition printed (text : bytes) (w : World) : World :=
  {| fs := fs w; log := log w; stdout := stdout w ++ [text];
     stderr := stderr w; faults := faults w; torn := torn w |}.

Definition reported (text : bytes) (w : World) : World :=
  {| fs := fs w; log := log w; stdout := stdout w;
     stderr := stderr w ++ [text]; faults := faults w; torn := torn w |}.

Definition Printf (text : bytes) : M unit :=
  fun w => (Ok tt, printed text w).

(** [if err != nil] in [main]: report on standard error and exit. *)
Definition orExit {A} (report : bytes -> bytes) (m : M A) : M A :=
  fun w =>
    match m w with
    | (Err e, w') => (Exit 1, reported (report e) w')
    | r => r
    end.

Definition nl : bytes := Eval cbv in [ascii_of_nat 10].

(** An operation and its outcome are appended to the log; [files] is
    what the operation leaves in the file system. *)
Definition logged (op : Op) (outcome : option bytes) (files : gmap bytes bytes)
    (w : World) : World :=
  {| fs := files; log := log w ++ [(op, outcome)]; stdout := stdout w;
     stderr := stderr w; faults := faults w; torn := torn w |}.

Definition fault (op : Op) (w : World) : option bytes :=
  faults w (length (log w)) op.

Definition osMkdirAll (path : bytes) : M unit :=
  fun w =>
    match fault (MkdirAll path) w with
    | Some e => (Err e, logged (MkdirAll path) (Some e) (fs w) w)
    | None => (Ok tt, logged (MkdirAll path) None (fs w) w)
    end.

Definition osReadFile (path : bytes) : M bytes :=
  fun w =>
    match fault (ReadFile path) w with
    | Some e => (Err e, logged (ReadFile path) (Some e) (fs w) w)
    | None =>
        match fs w !! path with
        | Some data => (Ok data, logged (ReadFile path) None (fs w) w)
        | None =>
            let e := str "open " ++ path ++ str ": no such file or directory" in
            (Err e, logged (ReadFile path) (Some e) (fs w) w)
        end
    end.

(** [template.New(name).Parse(text)]. *)
Definition templateParse (name : bytes) : M unit :=
  fun w =>
    match fault (ParseTemplate name) w with
    | Some e => (Err e, logged (ParseTemplate name) (Some e) (fs w) w)
    | None => (Ok tt, logged (ParseTemplate name) None (fs w) w)
    end.

(** [os.Create]: the file exists and is empty afterwards.  The deferred
    [f.Close] of the callers discards its error and changes no contents,
    so it is left out of the log. *)
Definition osCreate (path : bytes) : M unit :=
  fun w =>
    match fault (Create path) w with
    | Some e => (Err e, logged (Create path) (Some e) (fs w) w)
    | None => (Ok tt, logged (Create path) None (<[path := []]> (fs w)) w)
    end.

(** Writing [data] to the file created at [path]. *)
Definition fileWrite (path data : bytes) : M unit :=
  fun w =>
    match fault (Write path data) w with
    | Some e =>
        (Err e,
         logged (Write path data) (Some e)
           (<[path := take (torn w (length (log w))) data]> (fs w)) w)
    | None => (Ok tt, logged (Write path data) None (<[path := data]> (fs w)) w)
    end.

(** [os.WriteFile]: create or truncate the file, then write. *)
Definition osWriteFile (path data : bytes) : M unit :=
  osCreate path ;; fileWrite path data.

(** [l[i]] on a slice. *)
Definition at_ {A} (l : list A) (i : Z) : M A :=
  fun w =>
    if (i <? 0)%Z then (Panic, w)
    else match l !! Z.to_nat i with
         | Some a => (Ok a, w)
         | None => (Panic, w)
         end.

(** ** The generator *)

Section Generator.

(** [filepath.Join] on two elements. *)
Variable Join : bytes -> bytes -> bytes.

(** [blackfriday.Run] with the renderer and the extensions of
    [markdownToHTML]. *)
Variable blackfridayRun : bytes -> bytes.

(** The escapers that [html/template] puts on an action in element
    content, in the title element and in the value of a link. *)
Variable escHTML : bytes -> bytes.
Variable escRCDATA : bytes -> bytes.
Variable escURL : bytes -> bytes.

(** What executing the templates writes from the end of the title to
    the body of an exercise page, and from the start of the landing page
    to the number of exercises. *)
Variable exercisePageScript : bytes.
Variable indexPageOpen : bytes.

(** The constant [cssTemplate] (declared in another file of the
    package). *)
Variable cssTemplate : bytes.

(** The package variable. *)
Variable exerciseMetadata : list Meta.t.

Definition markdownToHTML (markdown : bytes) : bytes :=
  let html := blackfridayRun markdown in
  let htmlStr := html in
  fixRelativeLinks htmlStr.

(** Executing [exerciseTemplate] on an exercise. *)
Definition executeExercise (e : Exercise.t) : bytes :=
  exerciseTitleOpen ++ escRCDATA (Itoa (Exercise.Number e)) ++
  exerciseTitleSep ++ escRCDATA (Exercise.Title e) ++
  exercisePageScript ++ Exercise.Content e ++
  exerciseBodyClose ++
  (match Exercise.PrevLink e with
   | [] => []
   | _ :: _ =>
       navPrevOpen ++ escURL (Exercise.PrevLink e) ++ navPrevMid ++
       (if decide (Exercise.PrevLink e = str "index.html")
        then navHomeLabel else navPrevLabel) ++
       navPrevClose
   end) ++
  navBetween ++
  (match Exercise.NextLink e with
   | [] => []
   | _ :: _ =>
       navNextOpen ++ escURL (Exercise.NextLink e) ++ navNextMid ++
       escHTML (Itoa (Exercise.Number e + 1)) ++ navNextClose
   end) ++
  exercisePageClose.

(** One round of the [range] of [indexTemplate]. *)
Definition executeCard (e : Exercise.t) : bytes :=
  cardOpen ++ escHTML (Itoa (Exercise.Number e)) ++
  cardNumberClose ++ escHTML (Exercise.Emoji e) ++
  cardLinkOpen ++ escURL (Exercise.Filename e) ++
  cardLinkMid ++ escHTML (Exercise.Title e) ++
  cardTitleClose ++ escHTML (Exercise.Description e) ++
  cardClose.

(** Executing [indexTemplate]. *)
Definition executeIndex (data : IndexData) : bytes :=
  indexPageOpen ++ escHTML (Itoa (Z.of_nat (length (Exercises data)))) ++
  indexCountClose ++
  concat (executeCard <$> Exercises data) ++
  indexPageClose.

Definition generateExercisePage (exercisesDir outputDir : bytes)
    (meta : Meta.t) (index : Z) : M Exercise.t :=
  (* Read markdown file *)
  let mdPath := Join exercisesDir (Meta.Filename meta) in
  content <- wrap (str "reading markdown file: ") (osReadFile mdPath) ;;
  (* Convert markdown to HTML *)
  let htmlContent := markdownToHTML content in
  (* Generate HTML filename *)
  let htmlFilename :=
    Strings.TrimSuffix (Meta.Filename meta) (str ".md") ++ str ".html" in
  (* Determine prev/next links *)
  prevLink <-
    (if (0 <? index)%Z then
       m <- at_ exerciseMetadata (index - 1) ;;
       ret (Strings.TrimSuffix (Meta.Filename m) (str ".md") ++ str ".html")
     else ret (str "index.html")) ;;
  nextLink <-
    (if (index <? Z.of_nat (length exerciseMetadata) - 1)%Z then
       m <- at_ exerciseMetadata (index + 1) ;;
       ret (Strings.TrimSuffix (Meta.Filename m) (str ".md") ++ str ".html")
     else ret []) ;;
  let exercise :=
    {| Exercise.Number := index;
       Exercise.Title := Meta.Title meta;
       Exercise.Emoji := Meta.Emoji meta;
       Exercise.Description := Meta.Description meta;
       Exercise.Filename := htmlFilename;
       Exercise.Content := htmlContent;
       Exercise.PrevLink := prevLink;
       Exercise.NextLink := nextLink |} in
  (* Generate HTML page *)
  wrap (str "parsing template: ") (templateParse (str "exercise")) ;;
  let outputPath := Join outputDir htmlFilename in
  wrap (str "creating output file: ") (osCreate outputPath) ;;
  wrap (str "executing template: ")
    (fileWrite outputPath (executeExercise exercise)) ;;
  Printf (str "✓ Generated " ++ htmlFilename ++ nl) ;;
  ret exercise.

Definition generateIndexPage (outputDir : bytes) (exercises : list Exercise.t) : M unit :=
  wrap (str "parsing template: ") (templateParse (str "index")) ;;
  let outputPath := Join outputDir (str "index.html") in
  wrap (str "creating output file: ") (osCreate outputPath) ;;
  let data := {| Exercises := exercises |} in
  wrap (str "executing template: ") (fileWrite outputPath (executeIndex data)) ;;
  Printf (str "✓ Generated index.html" ++ nl).

Definition copyCSSFile (outputDir : bytes) : M unit :=
  let cssContent := cssTemplate in
  let outputPath := Join outputDir (str "style.css") in
  wrap (str "writing CSS file: ") (osWriteFile outputPath cssContent) ;;
  Printf (str "✓ Generated style.css" ++ nl).

(** The loop of [main] over [exerciseMetadata], from position [i] on. *)
Fixpoint exercisePages (exercisesDir outputDir : bytes) (metas : list Meta.t)
    (i : Z) (exercises : list Exercise.t) : M (list Exercise.t) :=
  match metas with
  | [] => ret exercises
  | meta :: metas' =>
      exercise <-
        orExit (fun err => str "Error generating exercise " ++
                           Meta.Filename meta ++ str ": " ++ err ++ nl)
          (generateExercisePage exercisesDir outputDir meta i) ;;
      exercisePages exercisesDir outputDir metas' (i + 1) (exercises ++ [exercise])
  end.

(** The three lines printed at the end of a run. *)
Definition summary (outputDir : bytes) (n : nat) : list bytes :=
  [ str "✅ Website generated successfully!" ++ nl;
    str "📁 Output directory: " ++ outputDir ++ nl;
    str "📄 Generated " ++ Itoa (Z.of_nat n) ++ str " exercise pages + index page" ++ nl ].

(** [main], after the two flags have been parsed. *)
Definition main (exercisesDir outputDir : bytes) : M unit :=
  (* Create output directory if it doesn't exist *)
  orExit (fun err => str "Error creating output directory: " ++ err ++ nl)
    (osMkdirAll outputDir) ;;
  (* Generate exercise pages *)
  exercises <- exercisePages exercisesDir outputDir exerciseMetadata 0 [] ;;
  (* Generate index page *)
  orExit (fun err => str "Error generating index page: " ++ err ++ nl)
    (generateIndexPage outputDir exercises) ;;
  (* Copy CSS file *)
  orExit (fun err => str "Error copying CSS file: " ++ err ++ nl)
    (copyCSSFile outputDir) ;;
  Printf (str "✅ Website generated successfully!" ++ nl) ;;
  Printf (str "📁 Output directory: " ++ outputDir ++ nl) ;;
  Printf (str "📄 Generated " ++ Itoa (Z.of_nat (length exercises)) ++
          str " exercise pages + index page" ++ nl).

End Generator.

(** * Specification vocabulary

    The notions in which the properties below are stated: texts without
    a double quote and hyperlink attributes, the rules the two passes of
    the link rewriter follow, what a run of the generator logs and
    writes, and a small descriptor list on which the generator is run. *)

(** Text without a double quote, and the first quote of a text. *)
Definition QuoteFree (v : bytes) : Prop := dq ∉ v.

Definition opener : bytes := str "href=" ++ [dq].

(** A value that does not end in [href=]. *)
Definition NoOpenerTail (v : bytes) : Prop :=
  ~ exists u, v = u ++ str "href=".

Class LinkRule (step : Regexp.rule) (ok : bytes -> Prop) (g : bytes -> bytes) : Prop := {
  rule_inv s out rest :
    step s = Some (out, rest) ->
    exists v, s = href v ++ rest /\ QuoteFree v /\ ok v /\ out = href (g v);
  rule_hit v rest :
    QuoteFree v -> ok v -> step (href v ++ rest) = Some (href (g v), rest);
  rule_source v : ok v -> exists stem, v = stem ++ str ".md";
  rule_target v :
    QuoteFree v -> ok v ->
    QuoteFree (g v) /\ exists stem, g v = stem ++ str ".html"
}.

(** The rule applies nowhere in a text. *)
Definition NoMatch (step : Regexp.rule) (s : bytes) : Prop :=
  forall t, t `suffix_of` s -> step t = None.

(** Brings both sides of an equation between texts to one list of
    characters and variables. *)
Ltac norm_bytes :=
  unfold href, opener; rewrite <- ?app_assoc; cbn; rewrite <- ?app_assoc; cbn.

Definition repoRule : Regexp.rule :=
  Regexp.ruleOf reRepoLink (fun c => rewriteRepoLink (Regexp.submatch c 0)).

Definition siblingTemplate : bytes := str "href=" ++ [dq] ++ str "$1.html" ++ [dq].

Definition siblingRule : Regexp.rule :=
  Regexp.ruleOf reSiblingLink (Regexp.Expand siblingTemplate).

(** The values the first pattern accepts: the overview document, or a
    document under [../exercises/]. *)
Definition okRepo (v : bytes) : Prop :=
  v = str "../README.md" \/
  exists X, X <> [] /\ v = str "../exercises/" ++ X ++ str ".md".

(** The values the second pattern accepts: two digits, a dash, at least
    one more character, and the extension. *)
Definition okSibling (v : bytes) : Prop :=
  exists d1 d2 Z,
    Regexp.isDigit d1 = true /\ Regexp.isDigit d2 = true /\ Z <> [] /\
    v = d1 :: d2 :: "-"%char :: Z ++ str ".md".

Definition gRepo (v : bytes) : bytes :=
  if Strings.Contains (href v) (str "README.md") then str "index.html"
  else take (length v - 16) (drop 13 v) ++ str ".html".

Definition gSibling (v : bytes) : bytes :=
  take (length v - 3) v ++ str ".html".

(** The output filename of a descriptor: its source filename with the
    extension swapped. *)
Definition outputName (filename : bytes) : bytes :=
  Strings.TrimSuffix filename (str ".md") ++ str ".html".

Definition okEvents (ops : list Op) : list Event := (fun op => (op, None)) <$> ops.

(** The files written by a sequence of events: path and contents of each
    successful write, in order. *)
Definition writes (evs : list Event) : list (bytes * bytes) :=
  omap (fun ev => match ev with
                  | (Write p d, None) => Some (p, d)
                  | _ => None
                  end) evs.

Definition succeeded (ev : Event) : Prop := ev.2 = None.

(** Two file systems hold the same contents at the paths of [S]. *)
Definition Agree (S : bytes -> Prop) (f1 f2 : gmap bytes bytes) : Prop :=
  forall q, S q -> f1 !! q = f2 !! q.

(** Joining a directory and a file name that need no cleaning. *)
Definition slashJoin (dir name : bytes) : bytes := dir ++ str "/" ++ name.

Definition doc0 : Meta.t :=
  Meta.Build (str "00-intro.md") (str "Intro") (str "A") (str "The first.").
Definition doc1 : Meta.t :=
  Meta.Build (str "01-build.md") (str "Build") (str "B") (str "The second.").
Definition doc2 : Meta.t :=
  Meta.Build (str "02-scan.md") (str "Scan") (str "C") (str "The third.").

Definition threeDocs : list Meta.t := [doc0; doc1; doc2].

Definition threeSources : gmap bytes bytes :=
  list_to_map [
    (str "exercises/00-intro.md",
     str "<p><a " ++ href (str "01-build.md") ++ str ">next</a></p>");
    (str "exercises/01-build.md",
     str "<p><a " ++ href (str "../README.md") ++ str ">home</a></p>");
    (str "exercises/02-scan.md",
     str "<p><a " ++ href (str "https://go.dev") ++ str ">go</a></p>")
  ].

(** A system on which nothing fails. *)
Definition quietWorld (files : gmap bytes bytes) : World :=
  {| fs := files; log := []; stdout := []; stderr := [];
     faults := fun _ _ => None; torn := fun _ => 0 |}.

(** A system on which nothing fails but the creation of the stylesheet. *)
Definition noStylesheet (files : gmap bytes bytes) : World :=
  {| fs := files; log := []; stdout := []; stderr := [];
     faults := fun _ op =>
       match op with
       | Create path =>
           if decide (path = str "website/style.css")
           then Some (str "permission denied") else None
       | _ => None
       end;
     torn := fun _ => 0 |}.

Definition exampleMain (w : World) : result unit * World :=
  main slashJoin id id id id (str "<script></script>") (str "<html>")
    (str "body { margin: 0 }") threeDocs (str "exercises") (str "website") w.

Definition examplePage (i : Z) (meta : Meta.t) (w : World) : result Exercise.t * World :=
  generateExercisePage slashJoin id id id id (str "<script></script>") threeDocs
    (str "exercises") (str "website") meta i w.

(** The generator with the descriptor list of main.go, on sources that
    hold one line each. *)
Definition workshopSources : gmap bytes bytes :=
  list_to_map
    ((fun m => (slashJoin (str "exercises") (Meta.Filename m),
                str "<h1>" ++ Meta.Title m ++ str "</h1>")) <$> workshopMetadata).

Definition workshopMain (w : World) : result unit * World :=
  main slashJoin id id id id (str "<script></script>") (str "<html>")
    (str "body { margin: 0 }") workshopMetadata (str "exercises") (str "website") w.

(** The rule that applies the first of two rules that applies. *)
Definition firstOf (stepA stepB : Regexp.rule) : Regexp.rule :=
  fun s =>
    match stepA s with
    | Some r => Some r
    | None => stepB s
    end.

(** The number of double quotes in a text. *)
Definition quotes (s : bytes) : nat := length (filter (fun a => a = dq) s).

(** The files after a sequence of writes, a later write replacing an
    earlier one to the same path. *)
Definition overwrite (files : gmap bytes bytes) (ws : list (bytes * bytes)) :
    gmap bytes bytes :=
  foldl (fun f pd => <[pd.1 := pd.2]> f) files ws.

(** The file an operation creates or writes. *)
Definition target (op : Op) : option bytes :=
  match op with
  | Create p | Write p _ => Some p
  | MkdirAll _ | ReadFile _ | ParseTemplate _ => None
  end.

Definition targets (evs : list Event) : list bytes := omap (fun ev => target ev.1) evs.

(** The files read, in order. *)
Definition reads (evs : list Event) : list bytes :=
  omap (fun ev => match ev with
                  | (ReadFile p, None) => Some p
                  | _ => None
                  end) evs.

(** What the logged operations that succeeded do to the files. *)
Definition applyEvent (f : gmap bytes bytes) (ev : Event) : gmap bytes bytes :=
  match ev with
  | (Create p, None) => <[p := []]> f
  | (Write p d, None) => <[p := d]> f
  | _ => f
  end.

Definition replay (evs : list Event) (f : gmap bytes bytes) : gmap bytes bytes :=
  foldl applyEvent f evs.

(** The files a failed write may have left torn. *)
Definition failedWrites (evs : list Event) : list bytes :=
  omap (fun ev => match ev with
                  | (Write p _, Some _) => Some p
                  | _ => None
                  end) evs.

(** A stage of the run whose operations, up to any one of them, have
    written nothing and have changed no file but the one that operation
    is about: the stage creates its file and then writes it. *)
Definition Stage (ops : list Op) : Prop :=
  forall j op, ops !! j = Some op ->
    writes (okEvents (take j ops)) = [] /\
    forall (f : gmap bytes bytes) p, target op <> Some p ->
      replay (okEvents (take j ops)) f !! p = f !! p.

(** A computation that only appends to the log, creates and writes only
    files of [S], removes no file, and leaves the files as the logged
    operations say, except where a write failed. *)
Definition Confined {A} (S : bytes -> Prop) (m : M A) : Prop :=
  forall w, exists evs : list Event,
    log (m w).2 = log w ++ evs /\
    Forall S (targets evs) /\
    (forall q, is_Some (fs w !! q) -> is_Some (fs (m w).2 !! q)) /\
    (forall p, p ∉ failedWrites evs -> fs (m w).2 !! p = replay evs (fs w) !! p).

(** The parameters of the generator, for the properties of its runs. *)
Section Properties.

Variable Join : bytes -> bytes -> bytes.
Variable blackfridayRun : bytes -> bytes.
Variables escHTML escRCDATA escURL : bytes -> bytes.
Variables exercisePageScript indexPageOpen cssTemplate : bytes.
Variable exerciseMetadata : list Meta.t.

Local Abbreviation execExercise :=
  (executeExercise escHTML escRCDATA escURL exercisePageScript).
Local Abbreviation execIndex := (executeIndex escHTML escURL indexPageOpen).
Local Abbreviation genPage :=
  (generateExercisePage Join blackfridayRun escHTML escRCDATA escURL
     exercisePageScript exerciseMetadata).
Local Abbreviation genIndex := (generateIndexPage Join escHTML escURL indexPageOpen).
Local Abbreviation copyCSS := (copyCSSFile Join cssTemplate).
Local Abbreviation pagesLoop :=
  (exercisePages Join blackfridayRun escHTML escRCDATA escURL
     exercisePageScript exerciseMetadata).
Local Abbreviation run :=
  (main Join blackfridayRun escHTML escRCDATA escURL exercisePageScript
     indexPageOpen cssTemplate exerciseMetadata).

(** The links of the page at position [i]. *)
Definition prevLinkOf (i : nat) : bytes :=
  match i with
  | O => str "index.html"
  | S j => from_option (fun m => outputName (Meta.Filename m)) [] (exerciseMetadata !! j)
  end.

Definition nextLinkOf (i : nat) : bytes :=
  from_option (fun m => outputName (Meta.Filename m)) [] (exerciseMetadata !! S i).

(** The exercise made from the descriptor at position [i] and the text
    of its source. *)
Definition pageOf (i : nat) (meta : Meta.t) (content : bytes) : Exercise.t :=
  {| Exercise.Number := Z.of_nat i;
     Exercise.Title := Meta.Title meta;
     Exercise.Emoji := Meta.Emoji meta;
     Exercise.Description := Meta.Description meta;
     Exercise.Filename := outputName (Meta.Filename meta);
     Exercise.Content := markdownToHTML blackfridayRun content;
     Exercise.PrevLink := prevLinkOf i;
     Exercise.NextLink := nextLinkOf i |}.

(** The operations that make a page, in order. *)
Definition pageOps (exercisesDir outputDir : bytes) (meta : Meta.t)
    (e : Exercise.t) : list Op :=
  [ ReadFile (Join exercisesDir (Meta.Filename meta));
    ParseTemplate (str "exercise");
    Create (Join outputDir (Exercise.Filename e));
    Write (Join outputDir (Exercise.Filename e)) (execExercise e) ].

Definition generatedLine (name : bytes) : bytes :=
  str "✓ Generated " ++ name ++ nl.

(** The world after a page has been made. *)
Definition afterPage (exercisesDir outputDir : bytes) (meta : Meta.t)
    (e : Exercise.t) (w : World) : World :=
  let p := Join outputDir (Exercise.Filename e) in
  {| fs := <[p := execExercise e]> (<[p := []]> (fs w));
     log := log w ++ okEvents (pageOps exercisesDir outputDir meta e);
     stdout := stdout w ++ [generatedLine (Exercise.Filename e)];
     stderr := stderr w; faults := faults w; torn := torn w |}.

(** The prefix that [generateExercisePage] puts on the error of a
    failed operation. *)
Definition pageWrap (op : Op) : bytes :=
  match op with
  | ReadFile _ => str "reading markdown file: "
  | ParseTemplate _ => str "parsing template: "
  | Create _ => str "creating output file: "
  | Write _ _ => str "executing template: "
  | MkdirAll _ => []
  end.

(** How a run of operations stops at a failure: the operations before
    the failing one have succeeded, nothing follows it, the streams are
    as they were, and the failure is the system's or that of a source
    that does not exist. *)
Definition FailsAt (ops : list Op) (k : nat) (e : bytes) (w w' : World) : Prop :=
  exists op,
    ops !! k = Some op /\
    log w' = log w ++ okEvents (take k ops) ++ [(op, Some e)] /\
    stdout w' = stdout w /\ stderr w' = stderr w /\
    faults w' = faults w /\ torn w' = torn w /\
    (faults w (length (log w) + k) op = Some e \/
     exists path, op = ReadFile path /\ fs w !! path = None).

(** Closes the case of a failing operation in the lemmas below. *)
Ltac fails_at k e He :=
  right; exists k, e; eexists; split; [reflexivity|];
  eexists; split; [reflexivity|];
  unfold fault in He; cbn [fs log stdout stderr faults torn logged] in He |- *;
  rewrite ?length_app in He; cbn [length] in He;
  rewrite <- ?Nat.add_assoc in He; cbn [Nat.add] in He;
  rewrite <- ?app_assoc, ?Nat.add_0_r; split_and!; try done; eauto.

(** A run of the loop in which every page is made: the pages and the
    world it ends in. *)
Inductive PagesRun (exercisesDir outputDir : bytes) :
    nat -> list Meta.t -> World -> list Exercise.t -> World -> Prop :=
| PagesRun_nil i w : PagesRun exercisesDir outputDir i [] w [] w
| PagesRun_cons i meta metas content es w w' :
    fs w !! Join exercisesDir (Meta.Filename meta) = Some content ->
    PagesRun exercisesDir outputDir (S i) metas
      (afterPage exercisesDir outputDir meta (pageOf i meta content) w) es w' ->
    PagesRun exercisesDir outputDir i (meta :: metas) w
      (pageOf i meta content :: es) w'.

(** A run of the loop that stops at a descriptor: the pages before it
    are made, an operation for this one fails, and [main] reports the
    descriptor's filename with the wrapped error. *)
Definition PagesFail (exercisesDir outputDir : bytes) (i : nat)
    (metas : list Meta.t) (w w' : World) : Prop :=
  exists k meta es w1 j e w2,
    metas !! k = Some meta /\
    PagesRun exercisesDir outputDir i (take k metas) w es w1 /\
    let ops := pageOps exercisesDir outputDir meta
                 (pageOf (i + k) meta
                    (default [] (fs w1 !! Join exercisesDir (Meta.Filename meta)))) in
    FailsAt ops j e w1 w2 /\
    w' = reported (str "Error generating exercise " ++ Meta.Filename meta ++
                   str ": " ++ (from_option pageWrap [] (ops !! j) ++ e) ++ nl) w2.

Definition indexOps (outputDir : bytes) (es : list Exercise.t) : list Op :=
  [ ParseTemplate (str "index");
    Create (Join outputDir (str "index.html"));
    Write (Join outputDir (str "index.html")) (execIndex {| Exercises := es |}) ].

Definition afterIndex (outputDir : bytes) (es : list Exercise.t) (w : World) : World :=
  let p := Join outputDir (str "index.html") in
  {| fs := <[p := execIndex {| Exercises := es |}]> (<[p := []]> (fs w));
     log := log w ++ okEvents (indexOps outputDir es);
     stdout := stdout w ++ [generatedLine (str "index.html")];
     stderr := stderr w; faults := faults w; torn := torn w |}.

Definition cssOps (outputDir : bytes) : list Op :=
  [ Create (Join outputDir (str "style.css"));
    Write (Join outputDir (str "style.css")) cssTemplate ].

Definition afterCSS (outputDir : bytes) (w : World) : World :=
  let p := Join outputDir (str "style.css") in
  {| fs := <[p := cssTemplate]> (<[p := []]> (fs w));
     log := log w ++ okEvents (cssOps outputDir);
     stdout := stdout w ++ [generatedLine (str "style.css")];
     stderr := stderr w; faults := faults w; torn := torn w |}.

Definition afterSummary (outputDir : bytes) (n : nat) (w : World) : World :=
  {| fs := fs w; log := log w; stdout := stdout w ++ summary outputDir n;
     stderr := stderr w; faults := faults w; torn := torn w |}.

(** The world once the output directory exists. *)
Definition afterMkdir (outputDir : bytes) (w : World) : World :=
  logged (MkdirAll outputDir) None (fs w) w.

(** The five ways a run of [main] can go. *)
Inductive MainRun (exercisesDir outputDir : bytes) (w : World) :
    result unit -> World -> Prop :=
| Run_success es w1 :
    PagesRun exercisesDir outputDir 0 exerciseMetadata (afterMkdir outputDir w) es w1 ->
    MainRun exercisesDir outputDir w (Ok tt)
      (afterSummary outputDir (length es)
         (afterCSS outputDir (afterIndex outputDir es w1)))
| Run_directory_fails e :
    fault (MkdirAll outputDir) w = Some e ->
    MainRun exercisesDir outputDir w (Exit 1)
      (reported (str "Error creating output directory: " ++ e ++ nl)
         (logged (MkdirAll outputDir) (Some e) (fs w) w))
| Run_page_fails w' :
    PagesFail exercisesDir outputDir 0 exerciseMetadata (afterMkdir outputDir w) w' ->
    MainRun exercisesDir outputDir w (Exit 1) w'
| Run_index_fails es w1 k e w2 :
    PagesRun exercisesDir outputDir 0 exerciseMetadata (afterMkdir outputDir w) es w1 ->
    FailsAt (indexOps outputDir es) k e w1 w2 ->
    MainRun exercisesDir outputDir w (Exit 1)
      (reported (str "Error generating index page: " ++
                 (from_option pageWrap [] (indexOps outputDir es !! k) ++ e) ++ nl) w2)
| Run_stylesheet_fails es w1 k e w2 :
    PagesRun exercisesDir outputDir 0 exerciseMetadata (afterMkdir outputDir w) es w1 ->
    FailsAt (cssOps outputDir) k e (afterIndex outputDir es w1) w2 ->
    MainRun exercisesDir outputDir w (Exit 1)
      (reported (str "Error copying CSS file: " ++
                 (str "writing CSS file: " ++ e) ++ nl) w2).

(** The operations of the pages of a run, in order. *)
Definition pagesOps (exercisesDir outputDir : bytes) (metas : list Meta.t)
    (es : list Exercise.t) : list Op :=
  concat (zip_with (pageOps exercisesDir outputDir) metas es).

Definition pagePath (outputDir : bytes) (meta : Meta.t) : bytes :=
  Join outputDir (outputName (Meta.Filename meta)).

Definition NoFaults (w : World) : Prop := forall t op, faults w t op = None.

Definition indexPath (outputDir : bytes) : bytes := Join outputDir (str "index.html").
Definition cssPath (outputDir : bytes) : bytes := Join outputDir (str "style.css").

(** The first line of the summary. *)
Definition successLine : bytes := str "✅ Website generated successfully!" ++ nl.

(** The operations of a run in which nothing fails. *)
Definition allOps (exercisesDir outputDir : bytes) (es : list Exercise.t) : list Op :=
  MkdirAll outputDir ::
  pagesOps exercisesDir outputDir exerciseMetadata es ++
  indexOps outputDir es ++ cssOps outputDir.

(** The message on standard error blames the stage that failed: the
    output directory, the descriptor whose page was being made (by its
    source filename), the landing page or the stylesheet; it ends with the
    error of the failed operation. *)
Inductive Blames (exercisesDir outputDir : bytes) : bytes -> Op -> bytes -> Prop :=
| Blames_directory e :
    Blames exercisesDir outputDir
      (str "Error creating output directory: " ++ e ++ nl) (MkdirAll outputDir) e
| Blames_exercise meta e0 op e :
    meta ∈ exerciseMetadata ->
    Exercise.Filename e0 = outputName (Meta.Filename meta) ->
    op ∈ pageOps exercisesDir outputDir meta e0 ->
    Blames exercisesDir outputDir
      (str "Error generating exercise " ++ Meta.Filename meta ++ str ": " ++
       (pageWrap op ++ e) ++ nl) op e
| Blames_index es op e :
    op ∈ indexOps outputDir es ->
    Blames exercisesDir outputDir
      (str "Error generating index page: " ++ (pageWrap op ++ e) ++ nl) op e
| Blames_stylesheet op e :
    op ∈ cssOps outputDir ->
    Blames exercisesDir outputDir
      (str "Error copying CSS file: " ++ (str "writing CSS file: " ++ e) ++ nl) op e.

Definition isGeneratedLine (line : bytes) : Prop :=
  exists name, line = generatedLine name.

(** The two parts of a run seen from outside: what was added to the log
    and what was printed. *)
Definition newEvents (w w' : World) : list Event := drop (length (log w)) (log w').
Definition newLines (w w' : World) : list bytes := drop (length (stdout w)) (stdout w').

(** The source file of a descriptor, the names of the files a full run
    writes and their paths, in the order of writing. *)
Definition sourcePath (exercisesDir : bytes) (meta : Meta.t) : bytes :=
  Join exercisesDir (Meta.Filename meta).

Definition outputNames : list bytes :=
  (outputName ∘ Meta.Filename <$> exerciseMetadata) ++
  [str "index.html"; str "style.css"].

Definition outputPaths (outputDir : bytes) : list bytes :=
  (pagePath outputDir <$> exerciseMetadata) ++
  [indexPath outputDir; cssPath outputDir].

(** The parts of an exercise page: the text up to the navigation
    strip, and the two controls of the strip. *)
Definition pageHead (e : Exercise.t) : bytes :=
  exerciseTitleOpen ++ escRCDATA (Itoa (Exercise.Number e)) ++
  exerciseTitleSep ++ escRCDATA (Exercise.Title e) ++
  exercisePageScript ++ Exercise.Content e ++ exerciseBodyClose.

Definition prevControl (link label : bytes) : bytes :=
  navPrevOpen ++ escURL link ++ navPrevMid ++ label ++ navPrevClose.

Definition nextControl (link : bytes) (number : Z) : bytes :=
  navNextOpen ++ escURL link ++ navNextMid ++ escHTML (Itoa number) ++ navNextClose.

(** The card of the landing page for the descriptor at position [i]:
    its number, emoji, link, title and description between the fixed text
    of a card. *)
Definition indexCard (i : nat) (meta : Meta.t) : bytes :=
  cardOpen ++ escHTML (Itoa (Z.of_nat i)) ++
  cardNumberClose ++ escHTML (Meta.Emoji meta) ++
  cardLinkOpen ++ escURL (outputName (Meta.Filename meta)) ++
  cardLinkMid ++ escHTML (Meta.Title meta) ++
  cardTitleClose ++ escHTML (Meta.Description meta) ++
  cardClose.

(** * Properties *)

(** ** Strings *)

Lemma CutPrefix_Some (s l s' : bytes) :
  Strings.CutPrefix s l = Some s' <-> s = l ++ s'.
Proof.
  revert s; induction l as [|p l IH]; intros s; simpl.
  - split; congruence.
  - destruct s as [|a s]; [split; discriminate|].
    destruct (Ascii.eqb_spec a p) as [->|Hne].
    + rewrite IH. split; [by intros -> | by intros [= ->]].
    + split; [discriminate | intros [= ? ?]; contradiction].
Qed.

Lemma CutPrefix_app (l s : bytes) : Strings.CutPrefix (l ++ s) l = Some s.
Proof. by apply CutPrefix_Some. Qed.

Lemma HasPrefix_true (s l : bytes) :
  Strings.HasPrefix s l = true <-> exists s', s = l ++ s'.
Proof.
  unfold Strings.HasPrefix.
  destruct (Strings.CutPrefix s l) as [s'|] eqn:E.
  - apply CutPrefix_Some in E. split; eauto.
  - split; [discriminate|]. intros [s' ->]. by rewrite CutPrefix_app in E.
Qed.

Lemma HasSuffix_true (s l : bytes) :
  Strings.HasSuffix s l = true <-> exists s', s = s' ++ l.
Proof.
  unfold Strings.HasSuffix. rewrite HasPrefix_true. split.
  - intros [t Ht]. exists (rev t).
    rewrite <- (rev_involutive s), Ht, rev_app_distr, rev_involutive. done.
  - intros [t ->]. exists (rev t). by rewrite rev_app_distr.
Qed.

Lemma TrimSuffix_app (s l : bytes) : Strings.TrimSuffix (s ++ l) l = s.
Proof.
  unfold Strings.TrimSuffix.
  replace (Strings.HasSuffix (s ++ l) l) with true
    by (symmetry; apply HasSuffix_true; eauto).
  rewrite length_app, Nat.add_sub. by rewrite take_app_length.
Qed.

Lemma Contains_true (s sub : bytes) :
  Strings.Contains s sub = true <-> exists a b, s = a ++ sub ++ b.
Proof.
  induction s as [|c s IH]; simpl.
  - rewrite orb_false_r, HasPrefix_true. split.
    + intros [b Hb]. by exists [], b.
    + intros (a & b & H). destruct a; [by exists b|discriminate].
  - rewrite orb_true_iff, HasPrefix_true, IH. split.
    + intros [[b Hb]|(a & b & ->)]; [by exists [], b | by exists (c :: a), b].
    + intros (a & b & H). destruct a as [|c' a]; [left; by exists b|].
      injection H as -> ->. right; eauto.
Qed.

Lemma QuoteFree_Forall (v : bytes) :
  QuoteFree v <-> Forall (fun a => notQuote a = true) v.
Proof.
  unfold QuoteFree. rewrite Forall_forall. split.
  - intros H a Ha. unfold notQuote.
    destruct (Ascii.eqb_spec a dq) as [->|]; [contradiction | done].
  - intros H Hin. specialize (H _ Hin). by vm_compute in H.
Qed.

Lemma QuoteFree_app (u v : bytes) :
  QuoteFree (u ++ v) <-> QuoteFree u /\ QuoteFree v.
Proof. unfold QuoteFree. rewrite not_elem_of_app. done. Qed.

Lemma QuoteFree_str_checked (l : bytes) :
  forallb notQuote l = true -> QuoteFree l.
Proof.
  intros H. apply QuoteFree_Forall.
  rewrite forallb_forall in H. apply Forall_forall. intros a Ha.
  apply H. by apply list_elem_of_In.
Qed.

Lemma first_quote_unique (u1 u2 x1 x2 : bytes) :
  QuoteFree u1 -> QuoteFree u2 ->
  u1 ++ dq :: x1 = u2 ++ dq :: x2 -> u1 = u2 /\ x1 = x2.
Proof.
  unfold QuoteFree.
  revert u2; induction u1 as [|a u1 IH]; intros [|b u2] H1 H2 E; simpl in E.
  - by injection E.
  - injection E as <- _. exfalso. apply H2. left.
  - injection E as -> _. exfalso. apply H1. left.
  - injection E as -> E. apply not_elem_of_cons in H1 as [_ H1].
    apply not_elem_of_cons in H2 as [_ H2].
    destruct (IH _ H1 H2 E) as [-> ->]. done.
Qed.

Lemma take_match_length (m rest : bytes) :
  take (length (m ++ rest) - length rest) (m ++ rest) = m.
Proof. rewrite length_app, Nat.add_sub. by rewrite take_app_length. Qed.

(** ** The backtracking matcher *)

Section StarFacts.
Context {R : Type} (p : ascii -> bool) (k : bytes -> option R).

Lemma star_sound (s : bytes) (r : R) :
  Regexp.star p s k = Some r ->
  exists u x, s = u ++ x /\ Forall (fun a => p a = true) u /\ k x = Some r.
Proof.
  induction s as [|a s IH]; simpl.
  - intros H. by exists [], [].
  - destruct (p a) eqn:Hp.
    + destruct (Regexp.star p s k) as [r'|] eqn:E.
      * intros [= ->]. destruct (IH eq_refl) as (u & x & -> & Hu & Hk).
        exists (a :: u), x. split_and!; [done | by constructor | done].
      * intros H. by exists [], (a :: s).
    + intros H. by exists [], (a :: s).
Qed.

(** A run of the class before a text on which the search succeeds is
    consumed by the greedy search. *)
Lemma star_run (u x : bytes) (r : R) :
  Forall (fun a => p a = true) u ->
  Regexp.star p x k = Some r -> Regexp.star p (u ++ x) k = Some r.
Proof.
  induction 1 as [|a u Ha _ IH]; simpl; [done|].
  intros H. by rewrite Ha, (IH H).
Qed.

Lemma plus_sound (s : bytes) (r : R) :
  Regexp.plus p s k = Some r ->
  exists u x, u <> [] /\ s = u ++ x /\
    Forall (fun a => p a = true) u /\ k x = Some r.
Proof.
  destruct s as [|a s]; simpl; [done|].
  destruct (p a) eqn:Hp; [|done].
  intros H. destruct (star_sound _ _ H) as (u & x & -> & Hu & Hk).
  exists (a :: u), x. split_and!; [done | done | by constructor | done].
Qed.

Lemma plus_run (u x : bytes) (r : R) :
  u <> [] -> Forall (fun a => p a = true) u ->
  Regexp.star p x k = Some r -> Regexp.plus p (u ++ x) k = Some r.
Proof.
  intros Hne Hu H. destruct Hu as [|a u Ha Hu]; [done|]. simpl.
  rewrite Ha. by apply star_run.
Qed.

End StarFacts.

(** ** The replace-all loop *)

Section ReplaceLoop.
Context (step : Regexp.rule).

Lemma replaceLoop_skip (x y : bytes) :
  Regexp.replaceLoop step (length x) (x ++ y) = Regexp.replaceLoop step 0 y.
Proof. induction x as [|a x IH]; [done|]. simpl. apply IH. Qed.

Lemma replaceLoop_miss (a : ascii) (s : bytes) :
  step (a :: s) = None ->
  Regexp.replaceLoop step 0 (a :: s) = a :: Regexp.replaceLoop step 0 s.
Proof. intros H. cbn [Regexp.replaceLoop]. by rewrite H. Qed.

Lemma replaceLoop_hit (m rest out : bytes) :
  m <> [] -> step (m ++ rest) = Some (out, rest) ->
  Regexp.replaceLoop step 0 (m ++ rest) = out ++ Regexp.replaceLoop step 0 rest.
Proof.
  intros Hm H. destruct m as [|a m]; [done|].
  change ((a :: m) ++ rest) with (a :: (m ++ rest)) in *.
  cbn [Regexp.replaceLoop]. rewrite H.
  replace (length (a :: m ++ rest) - length rest) with (S (length m))
    by (cbn [length]; rewrite length_app; lia).
  by rewrite replaceLoop_skip.
Qed.

(** Where the rule applies nowhere the text is copied. *)
Lemma replaceLoop_id (s : bytes) :
  (forall t, t `suffix_of` s -> step t = None) ->
  Regexp.replaceLoop step 0 s = s.
Proof.
  induction s as [|a s IH]; intros H; [done|].
  rewrite replaceLoop_miss by (apply H; done).
  f_equal. apply IH. intros t Ht. apply H. by apply suffix_cons_r.
Qed.

End ReplaceLoop.

(** ** Rules that rewrite a hyperlink

    Both passes of the link rewriter replace a whole attribute
    [href=QvQ], chosen by its value [v], with an attribute [href=QwQ]. *)

Lemma href_app (v rest : bytes) : href v ++ rest = opener ++ v ++ dq :: rest.
Proof. unfold href, opener. by rewrite <- !app_assoc. Qed.

Lemma QuoteFree_equals : QuoteFree (str "href=").
Proof. by apply QuoteFree_str_checked. Qed.

Lemma opener_inj (v w x y : bytes) :
  QuoteFree v -> QuoteFree w ->
  opener ++ v ++ dq :: x = opener ++ w ++ dq :: y -> v = w /\ x = y.
Proof. intros Hv Hw E. apply app_inv_head in E. by apply first_quote_unique. Qed.

Lemma href_inj (v w x y : bytes) :
  QuoteFree v -> QuoteFree w -> href v ++ x = href w ++ y -> v = w /\ x = y.
Proof. rewrite !href_app. apply opener_inj. Qed.

Lemma ends_md_NoOpenerTail (stem : bytes) : NoOpenerTail (stem ++ str ".md").
Proof.
  intros [u E].
  change (str ".md") with (str ".m" ++ ["d"%char]) in E.
  change (str "href=") with (str "href" ++ ["="%char]) in E.
  rewrite !app_assoc in E. by apply app_inj_tail in E as [_ [=]].
Qed.

Lemma ends_html_NoOpenerTail (stem : bytes) : NoOpenerTail (stem ++ str ".html").
Proof.
  intros [u E].
  change (str ".html") with (str ".htm" ++ ["l"%char]) in E.
  change (str "href=") with (str "href" ++ ["="%char]) in E.
  rewrite !app_assoc in E. by apply app_inj_tail in E as [_ [=]].
Qed.

Lemma ends_md_not_html (a b : bytes) : a ++ str ".md" <> b ++ str ".html".
Proof.
  intros E.
  change (str ".md") with (str ".m" ++ ["d"%char]) in E.
  change (str ".html") with (str ".htm" ++ ["l"%char]) in E.
  rewrite !app_assoc in E. by apply app_inj_tail in E as [_ [=]].
Qed.

Lemma suffix_cons_cases {A} (w l : list A) (x : A) :
  w `suffix_of` x :: l -> w = x :: l \/ w `suffix_of` l.
Proof.
  intros [[|y k] E]; simpl in E; [by left|].
  injection E as -> ->. right. by exists k.
Qed.

(** The only non-empty tail of an attribute that, followed by any text,
    starts an attribute again is the attribute itself. *)
Lemma link_tail_cases (v w z t : bytes) :
  QuoteFree v -> w <> [] ->
  w `suffix_of` href v -> w ++ z = opener ++ t ->
  w = href v \/ (w = opener /\ exists u, v = u ++ str "href=").
Proof.
  intros Hv Hw Hsuf E. unfold href in *. cbn in Hsuf, E |- *.
  repeat (apply suffix_cons_cases in Hsuf as [->|Hsuf];
          [by left || by cbn in E|]).
  right. destruct Hsuf as [pre Hpre].
  destruct (decide (w = [])) as [|Hne]; [done|].
  apply exists_last in Hne as (w' & a & ->).
  rewrite app_assoc in Hpre. apply app_inj_tail in Hpre as [-> <-].
  apply QuoteFree_app in Hv as [_ Hw'].
  rewrite <- app_assoc in E. cbn in E.
  change (?a :: ?b :: ?c :: ?d :: ?e :: dq :: t) with (str "href=" ++ dq :: t) in E.
  apply first_quote_unique in E as [-> _]; [|done|apply QuoteFree_equals].
  split; [done | by exists pre].
Qed.

Lemma link_tail_opens (v w z t : bytes) :
  QuoteFree v -> NoOpenerTail v -> w <> [] ->
  w `suffix_of` href v -> w ++ z = opener ++ t -> w = href v.
Proof.
  intros Hv Hno Hw Hsuf E.
  by destruct (link_tail_cases v w z t) as [?|[_ ?]].
Qed.

Lemma suffix_app_cases {A} (t x y : list A) :
  t `suffix_of` x ++ y ->
  t `suffix_of` y \/ exists w, w <> [] /\ w `suffix_of` x /\ t = w ++ y.
Proof.
  induction x as [|a x IH]; simpl; intros H; [by left|].
  apply suffix_cons_cases in H as [->|H].
  - right. by exists (a :: x).
  - destruct (IH H) as [?|(w & ? & ? & ->)]; [by left|].
    right. exists w. split_and!; [done | by apply suffix_cons_r | done].
Qed.

Section OneRule.
Context {step : Regexp.rule} {ok : bytes -> Prop} {g : bytes -> bytes}.
Context {rule : LinkRule step ok g}.

Local Abbreviation rw := (Regexp.replaceLoop step 0).

Lemma href_nonempty (v : bytes) : href v <> [].
Proof. done. Qed.

Lemma rewrite_hit (v rest : bytes) :
  QuoteFree v -> ok v -> rw (href v ++ rest) = href (g v) ++ rw rest.
Proof.
  intros Hv Hok. apply replaceLoop_hit; [apply href_nonempty|].
  by apply rule_hit.
Qed.

Lemma rule_needs_opener (s : bytes) :
  (forall t, s <> opener ++ t) -> step s = None.
Proof.
  intros H. destruct (step s) as [[out rest]|] eqn:E; [|done].
  apply rule_inv in E as (v & -> & _). rewrite href_app in H.
  by destruct (H (v ++ dq :: rest)).
Qed.

(** A text that starts an attribute is rewritten on its own: no match
    reaches across the point where it starts. *)
Lemma rewrite_split (a t : bytes) :
  rw (a ++ opener ++ t) = rw a ++ rw (opener ++ t).
Proof.
  remember (length a) as n eqn:Hn. revert a Hn.
  induction n as [n IH] using lt_wf_ind. intros a ->.
  destruct a as [|c a]; [done|].
  destruct (step (c :: a)) as [[out rest]|] eqn:E.
  - destruct (rule_inv _ _ _ E) as (v & Ea & Hv & Hok & ->).
    rewrite Ea, <- app_assoc, !rewrite_hit, <- app_assoc by done.
    f_equal. apply (IH (length rest)); [|done].
    rewrite Ea, length_app. unfold href. rewrite !length_app. simpl. lia.
  - assert (step ((c :: a) ++ opener ++ t) = None) as E2.
    { destruct (step ((c :: a) ++ opener ++ t)) as [[out rest]|] eqn:E2; [|done].
      exfalso. destruct (rule_inv _ _ _ E2) as (v & Ea & Hv & Hok & ->).
      apply app_eq_inv in Ea as [(k & Hk & _)|(k & Hk & Ht)].
      - rewrite Hk in E. by rewrite rule_hit in E.
      - destruct (rule_source _ Hok) as [stem Hstem].
        destruct (decide (k = [])) as [->|Hne].
        + rewrite app_nil_r in Hk. rewrite <- (app_nil_r (c :: a)), <- Hk in E.
          by rewrite rule_hit in E.
        + assert (k = href v) as ->.
          { eapply link_tail_opens; [done| |done| |symmetry; apply Ht].
            - rewrite Hstem. apply ends_md_NoOpenerTail.
            - by exists (c :: a). }
          apply (f_equal length) in Hk. rewrite length_app in Hk.
          simpl in Hk. lia. }
    change ((c :: a) ++ opener ++ t) with (c :: (a ++ opener ++ t)) in *.
    rewrite !replaceLoop_miss by done. simpl. f_equal.
    by apply (IH (length a)); [simpl; lia|].
Qed.

(** An attribute that the rule leaves alone, and whose value does not
    end in the start of another attribute, is copied. *)
Lemma rewrite_keep (v b : bytes) :
  QuoteFree v -> ~ ok v -> NoOpenerTail v ->
  rw (href v ++ b) = href v ++ rw b.
Proof.
  intros Hv Hok Hno.
  enough (forall w, w `suffix_of` href v -> rw (w ++ b) = w ++ rw b) as H
    by (by apply H).
  induction w as [|c w IHw]; intros Hsuf; [done|].
  assert (step ((c :: w) ++ b) = None) as E.
  { destruct (step ((c :: w) ++ b)) as [[out rest]|] eqn:E; [|done].
    exfalso. destruct (rule_inv _ _ _ E) as (v' & Ea & Hv' & Hok' & ->).
    assert (c :: w = href v) as Hw.
    { eapply link_tail_opens; [done|done|done|done|]. rewrite Ea. apply href_app. }
    rewrite Hw in Ea. apply href_inj in Ea as [-> _]; done. }
  change ((c :: w) ++ b) with (c :: (w ++ b)) in *.
  rewrite replaceLoop_miss by done. simpl. f_equal.
  apply IHw. by eapply suffix_cons_l.
Qed.

End OneRule.

Section TwoRules.
Context {stepA : Regexp.rule} {okA : bytes -> Prop} {gA : bytes -> bytes}.
Context {stepB : Regexp.rule} {okB : bytes -> Prop} {gB : bytes -> bytes}.
Context {ruleA : LinkRule stepA okA gA} {ruleB : LinkRule stepB okB gB}.

Local Abbreviation rwA := (Regexp.replaceLoop stepA 0).

(** No rule applies at a position inside a replacement. *)
Lemma no_match_in_target (v w z : bytes) :
  QuoteFree v -> okA v -> w <> [] -> w `suffix_of` href (gA v) ->
  stepB (w ++ z) = None.
Proof.
  intros Hv Hok Hw Hsuf.
  destruct (stepB (w ++ z)) as [[out rest]|] eqn:E; [|done]. exfalso.
  destruct (rule_inv _ _ _ E) as (v' & Ea & Hv' & Hok' & _).
  destruct (rule_target v Hv Hok) as [Hq [stem Hstem]].
  assert (w = href (gA v)) as ->.
  { eapply link_tail_opens; [done| |done|done|].
    - rewrite Hstem. apply ends_html_NoOpenerTail.
    - rewrite Ea. apply href_app. }
  apply href_inj in Ea as [Ev _]; [|done..].
  destruct (rule_source _ Hok') as [stem' Hstem'].
  rewrite Hstem, Hstem' in Ev. symmetry in Ev. by apply ends_md_not_html in Ev.
Qed.

(** An attribute with a source value at the start of the output was at
    the start of the input. *)
Lemma source_link_transfer (s vB z : bytes) :
  QuoteFree vB -> okB vB ->
  rwA s = href vB ++ z -> exists s', s = href vB ++ s'.
Proof.
  intros HvB HokB.
  destruct (rule_source _ HokB) as [stemB HstemB].
  enough (forall w s, w `suffix_of` href vB -> rwA s = w ++ z ->
            exists s', s = w ++ s') as H by (by apply H).
  induction w as [|c w IHw]; intros s' Hsuf E; [by exists s'|].
  destruct s' as [|a s']; [done|].
  destruct (stepA (a :: s')) as [[out rest]|] eqn:Est.
  - exfalso. destruct (rule_inv _ _ _ Est) as (v & Ea & Hv & Hok & ->).
    rewrite Ea, rewrite_hit in E by done.
    destruct (rule_target v Hv Hok) as [Hq [stem Hstem]].
    assert (c :: w = href vB) as Hw.
    { eapply link_tail_opens; [done| |done|done|].
      - rewrite HstemB. apply ends_md_NoOpenerTail.
      - rewrite <- E. apply href_app. }
    rewrite Hw in E. apply href_inj in E as [Ev _]; [|done..].
    rewrite Hstem, HstemB in Ev. symmetry in Ev. by apply ends_md_not_html in Ev.
  - rewrite replaceLoop_miss in E by done. injection E as -> E.
    destruct (IHw s') as [s'' ->]; [by eapply suffix_cons_l | done |].
    by exists s''.
Qed.

(** Rewriting with one rule creates no place where the other applies. *)
Lemma no_new_match (s : bytes) :
  (forall t, t `suffix_of` s -> stepA t = None -> stepB t = None) ->
  NoMatch stepB (rwA s).
Proof.
  remember (length s) as n eqn:Hn. revert s Hn.
  induction n as [n IH] using lt_wf_ind. intros s -> H t Ht.
  destruct s as [|a s].
  - apply suffix_nil_inv in Ht as ->.
    apply rule_needs_opener. by intros t.
  - destruct (stepA (a :: s)) as [[out rest]|] eqn:E.
    + destruct (rule_inv _ _ _ E) as (v & Ea & Hv & Hok & ->).
      rewrite Ea, rewrite_hit in Ht by done.
      apply suffix_app_cases in Ht as [Ht|(w & Hw & Hsuf & ->)].
      * apply (IH (length rest)) with (s := rest); [|done| |done].
        -- rewrite Ea, length_app. unfold href. rewrite !length_app. simpl. lia.
        -- intros t' Ht'. apply H. rewrite Ea. by apply suffix_app_r.
      * by eapply no_match_in_target.
    + rewrite replaceLoop_miss in Ht by done.
      apply suffix_cons_cases in Ht as [->|Ht].
      * destruct (stepB (a :: rwA s)) as [[out rest]|] eqn:EB; [|done]. exfalso.
        destruct (rule_inv _ _ _ EB) as (vB & Ea & HvB & HokB & _).
        rewrite <- (replaceLoop_miss stepA a s E) in Ea.
        apply source_link_transfer in Ea as [s' Es]; [|done..].
        specialize (H (a :: s) ltac:(done) E).
        rewrite Es in H. by rewrite rule_hit in H.
      * apply (IH (length s)) with (s := s); [simpl; lia|done| |done].
        intros t' Ht'. apply H. by apply suffix_cons_r.
Qed.

End TwoRules.

Section OneRuleMore.
Context {step : Regexp.rule} {ok : bytes -> Prop} {g : bytes -> bytes}.
Context {rule : LinkRule step ok g}.

Local Abbreviation rw' := (Regexp.replaceLoop step 0).

(** The output of a pass has no place left where its rule applies. *)
Lemma rewrite_NoMatch (s : bytes) : NoMatch step (rw' s).
Proof. by apply (no_new_match (ruleA := rule) (ruleB := rule)). Qed.

(** An attribute the rule leaves alone keeps its place and its bytes,
    whatever is rewritten around it. *)
Lemma rewrite_keep_weak (a v b : bytes) :
  QuoteFree v -> ~ ok v ->
  exists z, rw' (a ++ href v ++ b) = rw' a ++ href v ++ z.
Proof.
  intros Hv Hok. rewrite href_app, rewrite_split, <- href_app.
  enough (forall w, w `suffix_of` href v -> exists z, rw' (w ++ b) = w ++ z) as H.
  { destruct (H (href v)) as [z ->]; [done|]. by exists z. }
  induction w as [|c w IHw]; intros Hsuf; [by exists (rw' b)|].
  destruct (step ((c :: w) ++ b)) as [[out rest]|] eqn:E.
  - destruct (rule_inv _ _ _ E) as (v' & Ea & Hv' & Hok' & ->).
    rewrite Ea, rewrite_hit by done.
    destruct (link_tail_cases v (c :: w) b (v' ++ dq :: rest))
      as [Hw|[Hw _]]; [done|done|done|by rewrite Ea, href_app| |].
    + rewrite Hw in Ea. by apply href_inj in Ea as [-> _].
    + rewrite Hw, href_app. eauto.
  - change ((c :: w) ++ b) with (c :: (w ++ b)) in *.
    rewrite replaceLoop_miss by done.
    destruct IHw as [z ->]; [by eapply suffix_cons_l|]. by exists z.
Qed.

End OneRuleMore.

(** ** The two passes of the link rewriter as hyperlink rules *)

Lemma fixRelativeLinks_passes (html : bytes) :
  fixRelativeLinks html =
  Regexp.replaceLoop siblingRule 0 (Regexp.replaceLoop repoRule 0 html).
Proof. reflexivity. Qed.

Lemma exec_Lit_inv {R} (l s : bytes) c (k : bytes -> Regexp.captures -> option R) r :
  Regexp.exec (Regexp.Lit l) s c k = Some r ->
  exists s', s = l ++ s' /\ k s' c = Some r.
Proof.
  simpl. destruct (Strings.CutPrefix s l) as [s'|] eqn:E; [|done].
  apply CutPrefix_Some in E. eauto.
Qed.

Lemma exec_Lit_app {R} (l s : bytes) c (k : bytes -> Regexp.captures -> option R) :
  Regexp.exec (Regexp.Lit l) (l ++ s) c k = k s c.
Proof. simpl. by rewrite CutPrefix_app. Qed.

Lemma exec_Lit_None {R} (l s : bytes) c (k : bytes -> Regexp.captures -> option R) :
  (forall s', s <> l ++ s') -> Regexp.exec (Regexp.Lit l) s c k = None.
Proof.
  intros H. simpl. destruct (Strings.CutPrefix s l) as [s'|] eqn:E; [|done].
  apply CutPrefix_Some in E. by destruct (H s').
Qed.

Lemma exec_Plus_inv {R} p (s : bytes) c (k : bytes -> Regexp.captures -> option R) r :
  Regexp.exec (Regexp.Plus p) s c k = Some r ->
  exists u x, u <> [] /\ s = u ++ x /\
    Forall (fun a => p a = true) u /\ k x c = Some r.
Proof. simpl. apply plus_sound. Qed.

Lemma QuoteFree_run (u : bytes) :
  Forall (fun a => notQuote a = true) u -> QuoteFree u.
Proof. apply QuoteFree_Forall. Qed.

Lemma submatch_insert (c : Regexp.captures) (i : nat) (m : bytes) :
  Regexp.submatch (<[i := m]> c) i = m.
Proof. unfold Regexp.submatch. by rewrite lookup_insert_eq. Qed.

Lemma submatch_insert_ne (c : Regexp.captures) (i j : nat) (m : bytes) :
  i <> j -> Regexp.submatch (<[i := m]> c) j = Regexp.submatch c j.
Proof. intros H. unfold Regexp.submatch. by rewrite lookup_insert_ne. Qed.

Lemma capture_whole (m s rest : bytes) :
  s = m ++ rest -> take (length s - length rest) s = m.
Proof. intros ->. apply take_match_length. Qed.

Lemma matchHere_repo_inv (s rest : bytes) (c : Regexp.captures) :
  Regexp.matchHere reRepoLink s = Some (c, rest) ->
  exists v, s = href v ++ rest /\ QuoteFree v /\ okRepo v /\
    Regexp.submatch c 0 = href v.
Proof.
  unfold Regexp.matchHere, reRepoLink. intros H.
  cbn [Regexp.exec] in H.
  destruct (Strings.CutPrefix s _) as [s1|] eqn:E0; [|done].
  apply CutPrefix_Some in E0 as ->.
  destruct (Strings.CutPrefix s1 (str "README.md")) as [s2|] eqn:E1.
  - apply CutPrefix_Some in E1 as ->.
    destruct (Strings.CutPrefix s2 [dq]) as [s3|] eqn:E2.
    + apply CutPrefix_Some in E2 as ->. injection H as <- <-.
      exists (str "../README.md"). split_and!.
      * done.
      * by apply QuoteFree_str_checked.
      * by left.
      * rewrite submatch_insert.
        apply (take_match_length (href (str "../README.md")) s3).
    + destruct (Strings.CutPrefix _ (str "exercises/")) as [s3|] eqn:E3; [|done].
      by apply CutPrefix_Some in E3.
  - destruct (Strings.CutPrefix s1 (str "exercises/")) as [s2|] eqn:E2; [|done].
    apply CutPrefix_Some in E2 as ->.
    apply plus_sound in H as (u & x & Hu & -> & HF & H).
    destruct (Strings.CutPrefix x (str ".md")) as [s3|] eqn:E3; [|done].
    apply CutPrefix_Some in E3 as ->.
    destruct (Strings.CutPrefix s3 [dq]) as [s4|] eqn:E4; [|done].
    apply CutPrefix_Some in E4 as ->. injection H as <- <-.
    exists (str "../exercises/" ++ u ++ str ".md"). split_and!.
    + unfold href. by rewrite <- !app_assoc.
    + apply QuoteFree_app; split; [by apply QuoteFree_str_checked|].
      apply QuoteFree_app; split; [by apply QuoteFree_run|].
      by apply QuoteFree_str_checked.
    + right. by exists u.
    + rewrite submatch_insert.
      match goal with |- take _ ?b = ?m => apply (capture_whole m b s4) end.
      unfold href. by rewrite <- !app_assoc.
Qed.

Lemma matchHere_repo_hit (v rest : bytes) :
  QuoteFree v -> okRepo v ->
  exists c, Regexp.matchHere reRepoLink (href v ++ rest) = Some (c, rest) /\
    Regexp.submatch c 0 = href v.
Proof.
  intros Hv [->|(X & HX & ->)].
  - eexists. split; [reflexivity|]. rewrite submatch_insert.
    apply (take_match_length (href (str "../README.md")) rest).
  - apply QuoteFree_app in Hv as [_ Hv]. apply QuoteFree_app in Hv as [Hv _].
    apply QuoteFree_Forall in Hv.
    unfold Regexp.matchHere, reRepoLink. cbn [Regexp.exec].
    replace (href (str "../exercises/" ++ X ++ str ".md") ++ rest)
      with ((str "href=" ++ [dq] ++ str "../") ++ str "exercises/" ++
            X ++ str ".md" ++ dq :: rest)
      by (unfold href; by rewrite <- !app_assoc).
    rewrite CutPrefix_app.
    replace (Strings.CutPrefix _ (str "README.md")) with (@None bytes) by done.
    rewrite CutPrefix_app.
    eexists. split.
    + apply plus_run; [done|done|]. reflexivity.
    + rewrite submatch_insert.
      match goal with |- take _ ?b = ?m => apply (capture_whole m b rest) end.
      unfold href. by rewrite <- !app_assoc.
Qed.

Lemma find_skip (r : Regexp.regex) (a : ascii) (s : bytes) :
  Regexp.matchHere r (a :: s) = None ->
  Regexp.find r (a :: s) = Regexp.find r s.
Proof. intros H. simpl. by rewrite H. Qed.

Lemma find_hit (r : Regexp.regex) (s rest : bytes) (c : Regexp.captures) :
  Regexp.matchHere r s = Some (c, rest) -> Regexp.find r s = Some c.
Proof. intros H. destruct s; simpl; by rewrite H. Qed.

Lemma matchHere_exercise (X rest : bytes) :
  X <> [] -> QuoteFree X ->
  exists c,
    Regexp.matchHere reExercisePath
      (str "exercises/" ++ X ++ str ".md" ++ dq :: rest) = Some (c, dq :: rest) /\
    Regexp.submatch c 1 = X.
Proof.
  intros HX Hq. apply QuoteFree_Forall in Hq.
  unfold Regexp.matchHere, reExercisePath. cbn [Regexp.exec].
  rewrite CutPrefix_app. eexists. split.
  - apply plus_run; [done|done|]. reflexivity.
  - rewrite submatch_insert_ne, submatch_insert by done.
    apply (capture_whole X _ (str ".md" ++ dq :: rest)). done.
Qed.

Lemma stem_exercise (X : bytes) :
  take (length (str "../exercises/" ++ X ++ str ".md") - 16)
       (drop 13 (str "../exercises/" ++ X ++ str ".md")) = X.
Proof.
  change (drop 13 (str "../exercises/" ++ X ++ str ".md")) with (X ++ str ".md").
  rewrite !length_app.
  replace (length (str "../exercises/") + (length X + length (str ".md")) - 16)
    with (length X) by (cbn; lia).
  by rewrite take_app_length.
Qed.

Lemma rewriteRepoLink_href (v : bytes) :
  QuoteFree v -> okRepo v -> rewriteRepoLink (href v) = href (gRepo v).
Proof.
  intros Hv Hok. unfold rewriteRepoLink, gRepo.
  destruct (Strings.Contains (href v) (str "README.md")) eqn:Hc; [done|].
  destruct Hok as [->|(X & HX & ->)]; [by vm_compute in Hc|].
  apply QuoteFree_app in Hv as [_ Hv]. apply QuoteFree_app in Hv as [Hv _].
  destruct (matchHere_exercise X [] HX Hv) as (c & Hm & Hc1).
  assert (Regexp.find reExercisePath
            (href (str "../exercises/" ++ X ++ str ".md")) = Some c) as Hfind.
  { unfold href. rewrite <- !app_assoc. cbn [str list_ascii_of_string app].
    do 9 (rewrite find_skip by done).
    change (Regexp.find reExercisePath
      (str "exercises/" ++ X ++ str ".md" ++ [dq]) = Some c).
    by eapply find_hit. }
  unfold Regexp.FindStringSubmatch. rewrite Hfind, stem_exercise.
  cbn. rewrite Hc1. unfold href. by rewrite <- !app_assoc.
Qed.

Lemma ends_md (v : bytes) : okRepo v -> exists stem, v = stem ++ str ".md".
Proof.
  intros [->|(X & _ & ->)].
  - by exists (str "../README").
  - exists (str "../exercises/" ++ X). by rewrite <- app_assoc.
Qed.

Lemma gRepo_target (v : bytes) :
  QuoteFree v -> okRepo v ->
  QuoteFree (gRepo v) /\ exists stem, gRepo v = stem ++ str ".html".
Proof.
  intros Hv Hok. unfold gRepo.
  destruct (Strings.Contains (href v) (str "README.md")) eqn:Hc.
  - split; [by apply QuoteFree_str_checked | by exists (str "index")].
  - destruct Hok as [->|(X & HX & ->)]; [by vm_compute in Hc|].
    rewrite stem_exercise. split; [|by exists X].
    apply QuoteFree_app in Hv as [_ Hv]. apply QuoteFree_app in Hv as [Hv _].
    apply QuoteFree_app. split; [done | by apply QuoteFree_str_checked].
Qed.

#[export] Instance repoRule_LinkRule : LinkRule repoRule okRepo gRepo.
Proof.
  split.
  - intros s out rest. unfold repoRule, Regexp.ruleOf.
    destruct (Regexp.matchHere reRepoLink s) as [[c rest']|] eqn:E; [|done].
    intros [= <- <-].
    apply matchHere_repo_inv in E as (v & -> & Hv & Hok & ->).
    exists v. split_and!; [done..|]. by apply rewriteRepoLink_href.
  - intros v rest Hv Hok. unfold repoRule, Regexp.ruleOf.
    destruct (matchHere_repo_hit v rest Hv Hok) as (c & -> & ->).
    by rewrite rewriteRepoLink_href.
  - apply ends_md.
  - apply gRepo_target.
Qed.

(** The second pass. *)

Lemma Expand_sibling (c : Regexp.captures) :
  Regexp.Expand siblingTemplate c = href (Regexp.submatch c 1 ++ str ".html").
Proof.
  unfold href. rewrite <- !app_assoc. reflexivity.
Qed.

Lemma isDigit_notQuote (a : ascii) : Regexp.isDigit a = true -> a <> dq.
Proof. intros H ->. by vm_compute in H. Qed.

Lemma QuoteFree_cons (a : ascii) (v : bytes) :
  a <> dq -> QuoteFree v -> QuoteFree (a :: v).
Proof. unfold QuoteFree. intros Ha Hv. apply not_elem_of_cons. split; [congruence|done]. Qed.

Lemma gSibling_value (d1 d2 : ascii) (Z : bytes) :
  gSibling (d1 :: d2 :: "-"%char :: Z ++ str ".md") =
  d1 :: d2 :: "-"%char :: Z ++ str ".html".
Proof.
  unfold gSibling.
  change (d1 :: d2 :: "-"%char :: Z ++ str ".md")
    with ((d1 :: d2 :: "-"%char :: Z) ++ str ".md").
  rewrite length_app.
  replace (length (d1 :: d2 :: "-"%char :: Z) + length (str ".md") - 3)
    with (length (d1 :: d2 :: "-"%char :: Z)) by (cbn; lia).
  by rewrite take_app_length.
Qed.

Lemma matchHere_sibling_inv (s rest : bytes) (c : Regexp.captures) :
  Regexp.matchHere reSiblingLink s = Some (c, rest) ->
  exists d1 d2 Z,
    Regexp.isDigit d1 = true /\ Regexp.isDigit d2 = true /\ Z <> [] /\
    QuoteFree Z /\
    s = href (d1 :: d2 :: "-"%char :: Z ++ str ".md") ++ rest /\
    Regexp.submatch c 1 = d1 :: d2 :: "-"%char :: Z.
Proof.
  unfold Regexp.matchHere, reSiblingLink. intros H.
  cbn [Regexp.exec] in H.
  destruct (Strings.CutPrefix s _) as [s1|] eqn:E0; [|done].
  apply CutPrefix_Some in E0 as ->.
  destruct s1 as [|d1 s1]; [done|].
  destruct (Regexp.isDigit d1) eqn:Hd1; [|done].
  destruct s1 as [|d2 s1]; [done|].
  destruct (Regexp.isDigit d2) eqn:Hd2; [|done].
  destruct (Strings.CutPrefix s1 (str "-")) as [s2|] eqn:E1; [|done].
  apply CutPrefix_Some in E1 as ->.
  apply plus_sound in H as (u & x & Hu & -> & HF & H).
  destruct (Strings.CutPrefix x _) as [s3|] eqn:E3; [|done].
  apply CutPrefix_Some in E3 as ->. injection H as <- <-.
  exists d1, d2, u. split_and!; [done|done|done|by apply QuoteFree_run| |].
  - by norm_bytes.
  - rewrite submatch_insert_ne, submatch_insert by done.
    match goal with |- take _ ?b = ?m =>
      apply (capture_whole m b (str ".md" ++ [dq] ++ s3)) end.
    by norm_bytes.
Qed.

Lemma matchHere_sibling_hit (d1 d2 : ascii) (Z rest : bytes) :
  Regexp.isDigit d1 = true -> Regexp.isDigit d2 = true -> Z <> [] ->
  QuoteFree Z ->
  exists c,
    Regexp.matchHere reSiblingLink
      (href (d1 :: d2 :: "-"%char :: Z ++ str ".md") ++ rest) = Some (c, rest) /\
    Regexp.submatch c 1 = d1 :: d2 :: "-"%char :: Z.
Proof.
  intros Hd1 Hd2 HZ Hq. apply QuoteFree_Forall in Hq.
  unfold Regexp.matchHere, reSiblingLink. cbn [Regexp.exec].
  replace (href (d1 :: d2 :: "-"%char :: Z ++ str ".md") ++ rest)
    with ((str "href=" ++ [dq]) ++ d1 :: d2 :: str "-" ++
          Z ++ str ".md" ++ dq :: rest)
    by (by norm_bytes).
  rewrite CutPrefix_app, Hd1, Hd2, CutPrefix_app.
  eexists. split.
  - apply plus_run; [done|done|]. reflexivity.
  - rewrite submatch_insert_ne, submatch_insert by done.
    match goal with |- take _ ?b = ?m =>
      apply (capture_whole m b (str ".md" ++ [dq] ++ rest)) end.
    by norm_bytes.
Qed.

#[export] Instance siblingRule_LinkRule : LinkRule siblingRule okSibling gSibling.
Proof.
  split.
  - intros s out rest. unfold siblingRule, Regexp.ruleOf.
    destruct (Regexp.matchHere reSiblingLink s) as [[c rest']|] eqn:E; [|done].
    intros [= <- <-].
    apply matchHere_sibling_inv in E
      as (d1 & d2 & Z & Hd1 & Hd2 & HZ & Hq & -> & Hc).
    exists (d1 :: d2 :: "-"%char :: Z ++ str ".md"). split_and!.
    + done.
    + do 2 (apply QuoteFree_cons; [by apply isDigit_notQuote|]).
      apply QuoteFree_cons; [done|]. apply QuoteFree_app.
      split; [done | by apply QuoteFree_str_checked].
    + by exists d1, d2, Z.
    + by rewrite Expand_sibling, Hc, gSibling_value.
  - intros v rest Hv (d1 & d2 & Z & Hd1 & Hd2 & HZ & ->).
    unfold siblingRule, Regexp.ruleOf.
    assert (QuoteFree Z) as Hq.
    { unfold QuoteFree in Hv |- *.
      rewrite !not_elem_of_cons, not_elem_of_app in Hv.
      by destruct Hv as (_ & _ & _ & ? & _). }
    destruct (matchHere_sibling_hit d1 d2 Z rest Hd1 Hd2 HZ Hq) as (c & -> & Hc).
    by rewrite Expand_sibling, Hc, gSibling_value.
  - intros v (d1 & d2 & Z & _ & _ & _ & ->).
    by exists (d1 :: d2 :: "-"%char :: Z).
  - intros v Hv (d1 & d2 & Z & Hd1 & Hd2 & HZ & ->).
    rewrite gSibling_value. split; [|by exists (d1 :: d2 :: "-"%char :: Z)].
    unfold QuoteFree in Hv |- *.
    rewrite !not_elem_of_cons, not_elem_of_app in Hv |- *.
    destruct Hv as (? & ? & ? & ? & _). split_and!; [done..|].
    by apply QuoteFree_str_checked.
Qed.

(** ** The link rewriter as a whole *)

Lemma target_not_source {step ok g} `{!LinkRule step ok g} (w : bytes) :
  (exists stem, w = stem ++ str ".html") -> ~ ok w.
Proof.
  intros [stem ->] Hok. destruct (rule_source _ Hok) as [stem' E].
  symmetry in E. by apply ends_md_not_html in E.
Qed.

(** A rewritten attribute is copied by either pass. *)
Lemma rewrite_target {step ok g} `{!LinkRule step ok g} (w b : bytes) :
  QuoteFree w -> (exists stem, w = stem ++ str ".html") ->
  Regexp.replaceLoop step 0 (href w ++ b) = href w ++ Regexp.replaceLoop step 0 b.
Proof.
  intros Hw Hhtml. apply rewrite_keep; [done| |].
  - by apply target_not_source.
  - destruct Hhtml as [stem ->]. apply ends_html_NoOpenerTail.
Qed.

Lemma okSibling_not_okRepo (v : bytes) : okSibling v -> ~ okRepo v.
Proof.
  intros (d1 & d2 & Z & Hd1 & _ & _ & ->) [E|(X & _ & E)];
    injection E as -> _; by vm_compute in Hd1.
Qed.

Lemma fix_hit_repo (a v b : bytes) :
  QuoteFree v -> okRepo v ->
  fixRelativeLinks (a ++ href v ++ b) =
  fixRelativeLinks a ++ href (gRepo v) ++ fixRelativeLinks b.
Proof.
  intros Hv Hok. rewrite !fixRelativeLinks_passes.
  destruct (gRepo_target v Hv Hok) as [Hq Hhtml].
  rewrite href_app, rewrite_split, <- href_app, rewrite_hit by done.
  rewrite href_app, rewrite_split, <- href_app.
  by rewrite rewrite_target.
Qed.

Lemma fix_hit_sibling (a v b : bytes) :
  QuoteFree v -> okSibling v ->
  fixRelativeLinks (a ++ href v ++ b) =
  fixRelativeLinks a ++ href (gSibling v) ++ fixRelativeLinks b.
Proof.
  intros Hv Hok. rewrite !fixRelativeLinks_passes.
  rewrite href_app, rewrite_split, <- href_app.
  rewrite (rewrite_keep (step := repoRule)); [|done| |].
  - rewrite href_app, rewrite_split, <- href_app. by rewrite rewrite_hit.
  - by apply okSibling_not_okRepo.
  - destruct (rule_source _ Hok) as [stem ->]. apply ends_md_NoOpenerTail.
Qed.

Lemma fix_keep (a v b : bytes) :
  QuoteFree v -> ~ okRepo v -> ~ okSibling v ->
  exists z, fixRelativeLinks (a ++ href v ++ b) = fixRelativeLinks a ++ href v ++ z.
Proof.
  intros Hv H1 H2. rewrite !fixRelativeLinks_passes.
  destruct (rewrite_keep_weak (step := repoRule) a v b Hv H1) as [z1 ->].
  apply (rewrite_keep_weak (step := siblingRule)); done.
Qed.

Lemma fix_id (s : bytes) :
  NoMatch repoRule s -> NoMatch siblingRule s -> fixRelativeLinks s = s.
Proof.
  intros H1 H2. rewrite fixRelativeLinks_passes.
  by rewrite (replaceLoop_id repoRule), (replaceLoop_id siblingRule).
Qed.

Lemma fix_NoMatch (s : bytes) :
  NoMatch repoRule (fixRelativeLinks s) /\ NoMatch siblingRule (fixRelativeLinks s).
Proof.
  rewrite fixRelativeLinks_passes. split.
  - apply (no_new_match (ruleA := siblingRule_LinkRule) (ruleB := repoRule_LinkRule)).
    intros t Ht _. by apply (rewrite_NoMatch (step := repoRule) s).
  - apply rewrite_NoMatch.
Qed.

(** C1. The link rewriter is idempotent: rewriting a fragment that has
    already been rewritten changes nothing, for every fragment. *)
Theorem fixRelativeLinks_idempotent (s : bytes) :
  fixRelativeLinks (fixRelativeLinks s) = fixRelativeLinks s.
Proof. destruct (fix_NoMatch s). by apply fix_id. Qed.

(** C5. The link rewriter rewrites a reference to the overview document
    to the landing page and a reference to a sibling document to the same
    name with the output extension, wherever the reference stands in a
    fragment; a hyperlink whose value neither pattern accepts keeps its
    place and its bytes; and a fragment without a hyperlink that a pattern
    accepts is returned as it is (an external URL and an anchor are
    examples). *)
Theorem link_rewriter_shapes :
  (forall a b,
     fixRelativeLinks (a ++ href (str "../README.md") ++ b) =
     fixRelativeLinks a ++ href (str "index.html") ++ fixRelativeLinks b) /\
  (forall a b,
     fixRelativeLinks (a ++ href (str "03-topic.md") ++ b) =
     fixRelativeLinks a ++ href (str "03-topic.html") ++ fixRelativeLinks b) /\
  (forall a v b,
     QuoteFree v -> ~ okRepo v -> ~ okSibling v ->
     exists z,
       fixRelativeLinks (a ++ href v ++ b) = fixRelativeLinks a ++ href v ++ z) /\
  (forall s,
     (forall a v b, s = a ++ href v ++ b -> QuoteFree v ->
                    ~ okRepo v /\ ~ okSibling v) ->
     fixRelativeLinks s = s) /\
  fixRelativeLinks (str "<a " ++ href (str "https://example.com") ++ str ">site</a>") =
    str "<a " ++ href (str "https://example.com") ++ str ">site</a>" /\
  fixRelativeLinks (str "<a " ++ href (str "#setup") ++ str ">setup</a>") =
    str "<a " ++ href (str "#setup") ++ str ">setup</a>".
Proof.
  split_and!.
  - intros a b.
    rewrite (fix_hit_repo a (str "../README.md") b);
      [done | by apply QuoteFree_str_checked | by left].
  - intros a b.
    rewrite (fix_hit_sibling a (str "03-topic.md") b);
      [done | by apply QuoteFree_str_checked |].
    by exists "0"%char, "3"%char, (str "topic").
  - apply fix_keep.
  - intros s H. apply fix_id.
    + intros t [pre ->]. destruct (repoRule t) as [[out rest]|] eqn:E; [|done].
      apply rule_inv in E as (v & -> & Hv & Hok & _).
      by destruct (H pre v rest eq_refl Hv) as [? _].
    + intros t [pre ->]. destruct (siblingRule t) as [[out rest]|] eqn:E; [|done].
      apply rule_inv in E as (v & -> & Hv & Hok & _).
      by destruct (H pre v rest eq_refl Hv) as [_ ?].
  - by vm_compute.
  - by vm_compute.
Qed.

Lemma Contains_app (a s b sub : bytes) :
  Strings.Contains s sub = true -> Strings.Contains (a ++ s ++ b) sub = true.
Proof.
  rewrite !Contains_true. intros (x & y & ->).
  exists (a ++ x), (y ++ b). by rewrite <- !app_assoc.
Qed.

(** C9. A hyperlink to [../exercises/NAME.md] whose NAME contains the
    text README.md is rewritten to the landing page, not to NAME with the
    output extension: the replacement function tests whether README.md
    occurs anywhere in the matched text. *)
Theorem readme_substring_precedence (a NAME b : bytes) :
  QuoteFree NAME -> Strings.Contains NAME (str "README.md") = true ->
  rewriteRepoLink (href (str "../exercises/" ++ NAME ++ str ".md")) =
    href (str "index.html") /\
  fixRelativeLinks (a ++ href (str "../exercises/" ++ NAME ++ str ".md") ++ b) =
    fixRelativeLinks a ++ href (str "index.html") ++ fixRelativeLinks b /\
  str "index.html" <> NAME ++ str ".html".
Proof.
  intros Hq Hc.
  assert (NAME <> []) as Hne by (by intros ->).
  assert (QuoteFree (str "../exercises/" ++ NAME ++ str ".md")) as Hv.
  { apply QuoteFree_app; split; [by apply QuoteFree_str_checked|].
    apply QuoteFree_app; split; [done|by apply QuoteFree_str_checked]. }
  assert (okRepo (str "../exercises/" ++ NAME ++ str ".md")) as Hok
    by (right; by exists NAME).
  assert (gRepo (str "../exercises/" ++ NAME ++ str ".md") = str "index.html") as Hg.
  { unfold gRepo.
    replace (href (str "../exercises/" ++ NAME ++ str ".md"))
      with ((opener ++ str "../exercises/") ++ NAME ++ (str ".md" ++ [dq]))
      by (by norm_bytes).
    by rewrite (Contains_app _ NAME _ _ Hc). }
  split_and!.
  - by rewrite rewriteRepoLink_href, Hg.
  - by rewrite fix_hit_repo, Hg.
  - change (str "index.html") with (str "index" ++ str ".html").
    intros E. apply app_inv_tail in E. subst NAME. by vm_compute in Hc.
Qed.

(** C10. A hyperlink whose value is two digits, a dash, one or more
    characters other than the double quote, and the extension .md is
    rewritten to the same name with the extension .html, wherever it
    stands.  The rewriter is a function of the fragment alone: it has no
    access to the list of descriptors. *)
Theorem sibling_rewrite_by_pattern (a b : bytes) (d1 d2 : ascii) (Z : bytes) :
  Regexp.isDigit d1 = true -> Regexp.isDigit d2 = true ->
  Z <> [] -> QuoteFree Z ->
  fixRelativeLinks (a ++ href (d1 :: d2 :: "-"%char :: Z ++ str ".md") ++ b) =
  fixRelativeLinks a ++ href (d1 :: d2 :: "-"%char :: Z ++ str ".html") ++
  fixRelativeLinks b.
Proof.
  intros Hd1 Hd2 HZ Hq. rewrite fix_hit_sibling.
  - by rewrite gSibling_value.
  - do 2 (apply QuoteFree_cons; [by apply isDigit_notQuote|]).
    apply QuoteFree_cons; [done|]. apply QuoteFree_app.
    split; [done | by apply QuoteFree_str_checked].
  - by exists d1, d2, Z.
Qed.

(** With nothing between the dash and the extension the second pattern
    does not match. *)
Remark sibling_rewrite_needs_stem :
  fixRelativeLinks (href (str "12-.md")) = href (str "12-.md").
Proof. by vm_compute. Qed.

(** ** The generator: one page *)

Lemma bind_eq {A B} (m : M A) (k : A -> M B) (w : World) :
  bind m k w =
  match m w with
  | (Ok a, w') => k a w'
  | (Err e, w') => (Err e, w')
  | (Exit c, w') => (Exit c, w')
  | (Panic, w') => (Panic, w')
  end.
Proof. reflexivity. Qed.

Lemma wrap_eq {A} (prefix : bytes) (m : M A) (w : World) :
  wrap prefix m w =
  match m w with
  | (Err e, w') => (Err (prefix ++ e), w')
  | r => r
  end.
Proof. reflexivity. Qed.

Lemma orExit_eq {A} (report : bytes -> bytes) (m : M A) (w : World) :
  orExit report m w =
  match m w with
  | (Err e, w') => (Exit 1, reported (report e) w')
  | r => r
  end.
Proof. reflexivity. Qed.

(** Each operation either succeeds or fails with the error the system
    gives; both outcomes are logged. *)
Lemma osReadFile_cases (path : bytes) (w : World) :
  (exists data, fs w !! path = Some data /\ fault (ReadFile path) w = None /\
     osReadFile path w = (Ok data, logged (ReadFile path) None (fs w) w)) \/
  (exists e, (fault (ReadFile path) w = Some e \/
              (fault (ReadFile path) w = None /\ fs w !! path = None)) /\
     osReadFile path w = (Err e, logged (ReadFile path) (Some e) (fs w) w)).
Proof.
  unfold osReadFile. destruct (fault (ReadFile path) w) as [e|] eqn:Hf.
  - right. exists e. eauto.
  - destruct (fs w !! path) as [data|] eqn:Hd.
    + left. exists data. eauto.
    + right. eexists. eauto.
Qed.

Lemma templateParse_cases (name : bytes) (w : World) :
  (fault (ParseTemplate name) w = None /\
     templateParse name w = (Ok tt, logged (ParseTemplate name) None (fs w) w)) \/
  (exists e, fault (ParseTemplate name) w = Some e /\
     templateParse name w = (Err e, logged (ParseTemplate name) (Some e) (fs w) w)).
Proof.
  unfold templateParse. destruct (fault (ParseTemplate name) w) as [e|] eqn:Hf; eauto.
Qed.

Lemma osMkdirAll_cases (path : bytes) (w : World) :
  (fault (MkdirAll path) w = None /\
     osMkdirAll path w = (Ok tt, logged (MkdirAll path) None (fs w) w)) \/
  (exists e, fault (MkdirAll path) w = Some e /\
     osMkdirAll path w = (Err e, logged (MkdirAll path) (Some e) (fs w) w)).
Proof.
  unfold osMkdirAll. destruct (fault (MkdirAll path) w) as [e|] eqn:Hf; eauto.
Qed.

Lemma osCreate_cases (path : bytes) (w : World) :
  (fault (Create path) w = None /\
     osCreate path w = (Ok tt, logged (Create path) None (<[path := []]> (fs w)) w)) \/
  (exists e, fault (Create path) w = Some e /\
     osCreate path w = (Err e, logged (Create path) (Some e) (fs w) w)).
Proof.
  unfold osCreate. destruct (fault (Create path) w) as [e|] eqn:Hf; eauto.
Qed.

Lemma fileWrite_cases (path data : bytes) (w : World) :
  (fault (Write path data) w = None /\
     fileWrite path data w =
     (Ok tt, logged (Write path data) None (<[path := data]> (fs w)) w)) \/
  (exists e, fault (Write path data) w = Some e /\
     fileWrite path data w =
     (Err e, logged (Write path data) (Some e)
               (<[path := take (torn w (length (log w))) data]> (fs w)) w)).
Proof.
  unfold fileWrite. destruct (fault (Write path data) w) as [e|] eqn:Hf; eauto.
Qed.

Lemma writes_app (a b : list Event) : writes (a ++ b) = writes a ++ writes b.
Proof. apply omap_app. Qed.

Lemma okEvents_app (a b : list Op) : okEvents (a ++ b) = okEvents a ++ okEvents b.
Proof. apply fmap_app. Qed.

Lemma okEvents_succeeded (ops : list Op) : Forall succeeded (okEvents ops).
Proof. unfold okEvents. apply Forall_fmap, Forall_forall. done. Qed.

Lemma Agree_insert (S : bytes -> Prop) (f1 f2 : gmap bytes bytes) (p d : bytes) :
  Agree S f1 f2 -> Agree (fun q => S q \/ q = p) (<[p := d]> f1) (<[p := d]> f2).
Proof.
  intros H q Hq. destruct (decide (p = q)) as [->|Hne].
  - by rewrite !lookup_insert_eq.
  - rewrite !lookup_insert_ne by done. destruct Hq as [Hq|Hq]; [by apply H|congruence].
Qed.

Lemma Agree_weaken (S S' : bytes -> Prop) (f1 f2 : gmap bytes bytes) :
  (forall q, S' q -> S q) -> Agree S f1 f2 -> Agree S' f1 f2.
Proof. intros HS H q Hq. apply H, HS, Hq. Qed.

Lemma links_run (i : nat) (w : World) :
  i < length exerciseMetadata ->
  (if (0 <? Z.of_nat i)%Z then
     m <- at_ exerciseMetadata (Z.of_nat i - 1) ;;
     ret (Strings.TrimSuffix (Meta.Filename m) (str ".md") ++ str ".html")
   else ret (str "index.html")) w = (Ok (prevLinkOf i), w) /\
  (if (Z.of_nat i <? Z.of_nat (length exerciseMetadata) - 1)%Z then
     m <- at_ exerciseMetadata (Z.of_nat i + 1) ;;
     ret (Strings.TrimSuffix (Meta.Filename m) (str ".md") ++ str ".html")
   else ret []) w = (Ok (nextLinkOf i), w).
Proof.
  intros Hi. split.
  - destruct i as [|j]; [done|].
    replace (0 <? Z.of_nat (S j))%Z with true by (symmetry; apply Z.ltb_lt; lia).
    unfold bind, at_.
    replace (Z.of_nat (S j) - 1 <? 0)%Z with false by (symmetry; apply Z.ltb_ge; lia).
    replace (Z.to_nat (Z.of_nat (S j) - 1)) with j by lia.
    destruct (lookup_lt_is_Some_2 exerciseMetadata j ltac:(lia)) as [m Hm].
    unfold prevLinkOf. by rewrite Hm.
  - unfold nextLinkOf.
    destruct (exerciseMetadata !! S i) as [m|] eqn:Hm.
    + apply lookup_lt_Some in Hm as Hlt.
      replace (Z.of_nat i <? Z.of_nat (length exerciseMetadata) - 1)%Z with true
        by (symmetry; apply Z.ltb_lt; lia).
      unfold bind, at_.
      replace (Z.of_nat i + 1 <? 0)%Z with false by (symmetry; apply Z.ltb_ge; lia).
      replace (Z.to_nat (Z.of_nat i + 1)) with (S i) by lia.
      by rewrite Hm.
    + apply lookup_ge_None in Hm.
      by replace (Z.of_nat i <? Z.of_nat (length exerciseMetadata) - 1)%Z with false
        by (symmetry; apply Z.ltb_ge; lia).
Qed.

(** What [generateExercisePage] does at a position of the list: it
    returns the exercise of that position and leaves the world of a page
    made, or it returns the wrapped error of the first operation that
    failed. *)
Lemma generateExercisePage_cases (exercisesDir outputDir : bytes)
    (meta : Meta.t) (i : nat) (w : World) :
  i < length exerciseMetadata ->
  (exists content,
     fs w !! Join exercisesDir (Meta.Filename meta) = Some content /\
     genPage exercisesDir outputDir meta (Z.of_nat i) w =
     (Ok (pageOf i meta content),
      afterPage exercisesDir outputDir meta (pageOf i meta content) w)) \/
  (exists k e w',
     genPage exercisesDir outputDir meta (Z.of_nat i) w =
       (Err (from_option pageWrap []
               (pageOps exercisesDir outputDir meta
                  (pageOf i meta (default []
                     (fs w !! Join exercisesDir (Meta.Filename meta)))) !! k) ++ e),
        w') /\
     FailsAt (pageOps exercisesDir outputDir meta
                (pageOf i meta (default []
                   (fs w !! Join exercisesDir (Meta.Filename meta))))) k e w w').
Proof.
  intros Hi. unfold generateExercisePage.
  rewrite bind_eq, wrap_eq.
  destruct (osReadFile_cases (Join exercisesDir (Meta.Filename meta)) w)
    as [(content & Hfs & _ & ->)|(e & He & ->)].
  2:{ destruct He as [He|[_ He]]; [by fails_at 0 e He|].
      right. exists 0, e. eexists. split; [reflexivity|].
      eexists. split; [reflexivity|]. rewrite Nat.add_0_r. split_and!; eauto. }
  rewrite Hfs. cbn [default].
  destruct (links_run i (logged (ReadFile (Join exercisesDir (Meta.Filename meta)))
                           None (fs w) w) Hi) as [Hprev Hnext].
  rewrite bind_eq, Hprev, bind_eq, Hnext, bind_eq, wrap_eq.
  match goal with |- context [templateParse ?n ?w1] =>
    destruct (templateParse_cases n w1) as [[_ ->]|(e & He & ->)] end.
  2:{ by fails_at 1 e He. }
  rewrite bind_eq, wrap_eq.
  match goal with |- context [osCreate ?p ?w1] =>
    destruct (osCreate_cases p w1) as [[_ ->]|(e & He & ->)] end.
  2:{ by fails_at 2 e He. }
  rewrite bind_eq, wrap_eq.
  match goal with |- context [fileWrite ?p ?d ?w1] =>
    destruct (fileWrite_cases p d w1) as [[_ ->]|(e & He & ->)] end.
  2:{ by fails_at 3 e He. }
  left. exists content. split; [done|].
  rewrite bind_eq. unfold Printf, ret, afterPage, printed, logged.
  cbn [fs log stdout stderr faults torn]. f_equal. f_equal.
  unfold okEvents, pageOps. cbn [fmap list_fmap]. by rewrite <- !app_assoc.
Qed.

(** ** The generator: the loop over the descriptors *)

Lemma exercisePages_cases (exercisesDir outputDir : bytes)
    (metas : list Meta.t) (i : nat) (acc : list Exercise.t) (w : World) :
  i + length metas <= length exerciseMetadata ->
  (exists es w',
     PagesRun exercisesDir outputDir i metas w es w' /\
     pagesLoop exercisesDir outputDir metas (Z.of_nat i) acc w = (Ok (acc ++ es), w')) \/
  (exists w',
     PagesFail exercisesDir outputDir i metas w w' /\
     pagesLoop exercisesDir outputDir metas (Z.of_nat i) acc w = (Exit 1, w')).
Proof.
  revert i acc w. induction metas as [|meta metas IH]; intros i acc w Hlen.
  - left. exists [], w. split; [constructor|]. cbn. by rewrite app_nil_r.
  - cbn [length] in Hlen. cbn [exercisePages]. rewrite bind_eq, orExit_eq.
    destruct (generateExercisePage_cases exercisesDir outputDir meta i w)
      as [(content & Hfs & ->)|(k & e & w2 & -> & Hfail)]; [lia| |].
    + replace (Z.of_nat i + 1)%Z with (Z.of_nat (S i)) by lia.
      destruct (IH (S i) (acc ++ [pageOf i meta content])
                  (afterPage exercisesDir outputDir meta (pageOf i meta content) w))
        as [(es & w' & Hrun & ->)|(w' & Hfail & ->)]; [lia| |].
      * left. exists (pageOf i meta content :: es), w'.
        split; [by econstructor|]. by rewrite <- app_assoc.
      * right. exists w'. split; [|done].
        destruct Hfail as (k & meta' & es & w1 & j & e & w2 & Hk & Hrun & Hf & ->).
        exists (S k), meta', (pageOf i meta content :: es), w1, j, e, w2.
        replace (i + S k) with (S i + k) by lia.
        split_and!; [done|by econstructor|by split].
    + right. eexists. split; [|reflexivity].
      exists 0, meta, [], w, k, e, w2. rewrite Nat.add_0_r.
      split_and!; [done|constructor|by split].
Qed.

(** ** The generator: the landing page, the stylesheet and [main] *)

Lemma generateIndexPage_cases (outputDir : bytes) (es : list Exercise.t) (w : World) :
  genIndex outputDir es w = (Ok tt, afterIndex outputDir es w) \/
  (exists k e w',
     genIndex outputDir es w =
       (Err (from_option pageWrap [] (indexOps outputDir es !! k) ++ e), w') /\
     FailsAt (indexOps outputDir es) k e w w').
Proof.
  unfold generateIndexPage. rewrite bind_eq, wrap_eq.
  destruct (templateParse_cases (str "index") w) as [[_ ->]|(e & He & ->)].
  2:{ by fails_at 0 e He. }
  rewrite bind_eq, wrap_eq.
  match goal with |- context [osCreate ?p ?w1] =>
    destruct (osCreate_cases p w1) as [[_ ->]|(e & He & ->)] end.
  2:{ by fails_at 1 e He. }
  rewrite bind_eq, wrap_eq.
  match goal with |- context [fileWrite ?p ?d ?w1] =>
    destruct (fileWrite_cases p d w1) as [[_ ->]|(e & He & ->)] end.
  2:{ by fails_at 2 e He. }
  left. unfold Printf, afterIndex, printed, logged.
  cbn [fs log stdout stderr faults torn]. f_equal. f_equal.
  unfold okEvents, indexOps. cbn [fmap list_fmap]. by rewrite <- !app_assoc.
Qed.

Lemma copyCSSFile_cases (outputDir : bytes) (w : World) :
  copyCSS outputDir w = (Ok tt, afterCSS outputDir w) \/
  (exists k e w',
     copyCSS outputDir w = (Err (str "writing CSS file: " ++ e), w') /\
     FailsAt (cssOps outputDir) k e w w').
Proof.
  unfold copyCSSFile, osWriteFile. rewrite bind_eq, wrap_eq, bind_eq.
  match goal with |- context [osCreate ?p ?w1] =>
    destruct (osCreate_cases p w1) as [[_ ->]|(e & He & ->)] end.
  2:{ by fails_at 0 e He. }
  match goal with |- context [fileWrite ?p ?d ?w1] =>
    destruct (fileWrite_cases p d w1) as [[_ ->]|(e & He & ->)] end.
  2:{ by fails_at 1 e He. }
  left. unfold Printf, afterCSS, printed, logged.
  cbn [fs log stdout stderr faults torn]. f_equal. f_equal.
  unfold okEvents, cssOps. cbn [fmap list_fmap]. by rewrite <- !app_assoc.
Qed.

Lemma summary_printed (outputDir : bytes) (n : nat) (w : World) :
  printed (str "📄 Generated " ++ Itoa (Z.of_nat n) ++
           str " exercise pages + index page" ++ nl)
    (printed (str "📁 Output directory: " ++ outputDir ++ nl)
       (printed (str "✅ Website generated successfully!" ++ nl) w)) =
  afterSummary outputDir n w.
Proof.
  unfold printed, afterSummary, summary. cbn [fs log stdout stderr faults torn].
  f_equal. by rewrite <- !app_assoc.
Qed.

Lemma main_cases (exercisesDir outputDir : bytes) (w : World) :
  MainRun exercisesDir outputDir w
    (run exercisesDir outputDir w).1 (run exercisesDir outputDir w).2.
Proof.
  unfold main. rewrite bind_eq, orExit_eq.
  destruct (osMkdirAll_cases outputDir w) as [[_ ->]|(e & He & ->)].
  2:{ by constructor. }
  rewrite bind_eq.
  destruct (exercisePages_cases exercisesDir outputDir exerciseMetadata 0 []
              (logged (MkdirAll outputDir) None (fs w) w))
    as [(es & w1 & Hrun & Hloop)|(w' & Hfail & Hloop)]; [cbn; lia| |].
  2:{ change (Z.of_nat 0) with 0%Z in Hloop. rewrite Hloop. by apply Run_page_fails. }
  change (Z.of_nat 0) with 0%Z in Hloop. rewrite Hloop. cbn [app].
  rewrite bind_eq, orExit_eq.
  destruct (generateIndexPage_cases outputDir es w1) as [->|(k & e & w2 & -> & Hf)].
  2:{ by eapply Run_index_fails. }
  rewrite bind_eq, orExit_eq.
  destruct (copyCSSFile_cases outputDir (afterIndex outputDir es w1))
    as [->|(k & e & w2 & -> & Hf)].
  2:{ by eapply Run_stylesheet_fails. }
  unfold bind, Printf. cbn [fst snd]. rewrite summary_printed.
  by apply Run_success.
Qed.

(** ** What a run leaves behind *)

Lemma PagesRun_pages exercisesDir outputDir i metas w es w' :
  PagesRun exercisesDir outputDir i metas w es w' ->
  length es = length metas /\
  forall k meta, metas !! k = Some meta ->
    exists content, es !! k = Some (pageOf (i + k) meta content).
Proof.
  induction 1 as [i w|i meta metas content es w w' Hfs Hrun [IHlen IH]].
  - split; [done|]. intros k meta Hk. by rewrite lookup_nil in Hk.
  - split; [cbn; by rewrite IHlen|].
    intros [|k] meta' Hk; cbn in Hk.
    + injection Hk as <-. exists content. by rewrite Nat.add_0_r.
    + destruct (IH k meta' Hk) as [content' Hc]. exists content'.
      cbn. by replace (i + S k) with (S i + k) by lia.
Qed.

Lemma PagesRun_world exercisesDir outputDir i metas w es w' :
  PagesRun exercisesDir outputDir i metas w es w' ->
  log w' = log w ++ okEvents (pagesOps exercisesDir outputDir metas es) /\
  stdout w' = stdout w ++ ((fun e => generatedLine (Exercise.Filename e)) <$> es) /\
  stderr w' = stderr w /\ faults w' = faults w /\ torn w' = torn w.
Proof.
  induction 1 as [i w|i meta metas content es w w' Hfs Hrun IH].
  - unfold pagesOps. cbn. by rewrite !app_nil_r.
  - destruct IH as (-> & -> & -> & -> & ->).
    unfold pagesOps, afterPage.
    cbn [fs log stdout stderr faults torn zip_with concat fmap list_fmap].
    rewrite okEvents_app, <- !app_assoc. done.
Qed.

Lemma PagesRun_paths exercisesDir outputDir i metas w es w' :
  PagesRun exercisesDir outputDir i metas w es w' ->
  (writes (okEvents (pagesOps exercisesDir outputDir metas es))).*1 =
  pagePath outputDir <$> metas.
Proof.
  induction 1 as [i w|i meta metas content es w w' Hfs Hrun IH]; [done|].
  unfold pagesOps. cbn [zip_with concat].
  rewrite okEvents_app, writes_app, fmap_app. fold (pagesOps exercisesDir outputDir metas es).
  rewrite IH. done.
Qed.

Lemma PagesRun_take exercisesDir outputDir i metas w es w' :
  PagesRun exercisesDir outputDir i metas w es w' ->
  length (writes (okEvents (pagesOps exercisesDir outputDir metas es))) = length metas.
Proof.
  intros H. apply PagesRun_paths in H.
  apply (f_equal length) in H. by rewrite !length_fmap in H.
Qed.

(** Two runs of the loop that read the same sources make the same pages
    and leave the same contents in the files they write. *)
Lemma PagesRun_agree exercisesDir outputDir (S : bytes -> Prop) i metas
    w1 es1 w1' w2 es2 w2' :
  PagesRun exercisesDir outputDir i metas w1 es1 w1' ->
  PagesRun exercisesDir outputDir i metas w2 es2 w2' ->
  (forall meta, meta ∈ metas -> S (Join exercisesDir (Meta.Filename meta))) ->
  Agree S (fs w1) (fs w2) ->
  es1 = es2 /\
  Agree (fun q => S q \/ q ∈ (pagePath outputDir <$> metas)) (fs w1') (fs w2').
Proof.
  intros H1. revert S w2 es2 w2'.
  induction H1 as [i w|i meta metas content es w w' Hfs Hrun IH];
    intros S w2 es2 w2' H2 HS Hag.
  - inversion H2; subst. split; [done|].
    eapply Agree_weaken; [|done]. intros q [?|Hq]; [done|]. by apply elem_of_nil in Hq.
  - inversion H2 as [|? ? ? content2 es2' ? ? Hfs2 Hrun2]; subst.
    assert (content2 = content) as ->.
    { specialize (Hag _ (HS meta ltac:(left))). congruence. }
    set (p := Join outputDir (outputName (Meta.Filename meta))).
    destruct (IH (fun q => S q \/ q = p) _ _ _ Hrun2) as [-> Hag'].
    + intros meta' Hin. left. apply HS. by right.
    + unfold afterPage. cbn [fs].
      eapply Agree_weaken; [|apply Agree_insert, Agree_insert, Hag].
      intros q [Hq| ->]; [by left; left|by right].
    + split; [done|]. eapply Agree_weaken; [|apply Hag'].
      intros q [Hq|Hq]; [by left; left|].
      cbn in Hq. apply elem_of_cons in Hq as [->|Hq]; [by left; right|by right].
Qed.

(** ** Navigation *)

Lemma generateExercisePage_succeeds (exercisesDir outputDir : bytes)
    (meta : Meta.t) (i : nat) (content : bytes) (w : World) :
  i < length exerciseMetadata -> NoFaults w ->
  fs w !! Join exercisesDir (Meta.Filename meta) = Some content ->
  genPage exercisesDir outputDir meta (Z.of_nat i) w =
  (Ok (pageOf i meta content),
   afterPage exercisesDir outputDir meta (pageOf i meta content) w).
Proof.
  intros Hi Hnf Hfs.
  destruct (generateExercisePage_cases exercisesDir outputDir meta i w Hi)
    as [(content' & Hfs' & ->)|(k & e & w' & _ & Hfail)].
  - by replace content' with content by congruence.
  - exfalso. destruct Hfail as (op & Hop & _ & _ & _ & _ & _ & [Hc|(path & -> & Hc)]).
    + by rewrite Hnf in Hc.
    + destruct k as [|[|[|[|k]]]]; try done. cbn in Hop.
      injection Hop as <-. congruence.
Qed.

Lemma pageOf_links (i : nat) (meta : Meta.t) (content : bytes) :
  (i = 0 -> Exercise.PrevLink (pageOf i meta content) = str "index.html") /\
  (forall j m, i = S j -> exerciseMetadata !! j = Some m ->
     Exercise.PrevLink (pageOf i meta content) = outputName (Meta.Filename m)) /\
  (S i = length exerciseMetadata -> Exercise.NextLink (pageOf i meta content) = []) /\
  (forall m, exerciseMetadata !! S i = Some m ->
     Exercise.NextLink (pageOf i meta content) = outputName (Meta.Filename m)).
Proof.
  cbn [pageOf Exercise.PrevLink Exercise.NextLink]. split_and!.
  - by intros ->.
  - intros j m -> Hm. cbn. by rewrite Hm.
  - intros Hlast. unfold nextLinkOf.
    by rewrite (lookup_ge_None_2 exerciseMetadata (S i)) by lia.
  - intros m Hm. unfold nextLinkOf. by rewrite Hm.
Qed.

(** C2. At every position [i] of every descriptor list, the page composer
    sets [previous] to index.html when [i] is the first position and to
    the output filename of descriptor [i-1] otherwise, and sets [next] to
    the empty string when [i] is the last position and to the output
    filename of descriptor [i+1] otherwise.  The call returns such a page
    unless an operation of the system fails (it never panics or exits),
    and it does return one when the system reports no failure and the
    source exists. *)
Theorem navigation_links (exercisesDir outputDir : bytes) (meta : Meta.t)
    (i : nat) (w : World) :
  i < length exerciseMetadata ->
  match (genPage exercisesDir outputDir meta (Z.of_nat i) w).1 with
  | Ok e =>
      (i = 0 -> Exercise.PrevLink e = str "index.html") /\
      (forall j m, i = S j -> exerciseMetadata !! j = Some m ->
         Exercise.PrevLink e = outputName (Meta.Filename m)) /\
      (S i = length exerciseMetadata -> Exercise.NextLink e = []) /\
      (forall m, exerciseMetadata !! S i = Some m ->
         Exercise.NextLink e = outputName (Meta.Filename m))
  | Err _ => True
  | Exit _ | Panic => False
  end /\
  (NoFaults w -> is_Some (fs w !! Join exercisesDir (Meta.Filename meta)) ->
   exists e, (genPage exercisesDir outputDir meta (Z.of_nat i) w).1 = Ok e).
Proof.
  intros Hi. split.
  - destruct (generateExercisePage_cases exercisesDir outputDir meta i w Hi)
      as [(content & Hfs & ->)|(k & e & w' & -> & _)]; [|done].
    apply pageOf_links.
  - intros Hnf [content Hfs].
    rewrite (generateExercisePage_succeeds _ _ _ _ content) by done. eauto.
Qed.

(** ** Runs of [main] *)

Lemma successLine_not_generated (line : bytes) :
  isGeneratedLine line -> line <> successLine.
Proof. intros [name ->] E. by vm_compute in E. Qed.

Lemma PagesRun_generated exercisesDir outputDir i metas w es w' :
  PagesRun exercisesDir outputDir i metas w es w' ->
  Forall isGeneratedLine ((fun e => generatedLine (Exercise.Filename e)) <$> es).
Proof. intros _. apply Forall_fmap, Forall_forall. intros e _. by eexists. Qed.

Lemma FailsAt_writes (ops : list Op) (k : nat) (e : bytes) (w w' : World) :
  FailsAt ops k e w w' ->
  (forall j op, ops !! j = Some op -> S j < length ops ->
     match op with Write _ _ => False | _ => True end) ->
  writes (okEvents (take k ops)) = [].
Proof.
  intros (op & Hop & _) Hlast.
  apply lookup_lt_Some in Hop as Hk.
  assert (forall n l, (forall j op, l !! j = Some op -> j < n ->
            match op with Write _ _ => False | _ => True end) ->
          writes (okEvents (take n l)) = []) as Hgen.
  { clear. induction n as [|n IH]; intros [|op l] H; try done.
    cbn [take okEvents fmap list_fmap writes omap list_omap].
    specialize (H 0 op eq_refl ltac:(lia)) as Hop.
    fold (okEvents (take n l)). fold (writes (okEvents (take n l))).
    rewrite IH by (intros j op' Hj Hlt; apply (H (S j) op' Hj); lia).
    by destruct op. }
  apply Hgen. intros j op' Hj Hlt. apply (Hlast j op' Hj). lia.
Qed.

Lemma pageOps_write_last exercisesDir outputDir meta e0 j op :
  pageOps exercisesDir outputDir meta e0 !! j = Some op ->
  S j < length (pageOps exercisesDir outputDir meta e0) ->
  match op with Write _ _ => False | _ => True end.
Proof. destruct j as [|[|[|[|j]]]]; cbn; intros [= <-] ?; try done; lia. Qed.

Lemma indexOps_write_last outputDir es j op :
  indexOps outputDir es !! j = Some op -> S j < length (indexOps outputDir es) ->
  match op with Write _ _ => False | _ => True end.
Proof. destruct j as [|[|[|j]]]; cbn; intros [= <-] ?; try done; lia. Qed.

Lemma cssOps_write_last outputDir j op :
  cssOps outputDir !! j = Some op -> S j < length (cssOps outputDir) ->
  match op with Write _ _ => False | _ => True end.
Proof. destruct j as [|[|j]]; cbn; intros [= <-] ?; try done; lia. Qed.

(** The world of a run in which nothing fails. *)
Lemma success_world exercisesDir outputDir w es w1 :
  PagesRun exercisesDir outputDir 0 exerciseMetadata (afterMkdir outputDir w) es w1 ->
  let w' := afterSummary outputDir (length es)
              (afterCSS outputDir (afterIndex outputDir es w1)) in
  log w' = log w ++ okEvents (allOps exercisesDir outputDir es) /\
  stdout w' =
    stdout w ++
    ((fun e => generatedLine (Exercise.Filename e)) <$> es) ++
    [generatedLine (str "index.html"); generatedLine (str "style.css")] ++
    summary outputDir (length es) /\
  stderr w' = stderr w /\ faults w' = faults w /\ torn w' = torn w /\
  (writes (okEvents (allOps exercisesDir outputDir es))).*1 =
    (pagePath outputDir <$> exerciseMetadata) ++
    [indexPath outputDir; cssPath outputDir].
Proof.
  intros Hrun w'. subst w'.
  destruct (PagesRun_world _ _ _ _ _ _ _ Hrun) as (Hlog & Hout & Herr & Hf & Ht).
  unfold afterSummary, afterCSS, afterIndex.
  cbn [fs log stdout stderr faults torn].
  rewrite Hlog, Hout, Herr, Hf, Ht. unfold afterMkdir.
  cbn [fs log stdout stderr faults torn logged]. split_and!; try done.
  - unfold allOps. change (MkdirAll outputDir :: ?l) with ([MkdirAll outputDir] ++ l).
    rewrite !okEvents_app, <- !app_assoc. done.
  - by rewrite <- !app_assoc.
  - unfold allOps. change (MkdirAll outputDir :: ?l) with ([MkdirAll outputDir] ++ l).
    rewrite !okEvents_app, !writes_app, !fmap_app.
    by rewrite (PagesRun_paths _ _ _ _ _ _ _ Hrun).
Qed.

(** The world of a run that stops: the log ends with the operation that
    failed, one message on standard error blames the stage, only lines
    about made pages have been printed, and fewer files have been written
    than a full run writes. *)
Lemma exit_world exercisesDir outputDir w w' c :
  MainRun exercisesDir outputDir w (Exit c) w' ->
  c = 1%Z /\
  exists oks op e msg lines,
    log w' = log w ++ okEvents oks ++ [(op, Some e)] /\
    stderr w' = stderr w ++ [msg] /\
    Blames exercisesDir outputDir msg op e /\
    stdout w' = stdout w ++ lines /\ Forall isGeneratedLine lines /\
    length (writes (okEvents oks)) < length exerciseMetadata + 2.
Proof.
  inversion 1 as [|e He|w2 Hfail|es w1 k e w2 Hrun Hfail|es w1 k e w2 Hrun Hfail]; subst.
  - split; [done|]. exists [], (MkdirAll outputDir), e.
    exists (str "Error creating output directory: " ++ e ++ nl), [].
    cbn [fs log stdout stderr faults torn logged reported].
    rewrite app_nil_r. split_and!; try done; [constructor|cbn; lia].
  - split; [done|].
    destruct Hfail as (k & meta & es & w1 & j & e & w3 & Hk & Hrun & Hf & ->).
    cbv zeta in Hf. cbn [Nat.add] in *.
    set (ops := pageOps exercisesDir outputDir meta
                  (pageOf k meta
                     (default [] (fs w1 !! Join exercisesDir (Meta.Filename meta))))) in *.
    destruct (PagesRun_world _ _ _ _ _ _ _ Hrun) as (Hlog & Hout & Herr & _).
    pose proof (FailsAt_writes _ _ _ _ _ Hf
      (pageOps_write_last _ _ _ _)) as Hw.
    destruct Hf as (op & Hop & Hlog' & Hout' & Herr' & _).
    exists (MkdirAll outputDir :: pagesOps exercisesDir outputDir
              (take k exerciseMetadata) es ++ take j ops), op, e.
    exists (str "Error generating exercise " ++ Meta.Filename meta ++ str ": " ++
            (pageWrap op ++ e) ++ nl).
    exists ((fun e => generatedLine (Exercise.Filename e)) <$> es).
    cbn [fs log stdout stderr faults torn reported].
    rewrite Hlog', Hout', Herr', Hlog, Hout, Herr. unfold afterMkdir.
    cbn [fs log stdout stderr faults torn logged]. rewrite Hop. cbn [from_option].
    split_and!.
    + change (MkdirAll outputDir :: ?l) with ([MkdirAll outputDir] ++ l).
      rewrite !okEvents_app, <- !app_assoc. done.
    + done.
    + eapply (Blames_exercise _ _ meta (pageOf k meta _));
        [by eapply list_elem_of_lookup_2|done|].
      by eapply list_elem_of_lookup_2.
    + done.
    + by eapply PagesRun_generated.
    + change (MkdirAll outputDir :: ?l) with ([MkdirAll outputDir] ++ l).
      rewrite !okEvents_app, !writes_app, Hw, app_nil_r.
      rewrite length_app, (PagesRun_take _ _ _ _ _ _ _ Hrun), length_take.
      apply lookup_lt_Some in Hk. cbn. lia.
  - split; [done|].
    destruct (PagesRun_world _ _ _ _ _ _ _ Hrun) as (Hlog & Hout & Herr & _).
    pose proof (FailsAt_writes _ _ _ _ _ Hfail (indexOps_write_last _ _)) as Hw.
    destruct Hfail as (op & Hop & Hlog' & Hout' & Herr' & _).
    exists (MkdirAll outputDir :: pagesOps exercisesDir outputDir
              exerciseMetadata es ++ take k (indexOps outputDir es)), op, e.
    exists (str "Error generating index page: " ++ (pageWrap op ++ e) ++ nl).
    exists ((fun e => generatedLine (Exercise.Filename e)) <$> es).
    cbn [fs log stdout stderr faults torn reported].
    rewrite Hlog', Hout', Herr', Hlog, Hout, Herr. unfold afterMkdir.
    cbn [fs log stdout stderr faults torn logged]. rewrite Hop. cbn [from_option].
    split_and!.
    + change (MkdirAll outputDir :: ?l) with ([MkdirAll outputDir] ++ l).
      rewrite !okEvents_app, <- !app_assoc. done.
    + done.
    + eapply Blames_index. by eapply list_elem_of_lookup_2.
    + done.
    + by eapply PagesRun_generated.
    + change (MkdirAll outputDir :: ?l) with ([MkdirAll outputDir] ++ l).
      rewrite !okEvents_app, !writes_app, Hw, app_nil_r.
      rewrite length_app, (PagesRun_take _ _ _ _ _ _ _ Hrun). cbn. lia.
  - split; [done|].
    destruct (PagesRun_world _ _ _ _ _ _ _ Hrun) as (Hlog & Hout & Herr & _).
    pose proof (FailsAt_writes _ _ _ _ _ Hfail (cssOps_write_last _)) as Hw.
    destruct Hfail as (op & Hop & Hlog' & Hout' & Herr' & _).
    exists (MkdirAll outputDir :: pagesOps exercisesDir outputDir
              exerciseMetadata es ++ indexOps outputDir es ++
              take k (cssOps outputDir)), op, e.
    exists (str "Error copying CSS file: " ++ (str "writing CSS file: " ++ e) ++ nl).
    exists (((fun e => generatedLine (Exercise.Filename e)) <$> es) ++
            [generatedLine (str "index.html")]).
    cbn [fs log stdout stderr faults torn reported].
    rewrite Hlog', Hout', Herr'. unfold afterIndex.
    cbn [fs log stdout stderr faults torn]. rewrite Hlog, Hout, Herr.
    unfold afterMkdir. cbn [fs log stdout stderr faults torn logged].
    split_and!.
    + change (MkdirAll outputDir :: ?l) with ([MkdirAll outputDir] ++ l).
      rewrite !okEvents_app, <- !app_assoc. done.
    + done.
    + eapply Blames_stylesheet. by eapply list_elem_of_lookup_2.
    + by rewrite <- app_assoc.
    + apply Forall_app. split; [by eapply PagesRun_generated|].
      repeat constructor. by eexists.
    + change (MkdirAll outputDir :: ?l) with ([MkdirAll outputDir] ++ l).
      rewrite !okEvents_app, !writes_app, Hw, app_nil_r.
      rewrite !length_app, (PagesRun_take _ _ _ _ _ _ _ Hrun). cbn. lia.
Qed.

Lemma PagesRun_fields exercisesDir outputDir i metas w es w' :
  PagesRun exercisesDir outputDir i metas w es w' ->
  Exercise.Number <$> es = Z.of_nat <$> seq i (length metas) /\
  Exercise.Filename <$> es = (fun m => outputName (Meta.Filename m)) <$> metas /\
  Exercise.Title <$> es = Meta.Title <$> metas /\
  Exercise.Emoji <$> es = Meta.Emoji <$> metas /\
  Exercise.Description <$> es = Meta.Description <$> metas.
Proof.
  induction 1 as [i w|i meta metas content es w w' Hfs Hrun IH]; [done|].
  destruct IH as (H1 & H2 & H3 & H4 & H5). cbn.
  by rewrite H1, H2, H3, H4, H5.
Qed.

Lemma PagesRun_written exercisesDir outputDir i metas w es w' k e :
  PagesRun exercisesDir outputDir i metas w es w' ->
  es !! k = Some e ->
  (Write (Join outputDir (Exercise.Filename e)) (execExercise e), None)
    ∈ okEvents (pagesOps exercisesDir outputDir metas es).
Proof.
  intros Hrun. revert k.
  induction Hrun as [i w|i meta metas content es w w' Hfs Hrun IH]; intros k Hk.
  - by rewrite lookup_nil in Hk.
  - unfold pagesOps. cbn [zip_with concat]. rewrite okEvents_app.
    apply elem_of_app. destruct k as [|k]; cbn in Hk.
    + injection Hk as <-. left. cbn. set_solver.
    + right. by apply (IH k).
Qed.

Lemma PagesRun_files exercisesDir outputDir i metas w es w' :
  PagesRun exercisesDir outputDir i metas w es w' ->
  (forall q, is_Some (fs w !! q) -> is_Some (fs w' !! q)) /\
  (forall q, q ∈ (pagePath outputDir <$> metas) -> is_Some (fs w' !! q)).
Proof.
  induction 1 as [i w|i meta metas content es w w' Hfs Hrun [IHkeep IHnew]].
  - split; [done|]. intros q Hq. by apply elem_of_nil in Hq.
  - assert (forall q, is_Some (fs w !! q) \/ q = pagePath outputDir meta ->
              is_Some (fs (afterPage exercisesDir outputDir meta
                             (pageOf i meta content) w) !! q)) as Hstep.
    { intros q Hq. unfold afterPage. cbn [fs].
      rewrite !lookup_insert_is_Some. destruct Hq as [Hq| ->]; [|by left].
      destruct (decide (Join outputDir
        (Exercise.Filename (pageOf i meta content)) = q)); [by left|].
      right. split; [done|]. right. done. }
    split.
    + intros q Hq. apply IHkeep, Hstep. by left.
    + intros q Hq. cbn in Hq. apply elem_of_cons in Hq as [->|Hq].
      * apply IHkeep, Hstep. by right.
      * by apply IHnew.
Qed.

(** Where the system reports no failure and every source exists, the
    run succeeds. *)
Lemma run_succeeds (exercisesDir outputDir : bytes) (w : World) :
  NoFaults w ->
  (forall meta, meta ∈ exerciseMetadata ->
     is_Some (fs w !! Join exercisesDir (Meta.Filename meta))) ->
  (run exercisesDir outputDir w).1 = Ok tt.
Proof.
  intros Hnf Hsrc.
  pose proof (main_cases exercisesDir outputDir w) as Hrun.
  destruct (run exercisesDir outputDir w) as [r w']. cbn [fst snd] in *.
  inversion Hrun as [|e He|w2 Hfail|es w1 k e w2 Hpages Hfail|es w1 k e w2 Hpages Hfail];
    subst; [done|exfalso..].
  - unfold fault in He. by rewrite Hnf in He.
  - destruct Hfail as (k & meta & es & w1 & j & e & w3 & Hk & Hpages & Hf & _).
    cbv zeta in Hf.
    destruct (PagesRun_world _ _ _ _ _ _ _ Hpages) as (_ & _ & _ & Hfaults & _).
    destruct (PagesRun_files _ _ _ _ _ _ _ Hpages) as [Hkeep _].
    destruct Hf as (op & Hop & _ & _ & _ & _ & _ & [Hc|(path & -> & Hc)]).
    + rewrite Hfaults in Hc. cbn in Hc. by rewrite Hnf in Hc.
    + destruct j as [|[|[|[|j]]]]; try done. cbn in Hop. injection Hop as <-.
      destruct (Hkeep (Join exercisesDir (Meta.Filename meta))) as [c Hsome].
      * cbn. apply Hsrc. by eapply list_elem_of_lookup_2.
      * congruence.
  - destruct (PagesRun_world _ _ _ _ _ _ _ Hpages) as (_ & _ & _ & Hfaults & _).
    destruct Hfail as (op & Hop & _ & _ & _ & _ & _ & [Hc|(path & -> & Hc)]).
    + rewrite Hfaults in Hc. cbn in Hc. by rewrite Hnf in Hc.
    + by destruct k as [|[|[|k]]].
  - destruct (PagesRun_world _ _ _ _ _ _ _ Hpages) as (_ & _ & _ & Hfaults & _).
    destruct Hfail as (op & Hop & _ & _ & _ & _ & _ & [Hc|(path & -> & Hc)]).
    + cbn in Hc. rewrite Hfaults in Hc. cbn in Hc. by rewrite Hnf in Hc.
    + by destruct k as [|[|k]].
Qed.

Lemma run_writes (exercisesDir outputDir : bytes) (w : World) :
  (run exercisesDir outputDir w).1 = Ok tt ->
  (writes (newEvents w (run exercisesDir outputDir w).2)).*1 =
  (pagePath outputDir <$> exerciseMetadata) ++
  [indexPath outputDir; cssPath outputDir].
Proof.
  pose proof (main_cases exercisesDir outputDir w) as Hrun.
  destruct (run exercisesDir outputDir w) as [r w']. cbn [fst snd] in *.
  intros ->. inversion Hrun as [es w1 Hpages| | | |]; subst.
  destruct (success_world _ _ _ _ _ Hpages) as (Hlog & _ & _ & _ & _ & Hw).
  unfold newEvents. by rewrite Hlog, drop_app_length.
Qed.

(** C6. A run of [main] ends in success or in exit status 1.  When it
    exits, the operation that failed is the last one of the run (all
    operations before it succeeded and nothing is created or written after
    it), and one message on standard error blames the stage and resource
    and carries the error.  The first line of the summary is printed if and
    only if the run succeeds, and the run succeeds if and only if the files
    written are the page of every descriptor, the landing page and the
    stylesheet. *)
Theorem fail_fast (exercisesDir outputDir : bytes) (w : World) :
  ((run exercisesDir outputDir w).1 = Ok tt \/
   (run exercisesDir outputDir w).1 = Exit 1) /\
  ((run exercisesDir outputDir w).1 = Exit 1 ->
   exists oks op e msg,
     newEvents w (run exercisesDir outputDir w).2 = okEvents oks ++ [(op, Some e)] /\
     stderr (run exercisesDir outputDir w).2 = stderr w ++ [msg] /\
     Blames exercisesDir outputDir msg op e) /\
  ((run exercisesDir outputDir w).1 = Ok tt <->
   Forall succeeded (newEvents w (run exercisesDir outputDir w).2)) /\
  ((run exercisesDir outputDir w).1 = Ok tt ->
   stderr (run exercisesDir outputDir w).2 = stderr w) /\
  (NoFaults w ->
   (forall meta, meta ∈ exerciseMetadata ->
      is_Some (fs w !! Join exercisesDir (Meta.Filename meta))) ->
   (run exercisesDir outputDir w).1 = Ok tt) /\
  (successLine ∈ newLines w (run exercisesDir outputDir w).2 <->
   (run exercisesDir outputDir w).1 = Ok tt) /\
  ((run exercisesDir outputDir w).1 = Ok tt <->
   (writes (newEvents w (run exercisesDir outputDir w).2)).*1 =
   (pagePath outputDir <$> exerciseMetadata) ++
   [indexPath outputDir; cssPath outputDir]).
Proof.
  pose proof (main_cases exercisesDir outputDir w) as Hrun.
  pose proof (run_succeeds exercisesDir outputDir w) as Hprogress.
  destruct (run exercisesDir outputDir w) as [r w']. cbn [fst snd] in *.
  unfold newEvents, newLines.
  destruct r as [[]|e|c|]; [| by inversion Hrun | | by inversion Hrun].
  - inversion Hrun as [es w1 Hpages| | | |]; subst.
    destruct (success_world _ _ _ _ _ Hpages) as (Hlog & Hout & Herr & _ & _ & Hw).
    rewrite Hlog, Hout, Herr, !drop_app_length. split_and!.
    + by left.
    + done.
    + split; [intros _; apply okEvents_succeeded|done].
    + done.
    + done.
    + split; [done|]. intros _. unfold summary, successLine.
      do 2 (apply elem_of_app; right). left.
    + done.
  - destruct (exit_world _ _ _ _ _ Hrun)
      as (-> & oks & op & e & msg & lines & Hlog & Herr & Hb & Hout & Hgen & Hlt).
    rewrite Hlog, Hout, Herr, !drop_app_length. split_and!.
    + by right.
    + intros _. by exists oks, op, e, msg.
    + split; [done|]. intros Hall. apply Forall_app in Hall as [_ Hall].
      inversion Hall as [|? ? Hs _]. by unfold succeeded in Hs.
    + done.
    + exact Hprogress.
    + split; [|done]. intros Hin.
      rewrite Forall_forall in Hgen.
      by destruct (successLine_not_generated _ (Hgen _ Hin)).
    + split; [done|]. intros Hw. exfalso.
      assert (writes [(op, Some e)] = []) as Hlast by (by destruct op).
      rewrite writes_app, Hlast, app_nil_r in Hw.
      apply (f_equal length) in Hw.
      rewrite !length_fmap, length_app, length_fmap in Hw. cbn in Hw. lia.
Qed.

(** The cards of the pages that the loop has made, from the descriptors
    alone. *)
Lemma PagesRun_cards exercisesDir outputDir i metas w es w' :
  PagesRun exercisesDir outputDir i metas w es w' ->
  executeCard escHTML escURL <$> es = imap (fun k => indexCard (i + k)) metas.
Proof.
  induction 1 as [i w|i meta metas content es w w' Hfs Hrun IH]; [done|].
  rewrite fmap_cons, imap_cons, IH. f_equal.
  - by rewrite Nat.add_0_r.
  - apply imap_ext. intros k m _. cbn. by rewrite Nat.add_succ_r.
Qed.

(** The write that follows the pages of all the descriptors is that of
    the landing page; a run that stops before it has written fewer
    files. *)
Lemma run_index_write exercisesDir outputDir w r w' :
  MainRun exercisesDir outputDir w r w' ->
  (r = Ok tt -> is_Some (writes (newEvents w w') !! length exerciseMetadata)) /\
  forall d, writes (newEvents w w') !! length exerciseMetadata = Some d ->
    exists es w1,
      PagesRun exercisesDir outputDir 0 exerciseMetadata (afterMkdir outputDir w) es w1 /\
      d = (indexPath outputDir, execIndex {| Exercises := es |}).
Proof.
  inversion 1 as [es w1 Hrun|e He|w2 Hfail|es w1 k e w2 Hrun Hfail|es w1 k e w2 Hrun Hfail];
    subst.
  - destruct (success_world _ _ _ _ _ Hrun) as (Hlog & _).
    pose proof (PagesRun_take _ _ _ _ _ _ _ Hrun) as Hlen.
    unfold newEvents. rewrite Hlog, drop_app_length. unfold allOps.
    change (MkdirAll outputDir :: ?l) with ([MkdirAll outputDir] ++ l).
    rewrite !okEvents_app, !writes_app. cbn [okEvents fmap list_fmap writes omap list_omap app].
    rewrite lookup_app_r by lia. rewrite Hlen, Nat.sub_diag.
    split; [by eexists|]. intros d [= <-]. by exists es, w1.
  - unfold newEvents. cbn [log reported logged]. rewrite drop_app_length.
    split; [done|]. intros d Hd. cbn [writes omap list_omap] in Hd.
    by rewrite lookup_nil in Hd.
  - split; [done|]. intros d Hd. exfalso.
    destruct Hfail as (k & meta & es & w1 & j & e & w3 & Hk & Hrun & Hf & ->).
    cbv zeta in Hf. cbn [Nat.add] in *.
    destruct (PagesRun_world _ _ _ _ _ _ _ Hrun) as (Hlog & _).
    pose proof (FailsAt_writes _ _ _ _ _ Hf (pageOps_write_last _ _ _ _)) as Hw.
    pose proof (PagesRun_take _ _ _ _ _ _ _ Hrun) as Hlen.
    destruct Hf as (op & Hop & Hlog' & _).
    apply lookup_lt_Some in Hk. apply lookup_lt_Some in Hd.
    unfold newEvents in Hd. cbn [log reported] in Hd.
    rewrite Hlog', Hlog in Hd. unfold afterMkdir in Hd. cbn [log logged] in Hd.
    rewrite <- !app_assoc, drop_app_length, !writes_app, Hw in Hd.
    rewrite !length_app, Hlen, length_take in Hd.
    assert (length (writes [(op, Some e)]) = 0) as Hop' by (by destruct op).
    rewrite Hop' in Hd. cbn in Hd. lia.
  - split; [done|]. intros d Hd. exfalso.
    destruct (PagesRun_world _ _ _ _ _ _ _ Hrun) as (Hlog & _).
    pose proof (FailsAt_writes _ _ _ _ _ Hfail (indexOps_write_last _ _)) as Hw.
    pose proof (PagesRun_take _ _ _ _ _ _ _ Hrun) as Hlen.
    destruct Hfail as (op & Hop & Hlog' & _).
    apply lookup_lt_Some in Hd.
    unfold newEvents in Hd. cbn [log reported] in Hd.
    rewrite Hlog', Hlog in Hd. unfold afterMkdir in Hd. cbn [log logged] in Hd.
    rewrite <- !app_assoc, drop_app_length, !writes_app, Hw in Hd.
    rewrite !length_app, Hlen in Hd.
    assert (length (writes [(op, Some e)]) = 0) as Hop' by (by destruct op).
    rewrite Hop' in Hd. cbn in Hd. lia.
  - split; [done|]. intros d Hd.
    destruct (PagesRun_world _ _ _ _ _ _ _ Hrun) as (Hlog & _).
    pose proof (PagesRun_take _ _ _ _ _ _ _ Hrun) as Hlen.
    destruct Hfail as (op & Hop & Hlog' & _).
    unfold newEvents in Hd. cbn [log reported] in Hd.
    rewrite Hlog' in Hd. unfold afterIndex in Hd. cbn [log] in Hd.
    rewrite Hlog in Hd. unfold afterMkdir in Hd. cbn [log logged] in Hd.
    rewrite <- !app_assoc, drop_app_length, !writes_app in Hd.
    cbn [okEvents fmap list_fmap writes omap list_omap app] in Hd.
    rewrite lookup_app_r in Hd by lia. rewrite Hlen, Nat.sub_diag in Hd.
    injection Hd as <-. by exists es, w1.
Qed.

(** C3. In every run, the file written after the pages of the descriptors
    is the landing page, and what is written to it is the fixed text of
    the template around one card per descriptor, in the order of the
    list: the card of the descriptor at position [i] shows the number [i],
    the emoji, the title and the description of that descriptor and links
    to its output filename, and the count shown is the number of
    descriptors.  This holds for every run that comes as far as writing
    it, also one that fails at the stylesheet afterwards; a run that
    succeeds does come that far.  The cards are as many as the
    descriptors. *)
Theorem index_lists_descriptors (exercisesDir outputDir : bytes) (w : World) :
  (forall d,
     writes (newEvents w (run exercisesDir outputDir w).2)
       !! length exerciseMetadata = Some d ->
     d = (indexPath outputDir,
          indexPageOpen ++ escHTML (Itoa (Z.of_nat (length exerciseMetadata))) ++
          indexCountClose ++ concat (imap indexCard exerciseMetadata) ++
          indexPageClose)) /\
  ((run exercisesDir outputDir w).1 = Ok tt ->
   is_Some (writes (newEvents w (run exercisesDir outputDir w).2)
              !! length exerciseMetadata)) /\
  length (imap indexCard exerciseMetadata) = length exerciseMetadata.
Proof.
  pose proof (main_cases exercisesDir outputDir w) as Hrun.
  destruct (run_index_write _ _ _ _ _ Hrun) as [Hsome Hindex].
  split_and!.
  - intros d Hd. destruct (Hindex d Hd) as (es & w1 & Hpages & ->).
    f_equal. unfold executeIndex. cbn [Exercises].
    rewrite (PagesRun_cards _ _ _ _ _ _ _ Hpages).
    by destruct (PagesRun_pages _ _ _ _ _ _ _ Hpages) as [-> _].
  - exact Hsome.
  - apply length_imap.
Qed.

(** C4, as the code has it.  After a run that succeeds the files written
    are, in order, the page of every descriptor, the landing page and the
    stylesheet, one write each; as a set, the landing page and the
    stylesheet together with the output file of every descriptor. *)
Theorem output_files_complete (exercisesDir outputDir : bytes) (w : World) :
  (run exercisesDir outputDir w).1 = Ok tt ->
  (writes (newEvents w (run exercisesDir outputDir w).2)).*1 =
    (pagePath outputDir <$> exerciseMetadata) ++
    [indexPath outputDir; cssPath outputDir] /\
  (list_to_set (writes (newEvents w (run exercisesDir outputDir w).2)).*1 : gset bytes) =
    {[ indexPath outputDir; cssPath outputDir ]} ∪
    list_to_set (pagePath outputDir <$> exerciseMetadata).
Proof.
  intros Hok. rewrite (run_writes exercisesDir outputDir w Hok).
  split; [done|]. rewrite list_to_set_app_L. cbn [list_to_set].
  rewrite (right_id_L ∅ (∪)). apply (comm_L (∪)).
Qed.




(** C8. Two runs on the same descriptor list whose sources hold the
    same contents, and which both succeed, perform the same operations
    with the same data, print the same lines, and leave the same contents
    in every output file, whatever else the two worlds hold. *)
Theorem regeneration_deterministic (exercisesDir outputDir : bytes) (w1 w2 : World) :
  (forall meta, meta ∈ exerciseMetadata ->
     fs w1 !! Join exercisesDir (Meta.Filename meta) =
     fs w2 !! Join exercisesDir (Meta.Filename meta)) ->
  (run exercisesDir outputDir w1).1 = Ok tt ->
  (run exercisesDir outputDir w2).1 = Ok tt ->
  newEvents w1 (run exercisesDir outputDir w1).2 =
    newEvents w2 (run exercisesDir outputDir w2).2 /\
  newLines w1 (run exercisesDir outputDir w1).2 =
    newLines w2 (run exercisesDir outputDir w2).2 /\
  forall p,
    p ∈ (pagePath outputDir <$> exerciseMetadata) ++
        [indexPath outputDir; cssPath outputDir] ->
    is_Some (fs (run exercisesDir outputDir w1).2 !! p) /\
    fs (run exercisesDir outputDir w1).2 !! p =
    fs (run exercisesDir outputDir w2).2 !! p.
Proof.
  intros Hsrc.
  pose proof (main_cases exercisesDir outputDir w1) as Hrun1.
  pose proof (main_cases exercisesDir outputDir w2) as Hrun2.
  destruct (run exercisesDir outputDir w1) as [r1 w1'].
  destruct (run exercisesDir outputDir w2) as [r2 w2']. cbn [fst snd] in *.
  intros -> ->.
  inversion Hrun1 as [es1 w11 Hp1| | | |]; subst.
  inversion Hrun2 as [es2 w21 Hp2| | | |]; subst.
  destruct (PagesRun_agree exercisesDir outputDir
              (fun q => exists meta, meta ∈ exerciseMetadata /\
                          q = Join exercisesDir (Meta.Filename meta))
              _ _ _ _ _ _ _ _ Hp1 Hp2) as [<- Hag].
  { intros meta Hin. by exists meta. }
  { intros q (meta & Hin & ->). cbn. by apply Hsrc. }
  destruct (success_world _ _ _ _ _ Hp1) as (Hlog1 & Hout1 & _).
  destruct (success_world _ _ _ _ _ Hp2) as (Hlog2 & Hout2 & _).
  unfold newEvents, newLines.
  rewrite Hlog1, Hlog2, Hout1, Hout2, !drop_app_length.
  split; [done|]. split; [done|].
  destruct (PagesRun_files _ _ _ _ _ _ _ Hp1) as [_ Hsome].
  intros p Hp. unfold afterSummary, afterCSS, afterIndex. cbn [fs].
  fold (indexPath outputDir). fold (cssPath outputDir). split.
  - rewrite !lookup_insert_is_Some.
    destruct (decide (cssPath outputDir = p)) as [|Hcss]; [by left|right; split; [done|]].
    right. split; [done|].
    destruct (decide (indexPath outputDir = p)) as [|Hidx]; [by left|right; split; [done|]].
    right. split; [done|].
    apply Hsome. apply elem_of_app in Hp as [Hp|Hp]; [done|].
    apply elem_of_cons in Hp as [->|Hp]; [done|].
    apply list_elem_of_singleton in Hp as ->. done.
  - apply (Agree_insert _ _ _ (cssPath outputDir) cssTemplate
             (Agree_insert _ _ _ (cssPath outputDir) []
                (Agree_insert _ _ _ (indexPath outputDir)
                   (execIndex {| Exercises := es1 |})
                   (Agree_insert _ _ _ (indexPath outputDir) [] Hag)))).
    apply elem_of_app in Hp as [Hp|Hp]; [do 4 left; by right|].
    apply elem_of_cons in Hp as [->|Hp]; [do 2 left; by right|].
    apply list_elem_of_singleton in Hp as ->. by right.
Qed.

(** * Further properties of the generator *)

(** ** The files follow the log *)

Lemma replay_app (evs1 evs2 : list Event) (f : gmap bytes bytes) :
  replay (evs1 ++ evs2) f = replay evs2 (replay evs1 f).
Proof. apply foldl_app. Qed.

Lemma overwrite_app (ws1 ws2 : list (bytes * bytes)) (f : gmap bytes bytes) :
  overwrite f (ws1 ++ ws2) = overwrite (overwrite f ws1) ws2.
Proof. apply foldl_app. Qed.

Lemma targets_app (a b : list Event) : targets (a ++ b) = targets a ++ targets b.
Proof. apply omap_app. Qed.

Lemma failedWrites_app (a b : list Event) :
  failedWrites (a ++ b) = failedWrites a ++ failedWrites b.
Proof. apply omap_app. Qed.

Lemma reads_app (a b : list Event) : reads (a ++ b) = reads a ++ reads b.
Proof. apply omap_app. Qed.

Lemma failedWrites_okEvents (ops : list Op) : failedWrites (okEvents ops) = [].
Proof. induction ops as [|[] ops IH]; cbn; by rewrite ?IH. Qed.

Lemma failedWrites_targets (evs : list Event) (p : bytes) :
  p ∈ failedWrites evs -> p ∈ targets evs.
Proof.
  unfold failedWrites, targets. rewrite !list_elem_of_omap.
  intros ([[] [e|]] & Hin & Hp); try done.
  injection Hp as ->. eexists. split; [exact Hin|done].
Qed.

Lemma applyEvent_lookup_ext (f g : gmap bytes bytes) (ev : Event) (p : bytes) :
  f !! p = g !! p -> applyEvent f ev !! p = applyEvent g ev !! p.
Proof.
  intros E. destruct ev as [[] [e|]]; cbn; try done.
  - destruct (decide (path = p)) as [->|Hne];
      [by rewrite !lookup_insert_eq | by rewrite !lookup_insert_ne].
  - destruct (decide (path = p)) as [->|Hne];
      [by rewrite !lookup_insert_eq | by rewrite !lookup_insert_ne].
Qed.

Lemma replay_lookup_ext (evs : list Event) (f g : gmap bytes bytes) (p : bytes) :
  f !! p = g !! p -> replay evs f !! p = replay evs g !! p.
Proof.
  revert f g. induction evs as [|ev evs IH]; intros f g E; [done|].
  cbn. apply IH. by apply applyEvent_lookup_ext.
Qed.

Lemma replay_frame (evs : list Event) (f : gmap bytes bytes) (p : bytes) :
  p ∉ targets evs -> replay evs f !! p = f !! p.
Proof.
  revert f. induction evs as [|ev evs IH]; intros f Hp; [done|].
  change (replay (ev :: evs) f) with (replay evs (applyEvent f ev)).
  assert ((p ∉ targets evs) /\ target ev.1 <> Some p) as [Hp1 Hp2].
  { unfold targets in Hp |- *. cbn [omap list_omap] in Hp.
    destruct (target ev.1) as [q|] eqn:Hq.
    - apply not_elem_of_cons in Hp as [Hne Hp]. split; [done|congruence].
    - done. }
  rewrite (IH _ Hp1).
  destruct ev as [[] [e|]]; cbn in Hp2 |- *; try done;
    rewrite lookup_insert_ne; congruence.
Qed.

Lemma replay_is_Some (evs : list Event) (f : gmap bytes bytes) (q : bytes) :
  is_Some (f !! q) -> is_Some (replay evs f !! q).
Proof.
  revert f. induction evs as [|ev evs IH]; intros f Hq; [done|].
  cbn. apply IH. destruct ev as [[] [e|]]; cbn; try done;
    rewrite lookup_insert_is_Some;
    (destruct (decide (path = q)); [by left|by right]).
Qed.

Lemma overwrite_frame (ws : list (bytes * bytes)) (f : gmap bytes bytes) (p : bytes) :
  p ∉ ws.*1 -> overwrite f ws !! p = f !! p.
Proof.
  revert f. induction ws as [|[q d] ws IH]; intros f Hp; [done|].
  cbn in Hp. apply not_elem_of_cons in Hp as [Hne Hp].
  change (overwrite f ((q, d) :: ws)) with (overwrite (<[q := d]> f) ws).
  rewrite (IH _ Hp). by rewrite lookup_insert_ne.
Qed.

Lemma overwrite_indep (ws : list (bytes * bytes)) (f g : gmap bytes bytes) (p : bytes) :
  p ∈ ws.*1 -> overwrite f ws !! p = overwrite g ws !! p.
Proof.
  revert f g. induction ws as [|[q d] ws IH]; intros f g Hp.
  - by apply elem_of_nil in Hp.
  - change (overwrite ?h ((q, d) :: ws)) with (overwrite (<[q := d]> h) ws).
    destruct (decide (p ∈ ws.*1)) as [Hin|Hout]; [by apply IH|].
    cbn in Hp. apply elem_of_cons in Hp as [->|Hp]; [|done].
    by rewrite !overwrite_frame, !lookup_insert_eq.
Qed.

Lemma overwrite_twice (ws : list (bytes * bytes)) (f : gmap bytes bytes) :
  overwrite (overwrite f ws) ws = overwrite f ws.
Proof.
  apply map_eq. intros p.
  destruct (decide (p ∈ ws.*1)) as [Hin|Hout].
  - by apply overwrite_indep.
  - by rewrite !overwrite_frame.
Qed.

(** ** Every part of the generator is confined to its output files *)

Lemma Confined_silent {A} (S : bytes -> Prop) (m : M A) :
  (forall w, log (m w).2 = log w /\ fs (m w).2 = fs w) -> Confined S m.
Proof.
  intros H w. destruct (H w) as [Hlog Hfs]. exists [].
  rewrite Hlog, Hfs, app_nil_r. split_and!; try done.
Qed.

Lemma Confined_ret {A} (S : bytes -> Prop) (a : A) : Confined S (ret a).
Proof. by apply Confined_silent. Qed.

Lemma Confined_Printf (S : bytes -> Prop) (text : bytes) : Confined S (Printf text).
Proof. by apply Confined_silent. Qed.

Lemma Confined_at {A} (S : bytes -> Prop) (l : list A) (i : Z) : Confined S (at_ l i).
Proof.
  apply Confined_silent. intros w. unfold at_.
  destruct (i <? 0)%Z; [done|]. by destruct (l !! Z.to_nat i).
Qed.

Lemma Confined_mono {A} (S S' : bytes -> Prop) (m : M A) :
  (forall q, S q -> S' q) -> Confined S m -> Confined S' m.
Proof.
  intros HS Hm w. destruct (Hm w) as (evs & Hlog & Ht & Hsome & Hfs).
  exists evs. split_and!; try done. eapply Forall_impl; [exact Ht|done].
Qed.

Lemma Confined_bind {A B} (S : bytes -> Prop) (m : M A) (k : A -> M B) :
  Confined S m -> (forall a, Confined S (k a)) -> Confined S (bind m k).
Proof.
  intros Hm Hk w. destruct (Hm w) as (evs1 & Hlog1 & Ht1 & Hsome1 & Hfs1).
  unfold bind. destruct (m w) as [[a|e|c|] w1] eqn:E; cbn [fst snd] in *;
    try (exists evs1; by split_and!).
  destruct (Hk a w1) as (evs2 & Hlog2 & Ht2 & Hsome2 & Hfs2).
  exists (evs1 ++ evs2). split_and!.
  - by rewrite Hlog2, Hlog1, <- app_assoc.
  - rewrite targets_app. by apply Forall_app.
  - intros q Hq. by apply Hsome2, Hsome1.
  - intros p Hp. rewrite failedWrites_app in Hp.
    apply not_elem_of_app in Hp as [Hp1 Hp2].
    rewrite replay_app, (Hfs2 p Hp2). apply replay_lookup_ext. by apply Hfs1.
Qed.

Lemma Confined_wrap {A} (S : bytes -> Prop) (prefix : bytes) (m : M A) :
  Confined S m -> Confined S (wrap prefix m).
Proof.
  intros Hm w. destruct (Hm w) as (evs & H). exists evs.
  unfold wrap. by destruct (m w) as [[a|e|c|] w1].
Qed.

Lemma Confined_orExit {A} (S : bytes -> Prop) (report : bytes -> bytes) (m : M A) :
  Confined S m -> Confined S (orExit report m).
Proof.
  intros Hm w. destruct (Hm w) as (evs & H). exists evs.
  unfold orExit. by destruct (m w) as [[a|e|c|] w1].
Qed.

Lemma Confined_osMkdirAll (S : bytes -> Prop) (path : bytes) :
  Confined S (osMkdirAll path).
Proof.
  intros w. unfold osMkdirAll.
  destruct (fault (MkdirAll path) w) as [e|]; eexists [_]; cbn;
    (split_and!; [done|constructor|done|done]).
Qed.

Lemma Confined_osReadFile (S : bytes -> Prop) (path : bytes) :
  Confined S (osReadFile path).
Proof.
  intros w. unfold osReadFile.
  destruct (fault (ReadFile path) w) as [e|]; [|destruct (fs w !! path)];
    eexists [_]; cbn; (split_and!; [done|constructor|done|done]).
Qed.

Lemma Confined_templateParse (S : bytes -> Prop) (name : bytes) :
  Confined S (templateParse name).
Proof.
  intros w. unfold templateParse.
  destruct (fault (ParseTemplate name) w) as [e|]; eexists [_]; cbn;
    (split_and!; [done|constructor|done|done]).
Qed.

Lemma Confined_osCreate (S : bytes -> Prop) (path : bytes) :
  S path -> Confined S (osCreate path).
Proof.
  intros HS w. unfold osCreate.
  destruct (fault (Create path) w) as [e|]; eexists [_]; cbn.
  - split_and!; [done|by repeat constructor|done|done].
  - split_and!; [done|by repeat constructor| |done].
    intros q Hq. rewrite lookup_insert_is_Some.
    destruct (decide (path = q)); [by left|by right].
Qed.

Lemma Confined_fileWrite (S : bytes -> Prop) (path data : bytes) :
  S path -> Confined S (fileWrite path data).
Proof.
  intros HS w. unfold fileWrite.
  destruct (fault (Write path data) w) as [e|]; eexists [_]; cbn.
  - split_and!; [done|by repeat constructor| |].
    + intros q Hq. rewrite lookup_insert_is_Some.
      destruct (decide (path = q)); [by left|by right].
    + intros p Hp. apply not_elem_of_cons in Hp as [Hne _].
      by rewrite lookup_insert_ne.
  - split_and!; [done|by repeat constructor| |done].
    intros q Hq. rewrite lookup_insert_is_Some.
    destruct (decide (path = q)); [by left|by right].
Qed.

Lemma Confined_generateExercisePage (exercisesDir outputDir : bytes)
    (meta : Meta.t) (index : Z) :
  Confined (fun q => q = pagePath outputDir meta)
    (genPage exercisesDir outputDir meta index).
Proof.
  unfold generateExercisePage.
  apply Confined_bind; [apply Confined_wrap, Confined_osReadFile|intros content].
  apply Confined_bind.
  { destruct (0 <? index)%Z; [|apply Confined_ret].
    apply Confined_bind; [apply Confined_at|intros; apply Confined_ret]. }
  intros prevLink. apply Confined_bind.
  { destruct (index <? _)%Z; [|apply Confined_ret].
    apply Confined_bind; [apply Confined_at|intros; apply Confined_ret]. }
  intros nextLink.
  apply Confined_bind; [apply Confined_wrap, Confined_templateParse|intros _].
  apply Confined_bind; [by apply Confined_wrap, Confined_osCreate|intros _].
  apply Confined_bind; [by apply Confined_wrap, Confined_fileWrite|intros _].
  apply Confined_bind; [apply Confined_Printf|intros _; apply Confined_ret].
Qed.

Lemma Confined_exercisePages (exercisesDir outputDir : bytes)
    (metas : list Meta.t) (i : Z) (acc : list Exercise.t) :
  Confined (fun q => q ∈ pagePath outputDir <$> metas)
    (pagesLoop exercisesDir outputDir metas i acc).
Proof.
  revert i acc. induction metas as [|meta metas IH]; intros i acc.
  - apply Confined_ret.
  - cbn [exercisePages]. apply Confined_bind.
    + apply Confined_orExit.
      eapply Confined_mono; [|apply Confined_generateExercisePage].
      intros q ->. cbn. by left.
    + intros e. eapply Confined_mono; [|apply IH].
      intros q Hq. cbn. by right.
Qed.

Lemma Confined_main (exercisesDir outputDir : bytes) :
  Confined (fun q => q ∈ outputPaths outputDir) (run exercisesDir outputDir).
Proof.
  unfold main, outputPaths.
  apply Confined_bind; [apply Confined_orExit, Confined_osMkdirAll|intros _].
  apply Confined_bind.
  { eapply Confined_mono; [|apply Confined_exercisePages].
    intros q Hq. apply elem_of_app. by left. }
  intros es. apply Confined_bind.
  { apply Confined_orExit. unfold generateIndexPage.
    assert (indexPath outputDir ∈
              (pagePath outputDir <$> exerciseMetadata) ++
              [indexPath outputDir; cssPath outputDir]) as Hin.
    { apply elem_of_app. right. by left. }
    apply Confined_bind; [apply Confined_wrap, Confined_templateParse|intros _].
    apply Confined_bind; [by apply Confined_wrap, Confined_osCreate|intros _].
    apply Confined_bind; [by apply Confined_wrap, Confined_fileWrite|intros _].
    apply Confined_Printf. }
  intros _. apply Confined_bind.
  { apply Confined_orExit. unfold copyCSSFile, osWriteFile.
    assert (cssPath outputDir ∈
              (pagePath outputDir <$> exerciseMetadata) ++
              [indexPath outputDir; cssPath outputDir]) as Hin.
    { apply elem_of_app. right. right. by left. }
    apply Confined_bind; [|intros _; apply Confined_Printf].
    apply Confined_wrap.
    apply Confined_bind; [by apply Confined_osCreate|intros _].
    by apply Confined_fileWrite. }
  intros _.
  apply Confined_bind; [apply Confined_Printf|intros _].
  apply Confined_bind; [apply Confined_Printf|intros _].
  apply Confined_Printf.
Qed.

(** ** What the operations of a stage do to the files *)

Lemma newEvents_app (w w' : World) (evs : list Event) :
  log w' = log w ++ evs -> newEvents w w' = evs.
Proof. intros E. unfold newEvents. by rewrite E, drop_app_length. Qed.

Lemma newLines_app (w w' : World) (lines : list bytes) :
  stdout w' = stdout w ++ lines -> newLines w w' = lines.
Proof. intros E. unfold newLines. by rewrite E, drop_app_length. Qed.

Lemma pagesOps_cons exercisesDir outputDir meta metas (e : Exercise.t) es :
  pagesOps exercisesDir outputDir (meta :: metas) (e :: es) =
  pageOps exercisesDir outputDir meta e ++ pagesOps exercisesDir outputDir metas es.
Proof. done. Qed.

Lemma replay_pageOps (exercisesDir outputDir : bytes) (meta : Meta.t)
    (e : Exercise.t) (f : gmap bytes bytes) :
  replay (okEvents (pageOps exercisesDir outputDir meta e)) f =
  overwrite f (writes (okEvents (pageOps exercisesDir outputDir meta e))).
Proof. cbn. by rewrite insert_insert_eq. Qed.

Lemma replay_pagesOps (exercisesDir outputDir : bytes) (metas : list Meta.t)
    (es : list Exercise.t) (f : gmap bytes bytes) :
  replay (okEvents (pagesOps exercisesDir outputDir metas es)) f =
  overwrite f (writes (okEvents (pagesOps exercisesDir outputDir metas es))).
Proof.
  revert es f. induction metas as [|meta metas IH]; intros [|e es] f; try done.
  rewrite pagesOps_cons, okEvents_app, writes_app, replay_app, overwrite_app.
  by rewrite replay_pageOps, IH.
Qed.

Lemma replay_indexOps (outputDir : bytes) (es : list Exercise.t)
    (f : gmap bytes bytes) :
  replay (okEvents (indexOps outputDir es)) f =
  overwrite f (writes (okEvents (indexOps outputDir es))).
Proof. cbn. by rewrite insert_insert_eq. Qed.

Lemma replay_cssOps (outputDir : bytes) (f : gmap bytes bytes) :
  replay (okEvents (cssOps outputDir)) f =
  overwrite f (writes (okEvents (cssOps outputDir))).
Proof. cbn. by rewrite insert_insert_eq. Qed.

Lemma Stage_pageOps exercisesDir outputDir meta (e : Exercise.t) :
  Stage (pageOps exercisesDir outputDir meta e).
Proof.
  intros [|[|[|[|j]]]] op Hop; try done; injection Hop as <-;
    (split; [done|]); intros f p Hp; try done.
  cbn in Hp |- *. rewrite lookup_insert_ne; congruence.
Qed.

Lemma Stage_indexOps outputDir es : Stage (indexOps outputDir es).
Proof.
  intros [|[|[|j]]] op Hop; try done; injection Hop as <-;
    (split; [done|]); intros f p Hp; try done.
  cbn in Hp |- *. rewrite lookup_insert_ne; congruence.
Qed.

Lemma Stage_cssOps outputDir : Stage (cssOps outputDir).
Proof.
  intros [|[|j]] op Hop; try done; injection Hop as <-;
    (split; [done|]); intros f p Hp; try done.
  cbn in Hp |- *. rewrite lookup_insert_ne; congruence.
Qed.

Lemma Stage_directory outputDir : Stage [MkdirAll outputDir].
Proof. intros [|j] op Hop; try done. Qed.

(** ** How far a run has come *)

Lemma take_app_exact {A} (l k : list A) (n : nat) :
  n = length l -> take n (l ++ k) = l.
Proof. intros ->. apply take_app_length. Qed.

Lemma take_app_succ {A} (l k : list A) (a : A) (n : nat) :
  n = length l -> take (S n) (l ++ a :: k) = l ++ [a].
Proof.
  intros ->. induction l as [|x l IH]; cbn; [by rewrite take_0|by f_equal].
Qed.

Lemma PagesRun_outputs exercisesDir outputDir i k metas w es w1 :
  metas = take k exerciseMetadata -> k <= length exerciseMetadata ->
  PagesRun exercisesDir outputDir i metas w es w1 ->
  length (writes (okEvents (pagesOps exercisesDir outputDir metas es))) = k /\
  (writes (okEvents (pagesOps exercisesDir outputDir metas es))).*1 =
    take k (outputPaths outputDir) /\
  (fun e => generatedLine (Exercise.Filename e)) <$> es =
    generatedLine <$> take k outputNames.
Proof.
  intros -> Hk Hrun. split_and!.
  - rewrite (PagesRun_take _ _ _ _ _ _ _ Hrun), length_take. lia.
  - rewrite (PagesRun_paths _ _ _ _ _ _ _ Hrun). unfold outputPaths.
    rewrite take_app_le by (rewrite length_fmap; lia). by rewrite fmap_take.
  - destruct (PagesRun_fields _ _ _ _ _ _ _ Hrun) as (_ & Hnames & _).
    unfold outputNames. rewrite take_app_le by (rewrite length_fmap; lia).
    rewrite <- fmap_take.
    change ((fun e => generatedLine (Exercise.Filename e)) <$> es)
      with ((generatedLine ∘ Exercise.Filename) <$> es).
    by rewrite list_fmap_compose, Hnames.
Qed.

Lemma writes_after_directory (outputDir : bytes) (ops : list Op) :
  writes (okEvents (MkdirAll outputDir :: ops)) = writes (okEvents ops).
Proof. done. Qed.

Lemma replay_after_directory (outputDir : bytes) (ops : list Op)
    (f : gmap bytes bytes) :
  replay (okEvents (MkdirAll outputDir :: ops)) f = replay (okEvents ops) f.
Proof. done. Qed.

(** A run that stops: the stages done, the stage in which an operation
    failed, and what has been written and printed. *)
Lemma exit_shape exercisesDir outputDir w w' c :
  MainRun exercisesDir outputDir w (Exit c) w' ->
  exists done stage j op e,
    newEvents w w' = okEvents (done ++ take j stage) ++ [(op, Some e)] /\
    stage !! j = Some op /\ Stage stage /\
    (forall f, replay (okEvents done) f = overwrite f (writes (okEvents done))) /\
    length (writes (okEvents done)) < length exerciseMetadata + 2 /\
    (writes (okEvents done)).*1 =
      take (length (writes (okEvents done))) (outputPaths outputDir) /\
    newLines w w' =
      generatedLine <$> take (length (writes (okEvents done))) outputNames /\
    exists es w1,
      PagesRun exercisesDir outputDir 0
        (take (length (writes (okEvents done))) exerciseMetadata)
        (afterMkdir outputDir w) es w1.
Proof.
  inversion 1 as [|e He|w2 Hfail|es w1 k e w2 Hrun Hfail|es w1 k e w2 Hrun Hfail]; subst.
  - exists [], [MkdirAll outputDir], 0, (MkdirAll outputDir), e.
    split_and!; try done.
    + by apply newEvents_app.
    + apply Stage_directory.
    + cbn. lia.
    + by apply newLines_app; cbn; rewrite app_nil_r.
    + eexists _, _. cbn. constructor.
  - destruct Hfail as (k & meta & es & w1 & j & e & w3 & Hk & Hrun & Hf & ->).
    cbv zeta in Hf. cbn [Nat.add] in *.
    set (ops := pageOps exercisesDir outputDir meta
                  (pageOf k meta
                     (default [] (fs w1 !! Join exercisesDir (Meta.Filename meta))))) in *.
    destruct (PagesRun_world _ _ _ _ _ _ _ Hrun) as (Hlog & Hout & _).
    apply lookup_lt_Some in Hk as Hlt.
    destruct (PagesRun_outputs _ _ _ k _ _ _ _ eq_refl ltac:(lia) Hrun)
      as (Hlen & Hpaths & Hlines).
    destruct Hf as (op & Hop & Hlog' & Hout' & _).
    exists (MkdirAll outputDir :: pagesOps exercisesDir outputDir
              (take k exerciseMetadata) es), ops, j, op, e.
    rewrite writes_after_directory, Hlen. split_and!; try done.
    + apply newEvents_app. cbn [log reported]. rewrite Hlog', Hlog. unfold afterMkdir.
      cbn [log logged].
      change (MkdirAll outputDir :: ?l) with ([MkdirAll outputDir] ++ l).
      by rewrite !okEvents_app, <- !app_assoc.
    + apply Stage_pageOps.
    + intros f. by rewrite replay_after_directory, replay_pagesOps.
    + lia.
    + apply newLines_app. cbn [stdout reported]. by rewrite Hout', Hout, Hlines.
    + by exists es, w1.
  - destruct (PagesRun_world _ _ _ _ _ _ _ Hrun) as (Hlog & Hout & _).
    destruct (PagesRun_outputs _ _ _ (length exerciseMetadata) _ _ _ _
                (eq_sym (firstn_all _)) ltac:(lia) Hrun) as (Hlen & Hpaths & Hlines).
    pose proof Hfail as (op & Hop & Hlog' & Hout' & _).
    exists (MkdirAll outputDir :: pagesOps exercisesDir outputDir exerciseMetadata es),
      (indexOps outputDir es), k, op, e.
    rewrite writes_after_directory, Hlen. split_and!; try done.
    + apply newEvents_app. cbn [log reported]. rewrite Hlog', Hlog. unfold afterMkdir.
      cbn [log logged].
      change (MkdirAll outputDir :: ?l) with ([MkdirAll outputDir] ++ l).
      by rewrite !okEvents_app, <- !app_assoc.
    + apply Stage_indexOps.
    + intros f. by rewrite replay_after_directory, replay_pagesOps.
    + lia.
    + apply newLines_app. cbn [stdout reported]. by rewrite Hout', Hout, Hlines.
    + exists es, w1. by rewrite firstn_all.
  - destruct (PagesRun_world _ _ _ _ _ _ _ Hrun) as (Hlog & Hout & _).
    destruct (PagesRun_outputs _ _ _ (length exerciseMetadata) _ _ _ _
                (eq_sym (firstn_all _)) ltac:(lia) Hrun) as (Hlen & Hpaths & Hlines).
    pose proof Hfail as (op & Hop & Hlog' & Hout' & _).
    exists (MkdirAll outputDir :: pagesOps exercisesDir outputDir exerciseMetadata es
              ++ indexOps outputDir es),
      (cssOps outputDir), k, op, e.
    assert (length (writes (okEvents
              (MkdirAll outputDir :: pagesOps exercisesDir outputDir exerciseMetadata es
                 ++ indexOps outputDir es))) = S (length exerciseMetadata)) as Hlen'.
    { rewrite writes_after_directory, okEvents_app, writes_app, length_app, Hlen.
      cbn. lia. }
    rewrite Hlen'. split_and!; try done.
    + apply newEvents_app. cbn [log reported]. rewrite Hlog'. unfold afterIndex.
      cbn [log]. rewrite Hlog. unfold afterMkdir. cbn [log logged].
      change (MkdirAll outputDir :: ?l) with ([MkdirAll outputDir] ++ l).
      by rewrite !okEvents_app, <- !app_assoc.
    + apply Stage_cssOps.
    + intros f. rewrite replay_after_directory, writes_after_directory.
      by rewrite okEvents_app, replay_app, writes_app, overwrite_app,
        replay_pagesOps, replay_indexOps.
    + lia.
    + rewrite writes_after_directory, okEvents_app, writes_app, fmap_app.
      rewrite (PagesRun_paths _ _ _ _ _ _ _ Hrun). unfold outputPaths.
      by rewrite take_app_succ by (by rewrite length_fmap).
    + apply newLines_app. cbn [stdout reported]. rewrite Hout'. unfold afterIndex.
      cbn [stdout]. rewrite Hout, Hlines, <- app_assoc. f_equal.
      unfold outputNames.
      rewrite take_app_exact, take_app_succ by (by rewrite length_fmap).
      by rewrite fmap_app.
    + exists es, w1. by rewrite firstn_all2 by lia.
Qed.

(** A run that succeeds: its operations, what it has written and what
    it has printed. *)
Lemma success_shape exercisesDir outputDir w es w1 :
  PagesRun exercisesDir outputDir 0 exerciseMetadata (afterMkdir outputDir w) es w1 ->
  let w' := afterSummary outputDir (length es)
              (afterCSS outputDir (afterIndex outputDir es w1)) in
  newEvents w w' = okEvents (allOps exercisesDir outputDir es) /\
  (forall f, replay (okEvents (allOps exercisesDir outputDir es)) f =
             overwrite f (writes (okEvents (allOps exercisesDir outputDir es)))) /\
  length (writes (okEvents (allOps exercisesDir outputDir es))) =
    length exerciseMetadata + 2 /\
  newLines w w' =
    (generatedLine <$> outputNames) ++ summary outputDir (length exerciseMetadata).
Proof.
  intros Hrun w'.
  destruct (success_world _ _ _ _ _ Hrun) as (Hlog & Hout & _ & _ & _ & Hpaths).
  fold w' in Hlog, Hout.
  destruct (PagesRun_outputs _ _ _ (length exerciseMetadata) _ _ _ _
              (eq_sym (firstn_all _)) ltac:(lia) Hrun) as (Hlen & _ & Hlines).
  destruct (PagesRun_pages _ _ _ _ _ _ _ Hrun) as [Hes _].
  split_and!.
  - by apply newEvents_app.
  - intros f. unfold allOps. rewrite replay_after_directory, writes_after_directory.
    by rewrite !okEvents_app, !replay_app, !writes_app, !overwrite_app,
      replay_pagesOps, replay_indexOps, replay_cssOps.
  - unfold allOps. rewrite writes_after_directory, !okEvents_app, !writes_app.
    rewrite !length_app, Hlen. cbn. lia.
  - apply newLines_app. rewrite Hout, Hlines, Hes. f_equal.
    unfold outputNames.
    rewrite take_app_exact by (by rewrite length_fmap).
    by rewrite fmap_app, <- app_assoc.
Qed.

Lemma applyEvent_failed (f : gmap bytes bytes) (op : Op) (e : bytes) :
  applyEvent f (op, Some e) = f.
Proof. by destruct op. Qed.

Lemma writes_failed (op : Op) (e : bytes) : writes [(op, Some e)] = [].
Proof. by destruct op. Qed.

Lemma failedWrites_one (op : Op) (e : bytes) (p : bytes) :
  p ∈ failedWrites [(op, Some e)] -> target op = Some p.
Proof.
  destruct op; cbn; try by intros ?%elem_of_nil.
  by intros ->%list_elem_of_singleton.
Qed.

(** The events of a run say what has become of every file but the one
    a failed operation was about. *)
Lemma run_replay (exercisesDir outputDir : bytes) (w : World) (r : result unit)
    (w' : World) (f : gmap bytes bytes) (p : bytes) :
  MainRun exercisesDir outputDir w r w' ->
  (forall op e, (op, Some e) ∈ newEvents w w' -> target op <> Some p) ->
  (p ∉ failedWrites (newEvents w w')) /\
  replay (newEvents w w') f !! p = overwrite f (writes (newEvents w w')) !! p.
Proof.
  intros Hrun Hp. destruct r as [[]|e|c|].
  - inversion Hrun as [es w1 Hpages| | | |]; subst.
    destruct (success_shape _ _ _ _ _ Hpages) as (-> & Hreplay & _).
    rewrite failedWrites_okEvents, Hreplay. split; [apply not_elem_of_nil|done].
  - inversion Hrun.
  - destruct (exit_shape _ _ _ _ _ Hrun)
      as (done & stage & j & op & e & Hev & Hop & Hstage & Hdone & _).
    rewrite Hev in Hp |- *.
    assert (target op <> Some p) as Hne.
    { apply (Hp op e). apply elem_of_app. right. by left. }
    destruct (Hstage j op Hop) as [Hw Hf].
    split.
    + rewrite failedWrites_app, failedWrites_okEvents. cbn [app].
      by intros ?%failedWrites_one.
    + rewrite replay_app, okEvents_app, replay_app, !writes_app, Hw, writes_failed.
      rewrite !app_nil_r. cbn [replay foldl]. rewrite applyEvent_failed.
      by rewrite (Hf _ _ Hne), Hdone.
  - inversion Hrun.
Qed.

(** A run is confined to its output files. *)
Lemma run_confined (exercisesDir outputDir : bytes) (w : World) :
  Forall (fun p => p ∈ outputPaths outputDir)
    (targets (newEvents w (run exercisesDir outputDir w).2)) /\
  (forall q, is_Some (fs w !! q) ->
             is_Some (fs (run exercisesDir outputDir w).2 !! q)) /\
  (forall p, p ∉ outputPaths outputDir ->
             fs (run exercisesDir outputDir w).2 !! p = fs w !! p).
Proof.
  destruct (Confined_main exercisesDir outputDir w) as (evs & Hlog & Ht & Hsome & Hfs).
  rewrite (newEvents_app _ _ _ Hlog). split_and!; [done..|].
  intros p Hp.
  assert (p ∉ targets evs) as Hout.
  { intros Hin. apply Hp. by eapply (proj1 (Forall_forall _ _) Ht). }
  rewrite Hfs, replay_frame; [done..|].
  intros Hin. by apply Hout, failedWrites_targets.
Qed.

(** The files after a run, from the files before it and its writes. *)
Lemma run_files (exercisesDir outputDir : bytes) (w : World) :
  (forall p,
     (forall op e, (op, Some e) ∈ newEvents w (run exercisesDir outputDir w).2 ->
                   target op <> Some p) ->
     fs (run exercisesDir outputDir w).2 !! p =
     overwrite (fs w) (writes (newEvents w (run exercisesDir outputDir w).2)) !! p) /\
  ((run exercisesDir outputDir w).1 = Ok tt ->
   fs (run exercisesDir outputDir w).2 =
   overwrite (fs w) (writes (newEvents w (run exercisesDir outputDir w).2))).
Proof.
  pose proof (main_cases exercisesDir outputDir w) as Hrun.
  destruct (Confined_main exercisesDir outputDir w) as (evs & Hlog & _ & _ & Hfs).
  assert (forall p,
     (forall op e, (op, Some e) ∈ newEvents w (run exercisesDir outputDir w).2 ->
                   target op <> Some p) ->
     fs (run exercisesDir outputDir w).2 !! p =
     overwrite (fs w) (writes (newEvents w (run exercisesDir outputDir w).2)) !! p)
    as Hall.
  { intros p Hp.
    destruct (run_replay _ _ _ _ _ (fs w) p Hrun Hp) as [Hfail Hreplay].
    rewrite (newEvents_app _ _ _ Hlog) in Hfail, Hreplay |- *.
    by rewrite Hfs. }
  split; [done|]. intros Hok. apply map_eq. intros p. apply Hall.
  intros op e Hin. exfalso.
  destruct (run exercisesDir outputDir w) as [r w']. cbn [fst snd] in *. subst r.
  inversion Hrun as [es w1 Hpages| | | |]; subst.
  destruct (success_shape _ _ _ _ _ Hpages) as (Hev & _).
  rewrite Hev in Hin. unfold okEvents in Hin.
  apply list_elem_of_fmap in Hin as (op' & [=] & _).
Qed.

(** ** Sources *)

(** A page that has been made had its source, in the files the run
    started from or among the pages written before it. *)
Lemma PagesRun_source exercisesDir outputDir i metas w es w' k meta :
  PagesRun exercisesDir outputDir i metas w es w' ->
  metas !! k = Some meta ->
  is_Some (fs w !! sourcePath exercisesDir meta) \/
  sourcePath exercisesDir meta ∈ pagePath outputDir <$> take k metas.
Proof.
  intros Hrun. revert k.
  induction Hrun as [i w|i meta0 metas content es w w' Hfs Hrun IH]; intros k Hk.
  - by rewrite lookup_nil in Hk.
  - destruct k as [|k]; cbn in Hk.
    + injection Hk as <-. left. by eexists.
    + destruct (IH k Hk) as [Hsome|Hin]; [|right; cbn; by right].
      unfold afterPage in Hsome. cbn [fs pageOf Exercise.Filename] in Hsome.
      fold (pagePath outputDir meta0) in Hsome.
      destruct (decide (pagePath outputDir meta0 = sourcePath exercisesDir meta))
        as [E|Hne]; [right; cbn; rewrite <- E; by left|left].
      by rewrite !lookup_insert_ne in Hsome.
Qed.

(** ** The files of the pages *)

Lemma PagesRun_frame exercisesDir outputDir i metas w es w' (p : bytes) :
  PagesRun exercisesDir outputDir i metas w es w' ->
  p ∉ pagePath outputDir <$> metas -> fs w' !! p = fs w !! p.
Proof.
  induction 1 as [i w|i meta metas content es w w' Hfs Hrun IH]; intros Hp; [done|].
  cbn in Hp. apply not_elem_of_cons in Hp as [Hne Hp].
  rewrite (IH Hp). unfold afterPage. cbn [fs pageOf Exercise.Filename].
  fold (pagePath outputDir meta). by rewrite !lookup_insert_ne.
Qed.

Lemma PagesRun_page_file exercisesDir outputDir i metas w es w' k meta e :
  PagesRun exercisesDir outputDir i metas w es w' ->
  metas !! k = Some meta -> es !! k = Some e ->
  pagePath outputDir meta ∉ pagePath outputDir <$> drop (S k) metas ->
  fs w' !! pagePath outputDir meta = Some (execExercise e).
Proof.
  intros Hrun. revert k.
  induction Hrun as [i w|i meta0 metas content es w w' Hfs Hrun IH];
    intros k Hk He Hp.
  - by rewrite lookup_nil in Hk.
  - destruct k as [|k]; cbn in Hk, He, Hp.
    + injection Hk as <-. injection He as <-.
      rewrite (PagesRun_frame _ _ _ _ _ _ _ _ Hrun) by (by rewrite drop_0 in Hp).
      unfold afterPage. cbn [fs pageOf Exercise.Filename].
      fold (pagePath outputDir meta0). by rewrite lookup_insert_eq.
    + by eapply IH.
Qed.

Lemma PagesRun_content exercisesDir outputDir i metas w es w' k meta :
  PagesRun exercisesDir outputDir i metas w es w' ->
  metas !! k = Some meta ->
  exists content,
    es !! k = Some (pageOf (i + k) meta content) /\
    (sourcePath exercisesDir meta ∉ pagePath outputDir <$> take k metas ->
     fs w !! sourcePath exercisesDir meta = Some content).
Proof.
  intros Hrun. revert k.
  induction Hrun as [i w|i meta0 metas content es w w' Hfs Hrun IH]; intros k Hk.
  - by rewrite lookup_nil in Hk.
  - destruct k as [|k]; cbn in Hk.
    + injection Hk as <-. exists content. by rewrite Nat.add_0_r.
    + destruct (IH k Hk) as (content' & He & Hsrc). exists content'.
      replace (i + S k) with (S i + k) by lia. split; [done|].
      intros Hp. cbn in Hp. apply not_elem_of_cons in Hp as [Hne Hp].
      rewrite <- (Hsrc Hp). unfold afterPage. cbn [fs pageOf Exercise.Filename].
      fold (pagePath outputDir meta0). by rewrite !lookup_insert_ne.
Qed.

Lemma reads_pagesOps exercisesDir outputDir (metas : list Meta.t)
    (es : list Exercise.t) :
  length es = length metas ->
  reads (okEvents (pagesOps exercisesDir outputDir metas es)) =
    sourcePath exercisesDir <$> metas /\
  length (pagesOps exercisesDir outputDir metas es) = 4 * length metas.
Proof.
  revert es. induction metas as [|meta metas IH]; intros [|e es] Hlen; try done.
  injection Hlen as Hlen. destruct (IH es Hlen) as [Hreads Hcount].
  rewrite pagesOps_cons, okEvents_app, reads_app, length_app, Hreads, Hcount.
  split; [done|]. cbn. lia.
Qed.

(** The files of the output after a run that succeeds. *)
Lemma run_page_files (exercisesDir outputDir : bytes) (w : World) :
  (run exercisesDir outputDir w).1 = Ok tt ->
  fs (run exercisesDir outputDir w).2 !! cssPath outputDir = Some cssTemplate /\
  exists es,
    length es = length exerciseMetadata /\
    (indexPath outputDir <> cssPath outputDir ->
     fs (run exercisesDir outputDir w).2 !! indexPath outputDir =
       Some (execIndex {| Exercises := es |})) /\
    forall k meta, exerciseMetadata !! k = Some meta ->
      exists content,
        es !! k = Some (pageOf k meta content) /\
        (sourcePath exercisesDir meta ∉ take k (outputPaths outputDir) ->
         fs w !! sourcePath exercisesDir meta = Some content) /\
        (pagePath outputDir meta ∉ drop (S k) (outputPaths outputDir) ->
         fs (run exercisesDir outputDir w).2 !! pagePath outputDir meta =
           Some (execExercise (pageOf k meta content))).
Proof.
  pose proof (main_cases exercisesDir outputDir w) as Hrun.
  destruct (run exercisesDir outputDir w) as [r w']. cbn [fst snd] in *.
  intros ->. inversion Hrun as [es w1 Hpages| | | |]; subst.
  destruct (PagesRun_pages _ _ _ _ _ _ _ Hpages) as [Hlen _].
  unfold afterSummary, afterCSS, afterIndex. cbn [fs].
  fold (indexPath outputDir). fold (cssPath outputDir).
  split; [by rewrite lookup_insert_eq|].
  exists es. split; [done|]. split.
  - intros Hne. do 2 (rewrite lookup_insert_ne by done). by rewrite lookup_insert_eq.
  - intros k meta Hk. apply lookup_lt_Some in Hk as Hlt.
    destruct (PagesRun_content _ _ _ _ _ _ _ k meta Hpages Hk)
      as (content & He & Hsrc).
    exists content. split; [done|]. split.
    + intros Hp. unfold afterMkdir in Hsrc. cbn [fs logged] in Hsrc.
      apply Hsrc. unfold outputPaths in Hp.
      rewrite take_app_le in Hp by (rewrite length_fmap; lia).
      by rewrite fmap_take.
    + intros Hp. unfold outputPaths in Hp.
      rewrite drop_app_le in Hp by (rewrite length_fmap; lia).
      apply not_elem_of_app in Hp as [Hp1 Hp2].
      apply not_elem_of_cons in Hp2 as [Hidx Hp2].
      apply not_elem_of_cons in Hp2 as [Hcss _].
      rewrite !lookup_insert_ne by done.
      eapply PagesRun_page_file; [exact Hpages|exact Hk|exact He|].
      by rewrite fmap_drop.
Qed.

Lemma outputName_nonempty (f : bytes) : outputName f <> [].
Proof. unfold outputName. by destruct (Strings.TrimSuffix f (str ".md")). Qed.

(** The operations of a run that succeeds. *)
Lemma run_trace (exercisesDir outputDir : bytes) (w : World) :
  (run exercisesDir outputDir w).1 = Ok tt ->
  exists es,
    length es = length exerciseMetadata /\
    Exercise.Filename <$> es =
      (fun m => outputName (Meta.Filename m)) <$> exerciseMetadata /\
    newEvents w (run exercisesDir outputDir w).2 =
      okEvents
        (MkdirAll outputDir ::
         concat (zip_with (pageOps exercisesDir outputDir) exerciseMetadata es) ++
         indexOps outputDir es ++ cssOps outputDir) /\
    reads (newEvents w (run exercisesDir outputDir w).2) =
      sourcePath exercisesDir <$> exerciseMetadata /\
    length (newEvents w (run exercisesDir outputDir w).2) =
      4 * length exerciseMetadata + 6.
Proof.
  pose proof (main_cases exercisesDir outputDir w) as Hrun.
  destruct (run exercisesDir outputDir w) as [r w']. cbn [fst snd] in *.
  intros ->. inversion Hrun as [es w1 Hpages| | | |]; subst.
  destruct (PagesRun_pages _ _ _ _ _ _ _ Hpages) as [Hlen _].
  destruct (PagesRun_fields _ _ _ _ _ _ _ Hpages) as (_ & Hnames & _).
  destruct (success_shape _ _ _ _ _ Hpages) as (-> & _).
  destruct (reads_pagesOps exercisesDir outputDir _ _ Hlen) as [Hreads Hcount].
  exists es. split; [done|]. split; [done|]. split; [done|]. unfold allOps.
  change (MkdirAll outputDir :: ?l) with ([MkdirAll outputDir] ++ l).
  rewrite !okEvents_app, !reads_app, Hreads. split; [by rewrite app_nil_r|].
  rewrite !length_app. unfold okEvents. rewrite !length_fmap, Hcount. cbn. lia.
Qed.

(** ** The properties *)

(** X1. Whatever happens, a run creates and writes only its output files
    (the page of every descriptor, the landing page and the stylesheet):
    no other file changes, and no file is removed. *)
Theorem run_touches_outputs_only (exercisesDir outputDir : bytes) (w : World) :
  Forall (fun p => p ∈ outputPaths outputDir)
    (targets (newEvents w (run exercisesDir outputDir w).2)) /\
  (forall q, is_Some (fs w !! q) ->
             is_Some (fs (run exercisesDir outputDir w).2 !! q)) /\
  (forall p, p ∉ outputPaths outputDir ->
             fs (run exercisesDir outputDir w).2 !! p = fs w !! p).
Proof. apply run_confined. Qed.

(** X2. No rollback, and the last write wins: after any run, a file
    holds what the last successful write to it wrote, and a file never
    written holds what it held before; the one exception is the file a
    failed operation was about.  After a run that succeeds this is every
    file. *)
Theorem files_follow_writes (exercisesDir outputDir : bytes) (w : World) :
  (forall p,
     (forall op e, (op, Some e) ∈ newEvents w (run exercisesDir outputDir w).2 ->
                   target op <> Some p) ->
     fs (run exercisesDir outputDir w).2 !! p =
     overwrite (fs w) (writes (newEvents w (run exercisesDir outputDir w).2)) !! p) /\
  ((run exercisesDir outputDir w).1 = Ok tt ->
   fs (run exercisesDir outputDir w).2 =
   overwrite (fs w) (writes (newEvents w (run exercisesDir outputDir w).2))).
Proof. apply run_files. Qed.

(** X3. After a run that succeeds the stylesheet holds [cssTemplate],
    the landing page holds the index of the exercises made, and the file
    of a descriptor holds the exercise page rendered from the HTML of its
    source, unless a later output file has the same path and has replaced
    it.  The source is the file the run started with, unless an earlier
    page of the run was written at its path. *)
Theorem written_files_hold_pages (exercisesDir outputDir : bytes) (w : World) :
  (run exercisesDir outputDir w).1 = Ok tt ->
  fs (run exercisesDir outputDir w).2 !! cssPath outputDir = Some cssTemplate /\
  exists es,
    length es = length exerciseMetadata /\
    (indexPath outputDir <> cssPath outputDir ->
     fs (run exercisesDir outputDir w).2 !! indexPath outputDir =
       Some (execIndex {| Exercises := es |})) /\
    forall k meta, exerciseMetadata !! k = Some meta ->
      exists content,
        es !! k = Some (pageOf k meta content) /\
        (sourcePath exercisesDir meta ∉ take k (outputPaths outputDir) ->
         fs w !! sourcePath exercisesDir meta = Some content) /\
        (pagePath outputDir meta ∉ drop (S k) (outputPaths outputDir) ->
         fs (run exercisesDir outputDir w).2 !! pagePath outputDir meta =
           Some (execExercise (pageOf k meta content))).
Proof. apply run_page_files. Qed.

(** X4. The progress lines are truthful in every run: a line
    [Generated NAME] has been printed for exactly the files written, in
    the order of writing, which is the order of the descriptors followed
    by the landing page and the stylesheet; the three lines of the summary
    follow when, and only when, all of them have been written. *)
Theorem progress_lines_match_writes (exercisesDir outputDir : bytes) (w : World) :
  exists k,
    k = length (writes (newEvents w (run exercisesDir outputDir w).2)) /\
    k <= length exerciseMetadata + 2 /\
    (writes (newEvents w (run exercisesDir outputDir w).2)).*1 =
      take k (outputPaths outputDir) /\
    newLines w (run exercisesDir outputDir w).2 =
      (generatedLine <$> take k outputNames) ++
      (if decide (k = length exerciseMetadata + 2)
       then summary outputDir (length exerciseMetadata) else []) /\
    ((run exercisesDir outputDir w).1 = Ok tt <-> k = length exerciseMetadata + 2).
Proof.
  pose proof (main_cases exercisesDir outputDir w) as Hrun.
  destruct (run exercisesDir outputDir w) as [r w']. cbn [fst snd] in *.
  destruct r as [[]|e|c|]; [|by inversion Hrun| |by inversion Hrun].
  - inversion Hrun as [es w1 Hpages| | | |]; subst.
    destruct (success_shape _ _ _ _ _ Hpages) as (Hev & _ & Hlen & Hlines).
    destruct (success_world _ _ _ _ _ Hpages) as (_ & _ & _ & _ & _ & Hpaths).
    exists (length exerciseMetadata + 2). rewrite Hev, Hlen, Hpaths, Hlines.
    rewrite decide_True by done.
    split_and!; try done.
    + unfold outputPaths.
      by rewrite firstn_all2 by (rewrite length_app, length_fmap; cbn; lia).
    + unfold outputNames.
      by rewrite firstn_all2 by (rewrite length_app, length_fmap; cbn; lia).
  - destruct (exit_shape _ _ _ _ _ Hrun)
      as (done & stage & j & op & e & Hev & Hop & Hstage & _ & Hlt & Hpaths & Hlines & _).
    destruct (Hstage j op Hop) as [Hw _].
    assert (writes (newEvents w w') = writes (okEvents done)) as Hwrites.
    { by rewrite Hev, okEvents_app, !writes_app, Hw, writes_failed, !app_nil_r. }
    exists (length (writes (okEvents done))). rewrite Hwrites, Hlines.
    rewrite decide_False by lia. rewrite app_nil_r.
    split_and!; try done; [lia|].
    split; [by inversion Hrun; subst|lia].
Qed.

(** X5. A source that is missing stops the run, whatever else happens:
    the run ends with exit status 1, the files written are the pages of the
    first descriptors, at most [k] of them (so no page from that descriptor
    on, no landing page and no stylesheet), and the success line is not
    printed.  (A page written earlier in the run at the very path of the
    source would count as the source.) *)
Theorem missing_source_stops_run (exercisesDir outputDir : bytes) (w : World)
    (k : nat) (meta : Meta.t) :
  exerciseMetadata !! k = Some meta ->
  fs w !! sourcePath exercisesDir meta = None ->
  sourcePath exercisesDir meta ∉ take k (outputPaths outputDir) ->
  (run exercisesDir outputDir w).1 = Exit 1 /\
  length (writes (newEvents w (run exercisesDir outputDir w).2)) <= k /\
  (writes (newEvents w (run exercisesDir outputDir w).2)).*1 =
    take (length (writes (newEvents w (run exercisesDir outputDir w).2)))
      (pagePath outputDir <$> exerciseMetadata) /\
  successLine ∉ newLines w (run exercisesDir outputDir w).2.
Proof.
  intros Hk Hnone Hnotin.
  apply lookup_lt_Some in Hk as Hlt.
  assert (forall K es w1,
            PagesRun exercisesDir outputDir 0 (take K exerciseMetadata)
              (afterMkdir outputDir w) es w1 -> K <= k) as Hbound.
  { intros K es w1 Hpages. destruct (decide (K <= k)) as [|Hgt]; [done|exfalso].
    destruct (PagesRun_source _ _ _ _ _ _ _ k meta Hpages) as [Hsome|Hin].
    - rewrite lookup_take_lt by lia. done.
    - unfold afterMkdir in Hsome. cbn [fs logged] in Hsome.
      rewrite Hnone in Hsome. by destruct Hsome.
    - apply Hnotin. unfold outputPaths.
      rewrite take_app_le by (rewrite length_fmap; lia).
      rewrite <- fmap_take. by rewrite take_take, Nat.min_l in Hin by lia. }
  pose proof (main_cases exercisesDir outputDir w) as Hrun.
  destruct (run exercisesDir outputDir w) as [r w']. cbn [fst snd] in *.
  destruct r as [[]|e|c|]; [|by inversion Hrun| |by inversion Hrun].
  - exfalso. inversion Hrun as [es w1 Hpages| | | |]; subst.
    rewrite <- (firstn_all exerciseMetadata) in Hpages at 1.
    apply Hbound in Hpages. lia.
  - destruct (exit_shape _ _ _ _ _ Hrun)
      as (done & stage & j & op & e & Hev & Hop & Hstage & _ & _ & Hpaths & Hlines
          & es & w1 & Hpages).
    destruct (Hstage j op Hop) as [Hw _].
    assert (writes (newEvents w w') = writes (okEvents done)) as Hwrites.
    { by rewrite Hev, okEvents_app, !writes_app, Hw, writes_failed, !app_nil_r. }
    rewrite Hwrites, Hlines. apply Hbound in Hpages. split_and!.
    + by inversion Hrun.
    + done.
    + rewrite Hpaths. unfold outputPaths.
      by rewrite take_app_le by (rewrite length_fmap; lia).
    + intros Hin. apply list_elem_of_fmap in Hin as (name & Hname & _).
      symmetry in Hname. revert Hname. apply successLine_not_generated.
      by exists name.
Qed.

(** X6. The operations of a run that succeeds, in order: the output
    directory is made; for each descriptor in turn its source is read, the
    page template is parsed, and its output file is created and written;
    then the index template is parsed and the landing page created and
    written; then the stylesheet is created and written.  Each source is
    read once, nothing else is read, and nothing fails. *)
Theorem successful_run_trace (exercisesDir outputDir : bytes) (w : World) :
  (run exercisesDir outputDir w).1 = Ok tt ->
  exists es,
    length es = length exerciseMetadata /\
    newEvents w (run exercisesDir outputDir w).2 =
      okEvents
        (MkdirAll outputDir ::
         concat (zip_with (pageOps exercisesDir outputDir) exerciseMetadata es) ++
         indexOps outputDir es ++ cssOps outputDir) /\
    reads (newEvents w (run exercisesDir outputDir w).2) =
      sourcePath exercisesDir <$> exerciseMetadata /\
    length (newEvents w (run exercisesDir outputDir w).2) =
      4 * length exerciseMetadata + 6.
Proof.
  intros Hok.
  destruct (run_trace exercisesDir outputDir w Hok) as (es & Hlen & _ & H).
  by exists es.
Qed.

(** X7. Running the generator again changes nothing: when no source is
    one of the output files, a second run on the files a successful run
    has left, if it succeeds, writes the same data and leaves every file
    as it was. *)
Theorem rerun_changes_nothing (exercisesDir outputDir : bytes) (w : World) :
  (forall meta, meta ∈ exerciseMetadata ->
     sourcePath exercisesDir meta ∉ outputPaths outputDir) ->
  (run exercisesDir outputDir w).1 = Ok tt ->
  (run exercisesDir outputDir (run exercisesDir outputDir w).2).1 = Ok tt ->
  writes (newEvents (run exercisesDir outputDir w).2
            (run exercisesDir outputDir (run exercisesDir outputDir w).2).2) =
    writes (newEvents w (run exercisesDir outputDir w).2) /\
  fs (run exercisesDir outputDir (run exercisesDir outputDir w).2).2 =
    fs (run exercisesDir outputDir w).2.
Proof.
  intros Hsrc Hok1 Hok2.
  destruct (run_files exercisesDir outputDir w) as [_ Hfs1].
  destruct (run_files exercisesDir outputDir (run exercisesDir outputDir w).2)
    as [_ Hfs2].
  specialize (Hfs1 Hok1). specialize (Hfs2 Hok2).
  destruct (run_confined exercisesDir outputDir w) as (_ & _ & Hframe).
  pose proof (main_cases exercisesDir outputDir w) as Hrun1.
  pose proof (main_cases exercisesDir outputDir (run exercisesDir outputDir w).2)
    as Hrun2.
  destruct (run exercisesDir outputDir w) as [r1 w1]. cbn [fst snd] in *. subst r1.
  destruct (run exercisesDir outputDir w1) as [r2 w2]. cbn [fst snd] in *. subst r2.
  assert (writes (newEvents w1 w2) = writes (newEvents w w1)) as Hsame.
  { inversion Hrun1 as [es1 wa Hp1| | | |].
    inversion Hrun2 as [es2 wb Hp2| | | |].
    destruct (PagesRun_agree exercisesDir outputDir
                (fun q => exists meta, meta ∈ exerciseMetadata /\
                            q = sourcePath exercisesDir meta)
                _ _ _ _ _ _ _ _ Hp1 Hp2) as [<- _].
    { intros meta Hin. by exists meta. }
    { intros q (meta & Hin & ->). unfold afterMkdir. cbn [fs logged].
      symmetry. apply Hframe. by apply Hsrc. }
    destruct (success_shape _ _ _ _ _ Hp1) as (Hev1 & _).
    destruct (success_shape _ _ _ _ _ Hp2) as (Hev2 & _).
    cbv zeta in Hev1, Hev2.
    match goal with H : afterSummary _ _ _ = w1 |- _ => rewrite H in Hev1 |- * end.
    match goal with H : afterSummary _ _ _ = w2 |- _ => rewrite H in Hev2 |- * end.
    by rewrite Hev1, Hev2. }
  split; [done|]. by rewrite Hfs2, Hsame, Hfs1, overwrite_twice.
Qed.

(** X8. In a run that succeeds the two directions of the navigation
    agree: the [next] of a page is the file name of the page after it, the
    [previous] of that page is the file name of the page before it, and
    both pages have been written under these names. *)
Theorem navigation_round_trip (exercisesDir outputDir : bytes) (w : World) :
  (run exercisesDir outputDir w).1 = Ok tt ->
  exists es,
    length es = length exerciseMetadata /\
    forall i e e', es !! i = Some e -> es !! S i = Some e' ->
      Exercise.NextLink e = Exercise.Filename e' /\
      Exercise.PrevLink e' = Exercise.Filename e /\
      (Write (Join outputDir (Exercise.Filename e)) (execExercise e), None)
        ∈ newEvents w (run exercisesDir outputDir w).2 /\
      (Write (Join outputDir (Exercise.Filename e')) (execExercise e'), None)
        ∈ newEvents w (run exercisesDir outputDir w).2.
Proof.
  pose proof (main_cases exercisesDir outputDir w) as Hrun.
  destruct (run exercisesDir outputDir w) as [r w']. cbn [fst snd] in *.
  intros ->. inversion Hrun as [es w1 Hpages| | | |]; subst.
  destruct (PagesRun_pages _ _ _ _ _ _ _ Hpages) as [Hlen Hpage].
  destruct (success_shape _ _ _ _ _ Hpages) as (-> & _).
  exists es. split; [done|]. intros i e e' He He'.
  assert (forall k x, es !! k = Some x ->
            (Write (Join outputDir (Exercise.Filename x)) (execExercise x), None)
              ∈ okEvents (allOps exercisesDir outputDir es)) as Hwritten.
  { intros k x Hx. unfold allOps.
    change (MkdirAll outputDir :: ?l) with ([MkdirAll outputDir] ++ l).
    rewrite !okEvents_app. apply elem_of_app. right. apply elem_of_app. left.
    by eapply PagesRun_written. }
  apply lookup_lt_Some in He as Hi. apply lookup_lt_Some in He' as Hi'.
  destruct (lookup_lt_is_Some_2 exerciseMetadata i ltac:(lia)) as [m Hm].
  destruct (lookup_lt_is_Some_2 exerciseMetadata (S i) ltac:(lia)) as [m' Hm'].
  destruct (Hpage i m Hm) as [c Hc]. destruct (Hpage (S i) m' Hm') as [c' Hc'].
  cbn [Nat.add] in Hc, Hc'.
  assert (e = pageOf i m c) as -> by congruence.
  assert (e' = pageOf (S i) m' c') as -> by congruence.
  split_and!; [| |by eapply Hwritten..].
  - cbn [pageOf Exercise.NextLink Exercise.Filename]. unfold nextLinkOf.
    by rewrite Hm'.
  - cbn [pageOf Exercise.PrevLink Exercise.Filename prevLinkOf]. by rewrite Hm.
Qed.

(** X9. The navigation strip of a generated page: the previous control
    is always there ([PrevLink] is never empty), labelled Home when it
    leads to [index.html] and Previous otherwise; the next control is
    there exactly when the page is not the last one, and then shows the
    number of the page it leads to. *)
Theorem page_navigation_strip (exercisesDir outputDir : bytes) (meta : Meta.t)
    (i : nat) (w : World) (e : Exercise.t) :
  i < length exerciseMetadata ->
  (genPage exercisesDir outputDir meta (Z.of_nat i) w).1 = Ok e ->
  Exercise.PrevLink e <> [] /\
  (Exercise.NextLink e = [] <-> S i = length exerciseMetadata) /\
  execExercise e =
    pageHead e ++
    prevControl (Exercise.PrevLink e)
      (if decide (Exercise.PrevLink e = str "index.html")
       then navHomeLabel else navPrevLabel) ++
    navBetween ++
    (if decide (S i = length exerciseMetadata) then []
     else nextControl (Exercise.NextLink e) (Z.of_nat i + 1)) ++
    exercisePageClose.
Proof.
  intros Hi He.
  destruct (generateExercisePage_cases exercisesDir outputDir meta i w Hi)
    as [(content & _ & Hpage)|(k & err & w' & Hpage & _)];
    rewrite Hpage in He; [|done].
  injection He as <-.
  assert (prevLinkOf i <> []) as Hprev.
  { destruct i as [|j]; [done|]. cbn.
    destruct (lookup_lt_is_Some_2 exerciseMetadata j ltac:(lia)) as [m ->].
    apply outputName_nonempty. }
  assert (nextLinkOf i = [] <-> S i = length exerciseMetadata) as Hnext.
  { unfold nextLinkOf. destruct (exerciseMetadata !! S i) as [m|] eqn:Hm; cbn.
    - apply lookup_lt_Some in Hm. split; [|lia].
      intros E. by apply outputName_nonempty in E.
    - apply lookup_ge_None in Hm. split; [lia|done]. }
  split; [done|]. split; [done|].
  unfold executeExercise, pageHead, prevControl, nextControl.
  cbn [pageOf Exercise.PrevLink Exercise.NextLink Exercise.Number Exercise.Title
       Exercise.Content].
  rewrite <- !app_assoc. do 7 f_equal.
  destruct (prevLinkOf i) as [|c l] eqn:Hp; [done|]. rewrite <- !app_assoc.
  do 5 f_equal.
  destruct (decide (S i = length exerciseMetadata)) as [Hlast|Hlast].
  - by rewrite (proj2 Hnext Hlast).
  - destruct (nextLinkOf i) as [|c' l'] eqn:Hn;
      [exfalso; apply Hlast; by apply Hnext|].
    by rewrite <- !app_assoc.
Qed.

(** X10. [generateExercisePage] indexes [exerciseMetadata] without a
    bounds check of its own.  Once the source has been read, the call
    panics exactly when the position is below -1 or above the length of
    the list (the position just past the end is taken for a last page, the
    position -1 for a page before the first); when it panics no file has
    been created.  It never panics when the source cannot be read. *)
Theorem generateExercisePage_panics (exercisesDir outputDir : bytes)
    (meta : Meta.t) (index : Z) (w : World) :
  ((genPage exercisesDir outputDir meta index w).1 = Panic <->
   (fault (ReadFile (sourcePath exercisesDir meta)) w = None /\
    is_Some (fs w !! sourcePath exercisesDir meta)) /\
   (index < -1 \/ Z.of_nat (length exerciseMetadata) < index)%Z) /\
  ((genPage exercisesDir outputDir meta index w).1 = Panic ->
   newEvents w (genPage exercisesDir outputDir meta index w).2 =
     [(ReadFile (sourcePath exercisesDir meta), None)] /\
   fs (genPage exercisesDir outputDir meta index w).2 = fs w).
Proof.
  unfold sourcePath.
  remember (genPage exercisesDir outputDir meta index w) as r eqn:Hr.
  unfold generateExercisePage in Hr. rewrite bind_eq, wrap_eq in Hr.
  destruct (osReadFile_cases (Join exercisesDir (Meta.Filename meta)) w)
    as [(content & Hfs & Hfault & Hread)|(e & He & Hread)]; rewrite Hread in Hr.
  2:{ subst r. cbn [fst snd]. split; [|done]. split; [done|].
      intros [[Hf [x Hx]] _]. destruct He as [He|[_ He]]; congruence. }
  rewrite bind_eq in Hr.
  set (w0 := logged (ReadFile (Join exercisesDir (Meta.Filename meta))) None (fs w) w)
    in Hr.
  assert (newEvents w w0 = [(ReadFile (Join exercisesDir (Meta.Filename meta)), None)])
    as Hev by (by apply newEvents_app).
  destruct (decide (Z.of_nat (length exerciseMetadata) < index)%Z) as [Hhigh|Hhigh].
  { replace (0 <? index)%Z with true in Hr by (symmetry; apply Z.ltb_lt; lia).
    unfold bind at 1, at_ at 1 in Hr.
    replace (index - 1 <? 0)%Z with false in Hr by (symmetry; apply Z.ltb_ge; lia).
    rewrite (lookup_ge_None_2 exerciseMetadata (Z.to_nat (index - 1))) in Hr by lia.
    subst r. cbn [fst snd]. split; [|done]. split; [|done].
    intros _. split; [split; [done|by eexists]|by right]. }
  assert (exists prevLink,
    (if (0 <? index)%Z
     then m <- at_ exerciseMetadata (index - 1) ;;
          ret (Strings.TrimSuffix (Meta.Filename m) (str ".md") ++ str ".html")
     else ret (str "index.html")) w0 = (Ok prevLink, w0)) as [prevLink Hprev].
  { destruct (0 <? index)%Z eqn:Hpos; [|by eexists].
    apply Z.ltb_lt in Hpos. unfold bind, at_.
    replace (index - 1 <? 0)%Z with false by (symmetry; apply Z.ltb_ge; lia).
    destruct (lookup_lt_is_Some_2 exerciseMetadata (Z.to_nat (index - 1)) ltac:(lia))
      as [m ->]. by eexists. }
  rewrite Hprev, bind_eq in Hr.
  destruct (decide (index < -1)%Z) as [Hlow|Hlow].
  { replace (index <? Z.of_nat (length exerciseMetadata) - 1)%Z with true in Hr
      by (symmetry; apply Z.ltb_lt; lia).
    unfold bind at 1, at_ at 1 in Hr.
    replace (index + 1 <? 0)%Z with true in Hr by (symmetry; apply Z.ltb_lt; lia).
    subst r. cbn [fst snd]. split; [|done]. split; [|done].
    intros _. split; [split; [done|by eexists]|by left]. }
  assert (exists nextLink,
    (if (index <? Z.of_nat (length exerciseMetadata) - 1)%Z
     then m <- at_ exerciseMetadata (index + 1) ;;
          ret (Strings.TrimSuffix (Meta.Filename m) (str ".md") ++ str ".html")
     else ret []) w0 = (Ok nextLink, w0)) as [nextLink Hnext].
  { destruct (index <? _)%Z eqn:Hlt; [|by eexists].
    apply Z.ltb_lt in Hlt. unfold bind, at_.
    replace (index + 1 <? 0)%Z with false by (symmetry; apply Z.ltb_ge; lia).
    destruct (lookup_lt_is_Some_2 exerciseMetadata (Z.to_nat (index + 1)) ltac:(lia))
      as [m ->]. by eexists. }
  rewrite Hnext in Hr.
  assert (r.1 <> Panic) as Hne.
  { subst r. rewrite bind_eq, wrap_eq.
    match goal with |- context [templateParse ?n ?w1] =>
      destruct (templateParse_cases n w1) as [[_ ->]|(e & He & ->)] end; [|done].
    rewrite bind_eq, wrap_eq.
    match goal with |- context [osCreate ?p ?w1] =>
      destruct (osCreate_cases p w1) as [[_ ->]|(e & He & ->)] end; [|done].
    rewrite bind_eq, wrap_eq.
    match goal with |- context [fileWrite ?p ?d ?w1] =>
      destruct (fileWrite_cases p d w1) as [[_ ->]|(e & He & ->)] end; [|done].
    done. }
  split; [|done]. split; [done|]. intros [_ [?|?]]; lia.
Qed.

(** X11. The output name of a descriptor is its file name with one
    trailing [.md] replaced by [.html]; a file name without that
    extension gets [.html] appended.  Two file names have the same output
    name only if they are equal or one is the other with [.md] appended. *)
Theorem outputName_collisions (f g : bytes) :
  (forall stem, outputName (stem ++ str ".md") = stem ++ str ".html") /\
  (Strings.HasSuffix f (str ".md") = false -> outputName f = f ++ str ".html") /\
  (outputName f = outputName g <->
   f = g \/
   (f = g ++ str ".md" /\ Strings.HasSuffix g (str ".md") = false) \/
   (g = f ++ str ".md" /\ Strings.HasSuffix f (str ".md") = false)).
Proof.
  assert (forall stem, outputName (stem ++ str ".md") = stem ++ str ".html") as Hmd.
  { intros stem. unfold outputName. by rewrite TrimSuffix_app. }
  assert (forall h, Strings.HasSuffix h (str ".md") = false ->
                    outputName h = h ++ str ".html") as Hplain.
  { intros h Hh. unfold outputName, Strings.TrimSuffix. by rewrite Hh. }
  split; [done|]. split; [apply Hplain|].
  destruct (Strings.HasSuffix f (str ".md")) eqn:Hf;
    destruct (Strings.HasSuffix g (str ".md")) eqn:Hg.
  - apply HasSuffix_true in Hf as [a ->]. apply HasSuffix_true in Hg as [b ->].
    rewrite !Hmd. split.
    + intros E%app_inv_tail. left. by subst.
    + intros [E|[[_ ?]|[_ ?]]]; [|done..]. by apply app_inv_tail in E as ->.
  - apply HasSuffix_true in Hf as [a ->]. rewrite Hmd, (Hplain g Hg). split.
    + intros E%app_inv_tail. right. left. by subst.
    + intros [E|[[E _]|[_ ?]]]; [| |done].
      * subst g. rewrite (proj2 (HasSuffix_true _ _)) in Hg by by eexists. done.
      * by apply app_inv_tail in E as ->.
  - apply HasSuffix_true in Hg as [b ->]. rewrite Hmd, (Hplain f Hf). split.
    + intros E%app_inv_tail. right. right. by subst.
    + intros [E|[[_ ?]|[E _]]]; [|done|].
      * subst f. rewrite (proj2 (HasSuffix_true _ _)) in Hf by by eexists. done.
      * by apply app_inv_tail in E as ->.
  - rewrite (Hplain f Hf), (Hplain g Hg). split.
    + intros E%app_inv_tail. by left.
    + intros [->|[[-> _]|[-> _]]]; [done| |].
      * rewrite (proj2 (HasSuffix_true _ _)) in Hf by by eexists. done.
      * rewrite (proj2 (HasSuffix_true _ _)) in Hg by by eexists. done.
Qed.

End Properties.

(** * Further properties of the link rewriter *)

Section AtOpeners.
Context {step : Regexp.rule} {ok : bytes -> Prop} {g : bytes -> bytes}.
Context {rule : LinkRule step ok g}.

(** A pass keeps the start of an attribute where it is. *)
Lemma rewrite_opener_head (t : bytes) :
  exists t', Regexp.replaceLoop step 0 (opener ++ t) = opener ++ t'.
Proof.
  destruct (step (opener ++ t)) as [[out rest]|] eqn:E.
  - destruct (rule_inv _ _ _ E) as (v & Hs & Hv & Hok & ->).
    rewrite Hs, rewrite_hit by done.
    eexists. unfold href, opener. by rewrite <- !app_assoc.
  - exists (Regexp.replaceLoop step 0 t).
    unfold opener. cbn [str list_ascii_of_string app].
    rewrite replaceLoop_miss by exact E.
    do 5 (rewrite replaceLoop_miss
            by (apply rule_needs_opener; intros t0; unfold opener; by cbn)).
    done.
Qed.

End AtOpeners.

Lemma fixRelativeLinks_split (a t : bytes) :
  fixRelativeLinks (a ++ opener ++ t) =
  fixRelativeLinks a ++ fixRelativeLinks (opener ++ t).
Proof.
  rewrite !fixRelativeLinks_passes, rewrite_split.
  destruct (rewrite_opener_head (step := repoRule) t) as [t' ->].
  by rewrite rewrite_split.
Qed.

Lemma Contains_snoc (s sub : bytes) (q : ascii) :
  sub <> [] -> q ∉ sub ->
  Strings.Contains (s ++ [q]) sub = Strings.Contains s sub.
Proof.
  intros Hne Hq. apply Bool.eq_iff_eq_true. rewrite !Contains_true. split.
  - intros (a & b & E). destruct b as [|c b _] using rev_ind.
    + rewrite app_nil_r in E. destruct sub as [|c sub _] using rev_ind; [done|].
      rewrite app_assoc in E. apply app_inj_tail in E as [_ ->].
      exfalso. apply Hq. apply elem_of_app. right. by left.
    + rewrite !app_assoc in E. apply app_inj_tail in E as [-> _].
      exists a, b. by rewrite <- app_assoc.
  - intros (a & b & ->). exists a, (b ++ [q]). by rewrite <- !app_assoc.
Qed.

(** The test of the replacement function looks at the whole match, but
    only the name and its extension can hold the text it looks for. *)
Lemma Contains_exercise_link (X : bytes) :
  Strings.Contains (href (str "../exercises/" ++ X ++ str ".md")) (str "README.md") =
  Strings.Contains (X ++ str ".md") (str "README.md").
Proof.
  unfold href. rewrite !app_assoc.
  rewrite Contains_snoc; [|done|by apply (bool_decide_unpack _); vm_compute].
  by rewrite <- !app_assoc.
Qed.

Lemma fix_exercise_link (a X b : bytes) :
  X <> [] -> QuoteFree X ->
  fixRelativeLinks (a ++ href (str "../exercises/" ++ X ++ str ".md") ++ b) =
  fixRelativeLinks a ++
  href (if Strings.Contains (X ++ str ".md") (str "README.md")
        then str "index.html" else X ++ str ".html") ++
  fixRelativeLinks b.
Proof.
  intros HX Hq.
  rewrite fix_hit_repo.
  - unfold gRepo. by rewrite Contains_exercise_link, stem_exercise.
  - apply QuoteFree_app. split; [by apply QuoteFree_str_checked|].
    apply QuoteFree_app. split; [done|by apply QuoteFree_str_checked].
  - right. by exists X.
Qed.

Lemma okSibling_intro (d1 d2 : ascii) (rest : bytes) :
  Regexp.isDigit d1 = true -> Regexp.isDigit d2 = true ->
  Strings.HasSuffix rest (str ".md") = true -> 3 < length rest ->
  okSibling (d1 :: d2 :: "-"%char :: rest).
Proof.
  intros H1 H2 Hs Hlen. apply HasSuffix_true in Hs as [Z ->].
  exists d1, d2, Z. split_and!; try done.
  intros ->. cbn in Hlen. lia.
Qed.

(** ** Quotes *)

Lemma quotes_app (a b : bytes) : quotes (a ++ b) = quotes a + quotes b.
Proof. unfold quotes. by rewrite filter_app, length_app. Qed.

Lemma quotes_QuoteFree (v : bytes) : QuoteFree v -> quotes v = 0.
Proof.
  unfold quotes, QuoteFree. induction v as [|a v IH]; [done|].
  intros Hv. apply not_elem_of_cons in Hv as [Hne Hv].
  rewrite filter_cons_False by done. by apply IH.
Qed.

Lemma quotes_href (v : bytes) : QuoteFree v -> quotes (href v) = 2.
Proof.
  intros Hv. unfold href. rewrite !quotes_app, (quotes_QuoteFree v Hv).
  by vm_compute.
Qed.

Section KeepsQuotes.
Context {step : Regexp.rule} {ok : bytes -> Prop} {g : bytes -> bytes}.
Context {rule : LinkRule step ok g}.

Lemma rewrite_quotes (s : bytes) :
  quotes (Regexp.replaceLoop step 0 s) = quotes s.
Proof.
  remember (length s) as n eqn:Hn. revert s Hn.
  induction n as [n IH] using lt_wf_ind. intros s Hn.
  destruct s as [|a s]; [done|].
  destruct (step (a :: s)) as [[out rest]|] eqn:E.
  - destruct (rule_inv _ _ _ E) as (v & Hs & Hv & Hok & ->).
    destruct (rule_target v Hv Hok) as [Hg _].
    rewrite Hs, rewrite_hit, !quotes_app, !quotes_href by done.
    f_equal. apply (IH (length rest)); [|done].
    rewrite Hn, Hs, length_app. pose proof (href_nonempty v) as Hne.
    destruct (href v); [done|cbn; lia].
  - rewrite replaceLoop_miss by done.
    change (a :: ?l) with ([a] ++ l). rewrite !quotes_app. f_equal.
    apply (IH (length s)); [|done]. subst n. cbn. lia.
Qed.

End KeepsQuotes.

(** ** Two passes and one *)

Lemma replaceLoop_ext (step step' : Regexp.rule) (n : nat) (s : bytes) :
  (forall t, step t = step' t) ->
  Regexp.replaceLoop step n s = Regexp.replaceLoop step' n s.
Proof.
  intros E. revert n. induction s as [|a s IH]; intros n; [done|].
  cbn [Regexp.replaceLoop]. destruct n as [|n]; [|apply IH].
  rewrite <- E. destruct (step (a :: s)) as [[out rest]|]; [|by rewrite IH].
  destruct (length (a :: s) - length rest); by rewrite IH.
Qed.

Section TwoPasses.
Context {stepA : Regexp.rule} {okA : bytes -> Prop} {gA : bytes -> bytes}.
Context {stepB : Regexp.rule} {okB : bytes -> Prop} {gB : bytes -> bytes}.
Context {ruleA : LinkRule stepA okA gA} {ruleB : LinkRule stepB okB gB}.

(** A pass with one rule and then a pass with another do what one pass
    does that tries the first rule and then the other at each place. *)
Lemma two_passes_one (s : bytes) :
  Regexp.replaceLoop stepB 0 (Regexp.replaceLoop stepA 0 s) =
  Regexp.replaceLoop (firstOf stepA stepB) 0 s.
Proof.
  remember (length s) as n eqn:Hn. revert s Hn.
  induction n as [n IH] using lt_wf_ind. intros s Hn.
  destruct s as [|c s]; [done|].
  assert (forall v rest, c :: s = href v ++ rest -> length rest < n) as Hshort.
  { intros v rest E. rewrite Hn, E, length_app.
    pose proof (href_nonempty v) as Hne. destruct (href v); [done|cbn; lia]. }
  destruct (stepA (c :: s)) as [[out rest]|] eqn:EA.
  - destruct (rule_inv _ _ _ EA) as (v & Hs & Hv & Hok & ->).
    destruct (rule_target v Hv Hok) as [Hq Hhtml].
    rewrite Hs.
    rewrite (replaceLoop_hit (firstOf stepA stepB) (href v) rest (href (gA v)));
      [|apply href_nonempty|by unfold firstOf; rewrite <- Hs, EA].
    rewrite (rewrite_hit (step := stepA)) by done.
    rewrite (rewrite_target (step := stepB)) by done.
    f_equal. by apply (IH (length rest)); [eapply Hshort|].
  - destruct (stepB (c :: s)) as [[out rest]|] eqn:EB.
    + destruct (rule_inv _ _ _ EB) as (v & Hs & Hv & Hok & ->).
      assert (~ okA v) as Hno.
      { intros HokA. rewrite Hs, (rule_hit v rest Hv HokA) in EA. done. }
      destruct (rule_source v Hok) as [stem Hstem].
      rewrite Hs.
      rewrite (replaceLoop_hit (firstOf stepA stepB) (href v) rest (href (gB v)));
        [|apply href_nonempty|by unfold firstOf; rewrite <- Hs, EA, EB].
      rewrite (rewrite_keep (step := stepA))
        by (try done; rewrite Hstem; apply ends_md_NoOpenerTail).
      rewrite (rewrite_hit (step := stepB)) by done.
      f_equal. by apply (IH (length rest)); [eapply Hshort|].
    + rewrite (replaceLoop_miss (firstOf stepA stepB))
        by (by unfold firstOf; rewrite EA, EB).
      rewrite (replaceLoop_miss stepA) by done.
      rewrite (replaceLoop_miss stepB).
      * f_equal. apply (IH (length s)); [|done]. subst n. cbn. lia.
      * destruct (stepB (c :: Regexp.replaceLoop stepA 0 s)) as [[out rest]|] eqn:E;
          [exfalso|done].
        destruct (rule_inv _ _ _ E) as (v & Hs & Hv & Hok & _).
        destruct (source_link_transfer (ruleA := ruleA) (ruleB := ruleB)
                    (c :: s) v rest Hv Hok) as [s' Hs'].
        { by rewrite (replaceLoop_miss stepA) by done. }
        rewrite Hs', (rule_hit v s' Hv Hok) in EB. done.
Qed.

End TwoPasses.

Lemma firstOf_either (s : bytes) :
  firstOf repoRule siblingRule s = firstOf siblingRule repoRule s.
Proof.
  unfold firstOf.
  destruct (repoRule s) as [[out rest]|] eqn:EA;
    destruct (siblingRule s) as [[out' rest']|] eqn:EB; try done.
  exfalso.
  destruct (rule_inv _ _ _ EA) as (v & Hs & Hv & Hok & _).
  destruct (rule_inv _ _ _ EB) as (v' & Hs' & Hv' & Hok' & _).
  rewrite Hs in Hs'. destruct (href_inj v v' rest rest' Hv Hv' Hs') as [-> _].
  by apply (okSibling_not_okRepo v').
Qed.

(** ** The properties *)

(** X12. The link rewriter works attribute by attribute: the text before
    the start of an attribute ([href=Q]) and the text from there on are
    rewritten independently, so no match reaches across such a start. *)
Theorem rewriter_splits_at_attributes (a t : bytes) :
  fixRelativeLinks (a ++ opener ++ t) =
  fixRelativeLinks a ++ fixRelativeLinks (opener ++ t).
Proof. apply fixRelativeLinks_split. Qed.

(** X13. A hyperlink that matches neither pattern and does not end in
    [href=] stays where it is and separates the text: what precedes it
    and what follows it are rewritten on their own. *)
Theorem unmatched_link_splits (a v b : bytes) :
  QuoteFree v -> ~ okRepo v -> ~ okSibling v -> NoOpenerTail v ->
  fixRelativeLinks (a ++ href v ++ b) =
  fixRelativeLinks a ++ href v ++ fixRelativeLinks b.
Proof.
  intros Hv H1 H2 Ht.
  rewrite href_app, fixRelativeLinks_split, <- href_app.
  rewrite !fixRelativeLinks_passes.
  rewrite (rewrite_keep (step := repoRule)) by done.
  by rewrite (rewrite_keep (step := siblingRule)) by done.
Qed.

(** Where the value of an unmatched hyperlink ends in [href=], its
    closing quote can open a match. *)
Remark unmatched_link_may_open_match :
  fixRelativeLinks (href (str "xhref=") ++ str "03-a.md" ++ [dq]) =
  href (str "xhref=") ++ str "03-a.html" ++ [dq].
Proof. by vm_compute. Qed.

(** X14. A hyperlink to [../exercises/X.md] is rewritten to [X.html], or
    to [index.html] when [X.md] contains [README.md] (a name that only
    ends in [README] is enough). *)
Theorem exercise_link_target (a X b : bytes) :
  X <> [] -> QuoteFree X ->
  fixRelativeLinks (a ++ href (str "../exercises/" ++ X ++ str ".md") ++ b) =
  fixRelativeLinks a ++
  href (if Strings.Contains (X ++ str ".md") (str "README.md")
        then str "index.html" else X ++ str ".html") ++
  fixRelativeLinks b.
Proof. apply fix_exercise_link. Qed.

(** X15. The function passed to [ReplaceAllStringFunc] rewrites every
    match it is called on: a match of the first pattern contains
    [README.md] or the inner pattern finds the name in it, so the final
    [return match] is never reached and the match is never kept. *)
Theorem callback_always_rewrites (s rest : bytes) (c : Regexp.captures) :
  Regexp.matchHere reRepoLink s = Some (c, rest) ->
  (Strings.Contains (Regexp.submatch c 0) (str "README.md") = true \/
   1 < length (Regexp.FindStringSubmatch reExercisePath (Regexp.submatch c 0))) /\
  rewriteRepoLink (Regexp.submatch c 0) <> Regexp.submatch c 0.
Proof.
  intros Hm.
  destruct (matchHere_repo_inv _ _ _ Hm) as (v & -> & Hv & Hok & ->).
  pose proof (rewriteRepoLink_href v Hv Hok) as Hr.
  destruct (gRepo_target v Hv Hok) as [Hq [stem Hstem]].
  destruct (ends_md v Hok) as [stem' Hmd].
  assert (rewriteRepoLink (href v) <> href v) as Hne.
  { rewrite Hr. intros E.
    destruct (href_inj (gRepo v) v [] [] Hq Hv) as [E' _]; [by rewrite E|].
    rewrite Hstem, Hmd in E'. symmetry in E'. by apply ends_md_not_html in E'. }
  split; [|done].
  destruct (Strings.Contains (href v) (str "README.md")) eqn:Hc; [by left|right].
  unfold rewriteRepoLink in Hne. rewrite Hc in Hne.
  destruct (1 <? length _) eqn:Hlen; [by apply Nat.ltb_lt in Hlen|done].
Qed.

(** X16. What [markdownToHTML] returns holds no hyperlink of a shape the
    link rewriter rewrites, whatever the markdown converter has produced:
    no attribute [href=QvQ] is left whose value is the overview document,
    a document under [../exercises/] or a numbered sibling document. *)
Theorem no_source_link_left (convert : bytes -> bytes) (md a v b : bytes) :
  markdownToHTML convert md = a ++ href v ++ b -> QuoteFree v ->
  ~ okRepo v /\ ~ okSibling v.
Proof.
  unfold markdownToHTML. intros E Hv.
  destruct (fix_NoMatch (convert md)) as [Hrepo Hsib]. rewrite E in Hrepo, Hsib.
  split; intros Hok.
  - specialize (Hrepo (href v ++ b) (suffix_app_r _ _ _ (reflexivity _))).
    by rewrite (rule_hit v b Hv Hok) in Hrepo.
  - specialize (Hsib (href v ++ b) (suffix_app_r _ _ _ (reflexivity _))).
    by rewrite (rule_hit v b Hv Hok) in Hsib.
Qed.

(** X17. The link rewriter and the page generator agree on names: a
    hyperlink to a numbered document, by its file name or by its path
    under [../exercises/], is rewritten to the name the generator gives the
    page of a descriptor with that file name. *)
Theorem rewritten_link_names_output (a f b : bytes) :
  okSibling f -> QuoteFree f ->
  fixRelativeLinks (a ++ href f ++ b) =
    fixRelativeLinks a ++ href (outputName f) ++ fixRelativeLinks b /\
  (Strings.Contains f (str "README.md") = false ->
   fixRelativeLinks (a ++ href (str "../exercises/" ++ f) ++ b) =
     fixRelativeLinks a ++ href (outputName f) ++ fixRelativeLinks b).
Proof.
  intros Hok Hq. pose proof Hok as (d1 & d2 & Z & Hd1 & Hd2 & HZ & ->).
  assert (outputName (d1 :: d2 :: "-"%char :: Z ++ str ".md") =
          d1 :: d2 :: "-"%char :: Z ++ str ".html") as ->.
  { unfold outputName.
    change (d1 :: d2 :: "-"%char :: Z ++ str ".md")
      with ((d1 :: d2 :: "-"%char :: Z) ++ str ".md").
    by rewrite TrimSuffix_app. }
  split.
  - by rewrite fix_hit_sibling, gSibling_value.
  - intros Hc.
    change (d1 :: d2 :: "-"%char :: Z ++ str ".md")
      with ((d1 :: d2 :: "-"%char :: Z) ++ str ".md") in Hc, Hq |- *.
    rewrite fix_exercise_link, Hc; [done..|].
    by apply QuoteFree_app in Hq as [Hq _].
Qed.

(** X18. The link rewriter never adds or removes a double quote: the
    text it returns has as many as the text it was given, so the
    delimiters of every attribute are kept. *)
Theorem fixRelativeLinks_keeps_quotes (s : bytes) :
  quotes (fixRelativeLinks s) = quotes s.
Proof.
  rewrite fixRelativeLinks_passes.
  by rewrite (rewrite_quotes (step := siblingRule)), (rewrite_quotes (step := repoRule)).
Qed.

(** X19. The two passes of the link rewriter do not depend on their
    order: rewriting the numbered links first and the repository links
    second gives the same text, and both give what a single pass from left
    to right gives that applies, at each place, whichever pattern
    matches there. *)
Theorem passes_commute (s : bytes) :
  fixRelativeLinks s =
    Regexp.ReplaceAllStringFunc reRepoLink
      (Regexp.ReplaceAllString reSiblingLink s siblingTemplate) rewriteRepoLink /\
  fixRelativeLinks s = Regexp.replaceLoop (firstOf repoRule siblingRule) 0 s.
Proof.
  rewrite fixRelativeLinks_passes.
  unfold Regexp.ReplaceAllStringFunc, Regexp.ReplaceAllString.
  fold repoRule. fold siblingRule.
  rewrite (two_passes_one (ruleA := repoRule_LinkRule) (ruleB := siblingRule_LinkRule)).
  rewrite (two_passes_one (ruleA := siblingRule_LinkRule) (ruleB := repoRule_LinkRule)).
  split; [|done]. apply replaceLoop_ext, firstOf_either.
Qed.

(** * The generator on the descriptor list of main.go *)

Section Workshop.

Variable Join : bytes -> bytes -> bytes.
Variable blackfridayRun : bytes -> bytes.
Variables escHTML escRCDATA escURL : bytes -> bytes.
Variables exercisePageScript indexPageOpen cssTemplate : bytes.

Lemma workshop_names_distinct :
  NoDup ((outputName ∘ Meta.Filename <$> workshopMetadata) ++
         [str "index.html"; str "style.css"]).
Proof. apply (bool_decide_unpack _). by vm_compute. Qed.

(** X20. With the eleven descriptors of main.go the thirteen output files
    have different names.  Where their thirteen paths in the output
    directory are different too, no output replaces another: after a run
    that succeeds every descriptor's file holds its own page, the landing
    page holds the index of eleven exercises and the stylesheet holds the
    style text. *)
Theorem workshop_site (exercisesDir outputDir : bytes) (w : World) :
  NoDup (outputPaths Join workshopMetadata outputDir) ->
  (main Join blackfridayRun escHTML escRCDATA escURL exercisePageScript
     indexPageOpen cssTemplate workshopMetadata exercisesDir outputDir w).1 = Ok tt ->
  NoDup (outputNames workshopMetadata) /\
  length (outputPaths Join workshopMetadata outputDir) = 13 /\
  fs (main Join blackfridayRun escHTML escRCDATA escURL exercisePageScript
        indexPageOpen cssTemplate workshopMetadata exercisesDir outputDir w).2
    !! cssPath Join outputDir = Some cssTemplate /\
  exists es,
    length es = 11 /\
    fs (main Join blackfridayRun escHTML escRCDATA escURL exercisePageScript
          indexPageOpen cssTemplate workshopMetadata exercisesDir outputDir w).2
      !! indexPath Join outputDir =
      Some (executeIndex escHTML escURL indexPageOpen {| Exercises := es |}) /\
    forall k meta, workshopMetadata !! k = Some meta ->
      exists content,
        es !! k = Some (pageOf blackfridayRun workshopMetadata k meta content) /\
        fs (main Join blackfridayRun escHTML escRCDATA escURL exercisePageScript
              indexPageOpen cssTemplate workshopMetadata exercisesDir outputDir w).2
          !! pagePath Join outputDir meta =
          Some (executeExercise escHTML escRCDATA escURL exercisePageScript
                  (pageOf blackfridayRun workshopMetadata k meta content)).
Proof.
  intros Hnodup Hok.
  destruct (run_page_files Join blackfridayRun escHTML escRCDATA escURL
              exercisePageScript indexPageOpen cssTemplate workshopMetadata
              exercisesDir outputDir w Hok) as (Hcss & es & Hlen & Hidx & Hpages).
  split; [exact workshop_names_distinct|]. split; [done|]. split; [done|].
  exists es. split; [done|]. split.
  - apply Hidx. intros E.
    assert (outputPaths Join workshopMetadata outputDir =
            (pagePath Join outputDir <$> workshopMetadata) ++
            [indexPath Join outputDir] ++ [cssPath Join outputDir]) as Hsplit by done.
    rewrite Hsplit in Hnodup.
    apply NoDup_app in Hnodup as (_ & _ & Hnodup).
    apply NoDup_app in Hnodup as (_ & Hnodup & _).
    apply (Hnodup (indexPath Join outputDir)); [by left|]. rewrite E. by left.
  - intros k meta Hk. destruct (Hpages k meta Hk) as (content & He & _ & Hfile).
    exists content. split; [done|]. apply Hfile.
    apply lookup_lt_Some in Hk as Hlt.
    assert (outputPaths Join workshopMetadata outputDir !! k =
            Some (pagePath Join outputDir meta)) as Hat.
    { unfold outputPaths. rewrite lookup_app_l by (by rewrite length_fmap).
      by rewrite list_lookup_fmap, Hk. }
    rewrite <- (take_drop_middle _ _ _ Hat) in Hnodup.
    apply NoDup_app in Hnodup as (_ & _ & Hnodup).
    by apply NoDup_cons in Hnodup as [Hnotin _].
Qed.

Lemma start_link_in_template :
  exists a b,
    indexPageClose = a ++ href (str "00-introduction-setup.html") ++ b.
Proof. apply Contains_true. by vm_compute. Qed.

(** X21. The landing page links to [00-introduction-setup.html] in its
    fixed text (Start with Exercise 0).  With the descriptors of main.go
    that is the output name of the first descriptor, so in a run that
    succeeds the landing page written carries this link and the file it
    names is written in the same run, with the page of that descriptor. *)
Theorem index_start_link_resolves (exercisesDir outputDir : bytes) (w : World) :
  (main Join blackfridayRun escHTML escRCDATA escURL exercisePageScript
     indexPageOpen cssTemplate workshopMetadata exercisesDir outputDir w).1 = Ok tt ->
  exists es first a b,
    es !! 0 = Some first /\
    Exercise.Filename first = str "00-introduction-setup.html" /\
    executeIndex escHTML escURL indexPageOpen {| Exercises := es |} =
      a ++ href (str "00-introduction-setup.html") ++ b /\
    (Write (indexPath Join outputDir)
       (executeIndex escHTML escURL indexPageOpen {| Exercises := es |}), None)
      ∈ newEvents w
          (main Join blackfridayRun escHTML escRCDATA escURL exercisePageScript
             indexPageOpen cssTemplate workshopMetadata exercisesDir outputDir w).2 /\
    (Write (Join outputDir (str "00-introduction-setup.html"))
       (executeExercise escHTML escRCDATA escURL exercisePageScript first), None)
      ∈ newEvents w
          (main Join blackfridayRun escHTML escRCDATA escURL exercisePageScript
             indexPageOpen cssTemplate workshopMetadata exercisesDir outputDir w).2.
Proof.
  intros Hok.
  destruct (run_trace Join blackfridayRun escHTML escRCDATA escURL
              exercisePageScript indexPageOpen cssTemplate workshopMetadata
              exercisesDir outputDir w Hok) as (es & Hlen & Hfirst & -> & _).
  destruct es as [|first es]; [done|]. cbn in Hfirst.
  destruct start_link_in_template as (a & b & Hlink).
  exists (first :: es), first.
  exists (indexPageOpen ++
          escHTML (Itoa (Z.of_nat (length (first :: es)))) ++ indexCountClose ++
          concat (executeCard escHTML escURL <$> first :: es) ++ a), b.
  split; [done|]. split; [by injection Hfirst|]. split.
  - unfold executeIndex. cbn [Exercises]. rewrite Hlink. by rewrite <- !app_assoc.
  - split.
    + unfold okEvents. apply list_elem_of_fmap. eexists. split; [reflexivity|].
      right. apply elem_of_app. right. apply elem_of_app. left.
      unfold indexOps, indexPath. do 2 right. by left.
    + unfold okEvents. apply list_elem_of_fmap. eexists. split; [reflexivity|].
      right. apply elem_of_app. left. cbn [zip_with concat].
      apply elem_of_app. left. unfold pageOps. do 3 right.
      injection Hfirst as ->. by left.
Qed.

End Workshop.

(** ** A run on three descriptors *)

Lemma example_succeeds : (exampleMain (quietWorld threeSources)).1 = Ok tt.
Proof. by vm_compute. Qed.


Lemma readme_substring_precedence_witness :
  QuoteFree (str "README.md-notes") /\
  Strings.Contains (str "README.md-notes") (str "README.md") = true /\
  fixRelativeLinks
    (str "<a " ++ href (str "../exercises/README.md-notes.md") ++ str ">notes</a>") =
  fixRelativeLinks (str "<a ") ++ href (str "index.html") ++
  fixRelativeLinks (str ">notes</a>").
Proof.
  assert (QuoteFree (str "README.md-notes")) as H1
    by (by apply QuoteFree_str_checked).
  assert (Strings.Contains (str "README.md-notes") (str "README.md") = true) as H2
    by reflexivity.
  split; [exact H1|]. split; [exact H2|].
  exact (proj1 (proj2 (readme_substring_precedence
    (str "<a ") (str "README.md-notes") (str ">notes</a>") H1 H2))).
Defined.

Lemma sibling_rewrite_by_pattern_witness :
  (str "99-nonexistent.md" ∉ (Meta.Filename <$> workshopMetadata)) /\
  fixRelativeLinks (str "<a " ++ href (str "99-nonexistent.md") ++ str ">x</a>") =
  fixRelativeLinks (str "<a ") ++ href (str "99-nonexistent.html") ++
  fixRelativeLinks (str ">x</a>").
Proof.
  split; [apply (bool_decide_unpack _); by vm_compute|].
  apply (sibling_rewrite_by_pattern (str "<a ") (str ">x</a>")
           "9"%char "9"%char (str "nonexistent")).
  - reflexivity.
  - reflexivity.
  - discriminate.
  - by apply QuoteFree_str_checked.
Defined.

Lemma navigation_links_witness :
  1 < length threeDocs /\
  exists e,
    (examplePage 1 doc1 (quietWorld threeSources)).1 = Ok e /\
    Exercise.PrevLink e = outputName (str "00-intro.md") /\
    Exercise.NextLink e = outputName (str "02-scan.md").
Proof.
  assert (1 < length threeDocs) as Hi by (cbn; lia).
  split; [exact Hi|].
  destruct (navigation_links slashJoin id id id id (str "<script></script>")
              threeDocs (str "exercises") (str "website")
              doc1 1 (quietWorld threeSources) Hi)
    as [Hlinks Hreturns].
  destruct Hreturns as [e He]; [done|by vm_compute; eexists|].
  exists e. unfold examplePage. change (Z.of_nat 1) with 1%Z in *.
  rewrite He in Hlinks |- *. destruct Hlinks as (_ & Hprev & _ & Hnext).
  split; [done|]. split.
  - exact (Hprev 0 doc0 eq_refl eq_refl).
  - exact (Hnext doc2 eq_refl).
Defined.

(** The stylesheet cannot be created: the run stops there, and the
    landing page it has written lists the three descriptors. *)
Lemma index_lists_descriptors_witness :
  (exampleMain (noStylesheet threeSources)).1 = Exit 1 /\
  writes (newEvents (noStylesheet threeSources)
            (exampleMain (noStylesheet threeSources)).2) !! 3 =
    Some (str "website/index.html",
          str "<html>" ++ str "3" ++ indexCountClose ++
          concat (imap (indexCard id id) threeDocs) ++ indexPageClose).
Proof.
  split; [by vm_compute|].
  assert (is_Some (writes (newEvents (noStylesheet threeSources)
                             (exampleMain (noStylesheet threeSources)).2) !! 3))
    as [d Hd] by (vm_compute; eauto).
  rewrite Hd. f_equal.
  exact (proj1 (index_lists_descriptors slashJoin id id id id
                  (str "<script></script>") (str "<html>") (str "body { margin: 0 }")
                  threeDocs (str "exercises") (str "website")
                  (noStylesheet threeSources)) d Hd).
Defined.

(** C4 as stated fails: a run that succeeds also writes the stylesheet,
    which is neither the landing page nor the page of a descriptor. *)
Lemma output_files_counterexample :
  (exampleMain (quietWorld threeSources)).1 = Ok tt /\
  (list_to_set (writes (newEvents (quietWorld threeSources)
                          (exampleMain (quietWorld threeSources)).2)).*1 : gset bytes) <>
    {[ indexPath slashJoin (str "website") ]} ∪
    list_to_set (pagePath slashJoin (str "website") <$> threeDocs).
Proof.
  split; [exact example_succeeds|]. intros Heq.
  assert (str "website/style.css" ∈
          (list_to_set (writes (newEvents (quietWorld threeSources)
             (exampleMain (quietWorld threeSources)).2)).*1 : gset bytes)) as Hin.
  { apply elem_of_list_to_set. apply (bool_decide_unpack _). by vm_compute. }
  rewrite Heq in Hin. apply elem_of_union in Hin as [Hin|Hin].
  - apply elem_of_singleton in Hin. by vm_compute in Hin.
  - apply elem_of_list_to_set in Hin. revert Hin.
    apply (bool_decide_unpack _). by vm_compute.
Qed.

Lemma output_files_complete_witness :
  (exampleMain (quietWorld threeSources)).1 = Ok tt /\
  (writes (newEvents (quietWorld threeSources)
             (exampleMain (quietWorld threeSources)).2)).*1 =
  [str "website/00-intro.html"; str "website/01-build.html";
   str "website/02-scan.html"; str "website/index.html"; str "website/style.css"].
Proof.
  split; [exact example_succeeds|].
  exact (proj1 (output_files_complete slashJoin id id id id (str "<script></script>")
                  (str "<html>") (str "body { margin: 0 }") threeDocs
                  (str "exercises") (str "website") (quietWorld threeSources)
                  example_succeeds)).
Defined.



(** A second run, on the files the first run has left. *)
Lemma regeneration_deterministic_witness :
  let w1 := quietWorld threeSources in
  let w2 := quietWorld (fs (exampleMain w1).2) in
  (exampleMain w1).1 = Ok tt /\ (exampleMain w2).1 = Ok tt /\
  fs (exampleMain w1).2 !! str "website/index.html" =
  fs (exampleMain w2).2 !! str "website/index.html".
Proof.
  intros w1 w2.
  assert ((exampleMain w2).1 = Ok tt) as H2 by (by vm_compute).
  split; [exact example_succeeds|]. split; [exact H2|].
  apply (regeneration_deterministic slashJoin id id id id (str "<script></script>")
           (str "<html>") (str "body { margin: 0 }") threeDocs
           (str "exercises") (str "website") w1 w2).
  - intros meta Hin.
    repeat (apply elem_of_cons in Hin as [->|Hin]; [by vm_compute|]).
    by apply elem_of_nil in Hin.
  - exact example_succeeds.
  - exact H2.
  - apply elem_of_app. right. left.
Defined.

(** A run whose second source is missing stops there: one page has been
    written, the message names the descriptor, and there is no summary. *)
Example missing_source_run :
  let w := quietWorld (delete (str "exercises/01-build.md") threeSources) in
  (exampleMain w).1 = Exit 1 /\
  stderr (exampleMain w).2 =
    [str "Error generating exercise 01-build.md: reading markdown file: " ++
     str "open exercises/01-build.md: no such file or directory" ++ nl] /\
  (writes (log (exampleMain w).2)).*1 = [str "website/00-intro.html"] /\
  stdout (exampleMain w).2 = [str "✓ Generated 00-intro.html" ++ nl].
Proof. by vm_compute. Qed.

(** ** Further properties, on examples *)

Lemma rewritten_link_names_output_witness :
  Forall (fun m =>
            forall a b,
              fixRelativeLinks (a ++ href (Meta.Filename m) ++ b) =
                fixRelativeLinks a ++ href (outputName (Meta.Filename m)) ++
                fixRelativeLinks b /\
              fixRelativeLinks
                (a ++ href (str "../exercises/" ++ Meta.Filename m) ++ b) =
                fixRelativeLinks a ++ href (outputName (Meta.Filename m)) ++
                fixRelativeLinks b)
         workshopMetadata.
Proof.
  unfold workshopMetadata.
  repeat (apply Forall_cons; split);
    [intros a b; cbn [Meta.Filename]..|by apply Forall_nil];
    (match goal with |- context [href (str ?f)] =>
       destruct (rewritten_link_names_output a (str f) b) as [H1 H2];
         [apply okSibling_intro; first [by vm_compute|cbn; lia]
         |by apply QuoteFree_str_checked
         |split; [exact H1|apply H2; by vm_compute]]
     end).
Defined.

Lemma no_source_link_left_witness :
  markdownToHTML id (str "<a " ++ href (str "03-topic.md") ++ str ">topic</a>") =
    str "<a " ++ href (str "03-topic.html") ++ str ">topic</a>" /\
  QuoteFree (str "03-topic.html") /\
  ~ okRepo (str "03-topic.html") /\ ~ okSibling (str "03-topic.html").
Proof.
  assert (markdownToHTML id
            (str "<a " ++ href (str "03-topic.md") ++ str ">topic</a>") =
          str "<a " ++ href (str "03-topic.html") ++ str ">topic</a>") as H1
    by (by vm_compute).
  assert (QuoteFree (str "03-topic.html")) as H2
    by (by apply QuoteFree_str_checked).
  split; [exact H1|]. split; [exact H2|].
  exact (no_source_link_left id _ _ _ _ H1 H2).
Defined.

Lemma exercise_link_target_witness :
  fixRelativeLinks
    (str "<a " ++ href (str "../exercises/04-compiler-inlining-parameters.md") ++
     str ">inlining</a>") =
  fixRelativeLinks (str "<a ") ++
  href (str "04-compiler-inlining-parameters.html") ++
  fixRelativeLinks (str ">inlining</a>").
Proof.
  apply (exercise_link_target (str "<a ") (str "04-compiler-inlining-parameters")
           (str ">inlining</a>")).
  - discriminate.
  - by apply QuoteFree_str_checked.
Defined.

Lemma unmatched_link_splits_witness :
  fixRelativeLinks
    (href (str "03-a.md") ++ href (str "https://go.dev/doc") ++ href (str "../README.md")) =
  fixRelativeLinks (href (str "03-a.md")) ++ href (str "https://go.dev/doc") ++
  fixRelativeLinks (href (str "../README.md")).
Proof.
  apply (unmatched_link_splits (href (str "03-a.md")) (str "https://go.dev/doc")
           (href (str "../README.md"))).
  - by apply QuoteFree_str_checked.
  - intros Hok. destruct (ends_md _ Hok) as [stem E].
    assert (Strings.HasSuffix (str "https://go.dev/doc") (str ".md") = true) as H
      by (apply HasSuffix_true; by exists stem).
    by vm_compute in H.
  - intros Hok. destruct (rule_source (LinkRule := siblingRule_LinkRule) _ Hok)
      as [stem E].
    assert (Strings.HasSuffix (str "https://go.dev/doc") (str ".md") = true) as H
      by (apply HasSuffix_true; by exists stem).
    by vm_compute in H.
  - intros [u E].
    assert (Strings.HasSuffix (str "https://go.dev/doc") (str "href=") = true) as H
      by (apply HasSuffix_true; by exists u).
    by vm_compute in H.
Defined.

Lemma callback_always_rewrites_witness :
  exists c,
    Regexp.matchHere reRepoLink
      (href (str "../exercises/02-scanner-arrow-operator.md") ++ str ">") =
      Some (c, str ">") /\
    rewriteRepoLink (Regexp.submatch c 0) <> Regexp.submatch c 0.
Proof.
  destruct (matchHere_repo_hit (str "../exercises/02-scanner-arrow-operator.md")
              (str ">")) as (c & Hm & _).
  - by apply QuoteFree_str_checked.
  - right. by exists (str "02-scanner-arrow-operator").
  - exists c. split; [exact Hm|].
    exact (proj2 (callback_always_rewrites _ _ _ Hm)).
Defined.

Lemma written_files_hold_pages_witness :
  (exampleMain (quietWorld threeSources)).1 = Ok tt /\
  fs (exampleMain (quietWorld threeSources)).2 !! str "website/style.css" =
    Some (str "body { margin: 0 }") /\
  exists content,
    threeSources !! str "exercises/01-build.md" = Some content /\
    fs (exampleMain (quietWorld threeSources)).2 !! str "website/01-build.html" =
      Some (executeExercise id id id (str "<script></script>")
              (pageOf id threeDocs 1 doc1 content)).
Proof.
  split; [exact example_succeeds|].
  destruct (written_files_hold_pages slashJoin id id id id (str "<script></script>")
              (str "<html>") (str "body { margin: 0 }") threeDocs
              (str "exercises") (str "website") (quietWorld threeSources)
              example_succeeds) as (Hcss & es & _ & _ & Hpages).
  split; [exact Hcss|].
  destruct (Hpages 1 doc1 eq_refl) as (content & _ & Hsrc & Hfile).
  exists content. split.
  - apply Hsrc. apply (bool_decide_unpack _). by vm_compute.
  - apply Hfile. apply (bool_decide_unpack _). by vm_compute.
Defined.

Lemma successful_run_trace_witness :
  (exampleMain (quietWorld threeSources)).1 = Ok tt /\
  reads (newEvents (quietWorld threeSources)
           (exampleMain (quietWorld threeSources)).2) =
    [str "exercises/00-intro.md"; str "exercises/01-build.md";
     str "exercises/02-scan.md"] /\
  length (newEvents (quietWorld threeSources)
            (exampleMain (quietWorld threeSources)).2) = 18.
Proof.
  split; [exact example_succeeds|].
  destruct (successful_run_trace slashJoin id id id id (str "<script></script>")
              (str "<html>") (str "body { margin: 0 }") threeDocs
              (str "exercises") (str "website") (quietWorld threeSources)
              example_succeeds) as (es & _ & _ & Hreads & Hlen).
  split; [exact Hreads|exact Hlen].
Defined.

Lemma example_sources_apart :
  forall meta, meta ∈ threeDocs ->
    sourcePath slashJoin (str "exercises") meta ∉
    outputPaths slashJoin threeDocs (str "website").
Proof.
  intros meta Hin. unfold threeDocs in Hin.
  repeat (apply elem_of_cons in Hin as [->|Hin]);
    [apply (bool_decide_unpack _); by vm_compute..|by apply elem_of_nil in Hin].
Qed.

Lemma example_succeeds_again :
  (exampleMain (exampleMain (quietWorld threeSources)).2).1 = Ok tt.
Proof. by vm_compute. Qed.

Lemma rerun_changes_nothing_witness :
  (exampleMain (quietWorld threeSources)).1 = Ok tt /\
  (exampleMain (exampleMain (quietWorld threeSources)).2).1 = Ok tt /\
  fs (exampleMain (exampleMain (quietWorld threeSources)).2).2 =
    fs (exampleMain (quietWorld threeSources)).2.
Proof.
  split; [exact example_succeeds|]. split; [exact example_succeeds_again|].
  exact (proj2 (rerun_changes_nothing slashJoin id id id id (str "<script></script>")
                  (str "<html>") (str "body { margin: 0 }") threeDocs
                  (str "exercises") (str "website") (quietWorld threeSources)
                  example_sources_apart example_succeeds example_succeeds_again)).
Defined.

Lemma navigation_round_trip_witness :
  (exampleMain (quietWorld threeSources)).1 = Ok tt /\
  exists es,
    length es = 3 /\
    forall i e e', es !! i = Some e -> es !! S i = Some e' ->
      Exercise.NextLink e = Exercise.Filename e' /\
      Exercise.PrevLink e' = Exercise.Filename e.
Proof.
  split; [exact example_succeeds|].
  destruct (navigation_round_trip slashJoin id id id id (str "<script></script>")
              (str "<html>") (str "body { margin: 0 }") threeDocs
              (str "exercises") (str "website") (quietWorld threeSources)
              example_succeeds) as (es & Hlen & Hnav).
  exists es. split; [exact Hlen|]. intros i e e' He He'.
  destruct (Hnav i e e' He He') as (Hnext & Hprev & _).
  split; [exact Hnext|exact Hprev].
Defined.

Lemma missing_source_stops_run_witness :
  (exampleMain
     (quietWorld (delete (str "exercises/01-build.md") threeSources))).1 = Exit 1 /\
  length (writes (newEvents
            (quietWorld (delete (str "exercises/01-build.md") threeSources))
            (exampleMain
               (quietWorld (delete (str "exercises/01-build.md") threeSources))).2))
    <= 1.
Proof.
  destruct (missing_source_stops_run slashJoin id id id id (str "<script></script>")
              (str "<html>") (str "body { margin: 0 }") threeDocs
              (str "exercises") (str "website")
              (quietWorld (delete (str "exercises/01-build.md") threeSources))
              1 doc1 eq_refl) as (Hexit & Hlen & _ & _).
  - by vm_compute.
  - apply (bool_decide_unpack _). by vm_compute.
  - split; [exact Hexit|exact Hlen].
Defined.

Lemma workshop_succeeds : (workshopMain (quietWorld workshopSources)).1 = Ok tt.
Proof. by vm_compute. Qed.

Lemma workshop_site_witness :
  (workshopMain (quietWorld workshopSources)).1 = Ok tt /\
  NoDup (outputPaths slashJoin workshopMetadata (str "website")) /\
  exists es,
    length es = 11 /\
    fs (workshopMain (quietWorld workshopSources)).2 !! str "website/index.html" =
      Some (executeIndex id id (str "<html>") {| Exercises := es |}).
Proof.
  assert (NoDup (outputPaths slashJoin workshopMetadata (str "website"))) as Hnodup.
  { apply (bool_decide_unpack _). by vm_compute. }
  split; [exact workshop_succeeds|]. split; [exact Hnodup|].
  destruct (workshop_site slashJoin id id id id (str "<script></script>")
              (str "<html>") (str "body { margin: 0 }")
              (str "exercises") (str "website") (quietWorld workshopSources)
              Hnodup workshop_succeeds)
    as (_ & _ & _ & es & Hlen & Hidx & _).
  exists es. split; [exact Hlen|exact Hidx].
Defined.

Lemma page_navigation_strip_witness :
  exists e,
    (examplePage 2 doc2 (quietWorld threeSources)).1 = Ok e /\
    Exercise.PrevLink e <> [] /\
    (Exercise.NextLink e = [] <-> 3 = length threeDocs) /\
    executeExercise id id id (str "<script></script>") e =
      pageHead id (str "<script></script>") e ++
      prevControl id (Exercise.PrevLink e)
        (if decide (Exercise.PrevLink e = str "index.html")
         then navHomeLabel else navPrevLabel) ++
      navBetween ++ [] ++ exercisePageClose.
Proof.
  destruct (examplePage 2 doc2 (quietWorld threeSources)) as [[e|err|c|] w'] eqn:E;
    try (by vm_compute in E).
  exists e. split; [reflexivity|].
  apply (page_navigation_strip slashJoin id id id id (str "<script></script>")
           threeDocs (str "exercises") (str "website") doc2 2
           (quietWorld threeSources) e).
  - cbn. lia.
  - unfold examplePage in E. change (Z.of_nat 2) with 2%Z. by rewrite E.
Defined.

Lemma index_start_link_resolves_witness :
  (workshopMain (quietWorld workshopSources)).1 = Ok tt /\
  exists es first a b,
    es !! 0 = Some first /\
    Exercise.Filename first = str "00-introduction-setup.html" /\
    executeIndex id id (str "<html>") {| Exercises := es |} =
      a ++ href (str "00-introduction-setup.html") ++ b.
Proof.
  split; [exact workshop_succeeds|].
  destruct (index_start_link_resolves slashJoin id id id id (str "<script></script>")
              (str "<html>") (str "body { margin: 0 }")
              (str "exercises") (str "website") (quietWorld workshopSources)
              workshop_succeeds)
    as (es & first & a & b & Hfirst & Hname & Hlink & _).
  exists es, first, a, b. split; [exact Hfirst|]. split; [exact Hname|exact Hlink].
Defined.
